(** * analytics-hub backend: credential engine and administrative routes

    A shallow embedding of

    - [backend/src/utils/crypto.js]  (request signing, signature
      verification, encryption at rest of tenant database passwords,
      generated identifiers and format checks),
    - [backend/src/middleware/adminAuth.js]  (the fixed-token check in front
      of every administrative route),
    - [backend/src/routes/admin.js]  (project creation, update and
      deletion, connection test, database initialisation and health
      check),

    together with the properties the specification states about them and
    further properties read off the code.

    Conventions.  JavaScript strings are modelled by [string] (a string is
    identified with its UTF-8 bytes, so it is well-formed Unicode text:
    lone surrogates are outside the model; where Node reads a string by
    its UTF-16 code units, these are computed from the bytes), Node
    [Buffer]s by [list byte],
    JavaScript objects used as dictionaries ([process.env], [req.body], a
    row returned by the database driver) by [gmap string _], exceptions by
    the [result] type, and [crypto.randomBytes] by explicit passing of an
    entropy source.  The functions of Node's [Buffer] and [crypto] modules
    that the code calls are written out as Node documents them: the
    lenient hexadecimal and base64 decoders, HMAC, CBC with PKCS#7
    padding, SHA-256 and AES-256; the last two are checked against the
    standards' test vectors. *)

From Stdlib Require Import ZArith NArith Lia List Ascii String DecimalString.
From Stdlib Require Import DecimalPos DecimalZ.
From Stdlib.Strings Require Import Byte.
From stdpp Require Import gmap strings list fin_maps.

Open Scope string_scope.

(** ** JavaScript values, truthiness and exceptions *)

Inductive jsval : Type :=
  | JUndefined
  | JNull
  | JBool (b : bool)
  | JNum (z : Z)
  | JStr (s : string).

#[global] Instance jsval_eq_dec : EqDecision jsval.
Proof. solve_decision. Defined.

(** [ToBoolean]: what [!x], [x ? a : b], [x || y] and [if (x)] look at. *)
Definition truthy (v : jsval) : bool :=
  match v with
  | JUndefined | JNull => false
  | JBool b => b
  | JNum z => negb (Z.eqb z 0)
  | JStr s => negb (String.eqb s "")
  end.

(** [a || b] *)
Definition js_or (a b : jsval) : jsval := if truthy a then a else b.

(** [a === b] on the values that occur here. *)
Definition strict_eq (a b : jsval) : bool := bool_decide (a = b).

(** Reading a property of an object: a missing key reads [undefined]. *)
Definition prop (o : gmap string jsval) (k : string) : jsval :=
  default JUndefined (o !! k).

(** [process.env.K]: every value of the environment is a string. *)
Definition env_get (env : gmap string string) (k : string) : jsval :=
  match env !! k with
  | Some s => JStr s
  | None => JUndefined
  end.

Inductive js_error : Type :=
  | Error (msg : string)
  | TypeError (msg : string)
  | RangeError (msg : string).

Inductive result (A : Type) : Type :=
  | Return (a : A)
  | Throw (e : js_error).
Arguments Return {A} a.
Arguments Throw {A} e.

#[global] Instance result_ret : MRet result := fun A a => Return a.
#[global] Instance result_bind : MBind result := fun A B k c =>
  match c with
  | Return a => k a
  | Throw e => Throw e
  end.

#[global] Instance result_fmap : FMap result := fun A B f c =>
  match c with
  | Return a => Return (f a)
  | Throw e => Throw e
  end.

(** [try { c } catch (error) { h error }] *)
Definition try_catch {A} (c : result A) (h : js_error -> A) : A :=
  match c with
  | Return a => a
  | Throw e => h e
  end.

Definition returns {A} (c : result A) : Prop := exists a, c = Return a.

(** ** Buffers and their text encodings *)

#[global] Instance byte_eq_decision : EqDecision byte := fun x y =>
  match Byte.eqb x y as b return Byte.eqb x y = b -> Decision (x = y) with
  | true => fun H => left (byte_dec_bl x y H)
  | false => fun H => right (eqb_false H)
  end eq_refl.

Definition byte_of_N (n : N) : byte :=
  default x00 (Byte.of_N (n mod 256)).

Definition byte_xor (a b : byte) : byte :=
  byte_of_N (N.lxor (Byte.to_N a) (Byte.to_N b)).

(** [Buffer.from(s, 'utf8')] and [buf.toString('utf8')] under the
    convention above.  Bytes that are not well-formed UTF-8 are no text of
    the model: where Node's decoder writes U+FFFD for them, [of_utf8]
    keeps them.  The statements below use a decoded text only where the
    bytes are those of a text that was encoded, or for whether it is
    empty. *)
Definition utf8 (s : string) : list byte := list_byte_of_string s.
Definition of_utf8 (bs : list byte) : string := string_of_list_byte bs.

(** The UTF-16 code units of a string.  [s.length] counts them, and
    Node's hexadecimal and base64 decoders read a string unit by unit,
    keeping the low byte of each unit.  With a string given by its UTF-8
    bytes, the units are those of the code points the bytes encode
    (RFC 3629): one unit below 2^16, a surrogate pair from there on. *)
Module Utf16.

(** The six payload bits of a continuation byte. *)
Definition continuation (c : ascii) : N := N.land (N_of_ascii c) 63.

Definition of_code_point (cp : N) : list N :=
  if (cp <? 65536)%N then [cp]
  else [(55296 + N.shiftr (cp - 65536) 10)%N;
        (56320 + N.land (cp - 65536) 1023)%N].

(** A lead byte below 128 stands for itself; one below 224 opens a
    sequence of two bytes, one below 240 of three, any other of four.
    The bytes are not checked: text that is not well-formed UTF-8 is
    outside the convention (a sequence cut short by the end of the string
    reads as U+FFFD). *)
Fixpoint code_units (s : string) : list N :=
  match s with
  | EmptyString => []
  | String a r =>
      let x := N_of_ascii a in
      if (x <? 128)%N then x :: code_units r
      else
        match r with
        | EmptyString => [65533%N]
        | String b r1 =>
            if (x <? 224)%N
            then (N.shiftl (N.land x 31) 6 + continuation b)%N :: code_units r1
            else
              match r1 with
              | EmptyString => [65533%N]
              | String c r2 =>
                  if (x <? 240)%N
                  then (N.shiftl (N.land x 15) 12
                        + N.shiftl (continuation b) 6 + continuation c)%N
                       :: code_units r2
                  else
                    match r2 with
                    | EmptyString => [65533%N]
                    | String d r3 =>
                        (of_code_point
                           (N.shiftl (N.land x 7) 18
                            + N.shiftl (continuation b) 12
                            + N.shiftl (continuation c) 6
                            + continuation d)
                         ++ code_units r3)%list
                    end
              end
        end
  end.

(** The text a decoder sees that keeps the low byte of each code unit. *)
Definition narrow (s : string) : string :=
  fold_right (fun u r => String (ascii_of_N (N.land u 255)) r) ""
    (code_units s).

(** [s.length] *)
Definition length (s : string) : nat := List.length (code_units s).

End Utf16.

Module Hex.

(** The digit of a nibble, lower case as [buf.toString('hex')] writes. *)
Definition digit (n : N) : ascii :=
  if (n <? 10)%N then ascii_of_N (48 + n) else ascii_of_N (87 + n).

(** The nibble of a digit, either case; [None] for any other character. *)
Definition unhex (c : ascii) : option N :=
  let n := N_of_ascii c in
  if ((48 <=? n) && (n <=? 57))%N then Some (n - 48)%N
  else if ((97 <=? n) && (n <=? 102))%N then Some (n - 87)%N
  else if ((65 <=? n) && (n <=? 70))%N then Some (n - 55)%N
  else None.

(** [buf.toString('hex')] *)
Fixpoint encode (bs : list byte) : string :=
  match bs with
  | [] => ""
  | b :: bs' =>
      let n := Byte.to_N b in
      String (digit (N.shiftr n 4)) (String (digit (N.land n 15)) (encode bs'))
  end.

(** Pairs of digits are decoded from the left; decoding stops, keeping
    what was decoded so far, at the first pair that is not two
    hexadecimal digits or at a trailing single character. *)
Fixpoint bytes_of_digits (s : string) : list byte :=
  match s with
  | String a (String b r) =>
      match unhex a, unhex b with
      | Some x, Some y => byte_of_N (N.lor (N.shiftl x 4) y) :: bytes_of_digits r
      | _, _ => []
      end
  | _ => []
  end.

(** [Buffer.from(s, 'hex')]: the decoder reads the code units of [s] by
    their low bytes, so that a unit such as U+0130 counts as the digit
    ['0'].  It never throws on a string. *)
Definition decode (s : string) : list byte := bytes_of_digits (Utf16.narrow s).

(** Well-formed hexadecimal text, as [toString('hex')] writes it: an even
    number of hexadecimal digits in lower case.  Equivalently, the text
    is what [encode] writes for the bytes it decodes to. *)
Definition well_formed (s : string) : bool := String.eqb (encode (decode s)) s.

End Hex.

Module Base64.

(** The character of a sextet in the standard alphabet. *)
Definition char (n : N) : ascii :=
  if (n <? 26)%N then ascii_of_N (65 + n)
  else if (n <? 52)%N then ascii_of_N (71 + n)
  else if (n <? 62)%N then ascii_of_N (n - 4)
  else if (n =? 62)%N then "+"%char
  else "/"%char.

(** The sextet of a character: the standard alphabet and the URL-safe
    one are both accepted by Node's decoder. *)
Definition unbase64 (c : ascii) : option N :=
  let n := N_of_ascii c in
  if ((65 <=? n) && (n <=? 90))%N then Some (n - 65)%N
  else if ((97 <=? n) && (n <=? 122))%N then Some (n - 71)%N
  else if ((48 <=? n) && (n <=? 57))%N then Some (n + 4)%N
  else if ((n =? 43) || (n =? 45))%N then Some 62%N
  else if ((n =? 47) || (n =? 95))%N then Some 63%N
  else None.

(** [buf.toString('base64')] and [hmac.digest('base64')]: three bytes
    give four characters, the tail is padded with ['=']. *)
Fixpoint encode (bs : list byte) : string :=
  match bs with
  | [] => ""
  | [a] =>
      let x := Byte.to_N a in
      String (char (N.shiftr x 2))
        (String (char (N.shiftl (N.land x 3) 4)) "==")
  | [a; b] =>
      let x := Byte.to_N a in
      let y := Byte.to_N b in
      String (char (N.shiftr x 2))
        (String (char (N.lor (N.shiftl (N.land x 3) 4) (N.shiftr y 4)))
           (String (char (N.shiftl (N.land y 15) 2)) "="))
  | a :: b :: c :: rest =>
      let x := Byte.to_N a in
      let y := Byte.to_N b in
      let z := Byte.to_N c in
      String (char (N.shiftr x 2))
        (String (char (N.lor (N.shiftl (N.land x 3) 4) (N.shiftr y 4)))
           (String (char (N.lor (N.shiftl (N.land y 15) 2) (N.shiftr z 6)))
              (String (char (N.land z 63)) (encode rest))))
  end.

(** The sextets Node's decoder reads from a text: characters outside
    both alphabets (white space included) are skipped, and the first
    ['='] ends the input. *)
Fixpoint sextets (s : string) : list N :=
  match s with
  | EmptyString => []
  | String c r =>
      if Ascii.eqb c "="%char then []
      else match unbase64 c with
           | Some v => v :: sextets r
           | None => sextets r
           end
  end.

(** Four sextets give three bytes; a tail of three gives two bytes, of
    two gives one byte, and a single left-over sextet gives none. *)
Fixpoint bytes_of_sextets (l : list N) : list byte :=
  match l with
  | a :: b :: c :: d :: r =>
      byte_of_N (N.lor (N.shiftl a 2) (N.shiftr b 4))
      :: byte_of_N (N.lor (N.shiftl (N.land b 15) 4) (N.shiftr c 2))
      :: byte_of_N (N.lor (N.shiftl (N.land c 3) 6) d)
      :: bytes_of_sextets r
  | [a; b; c] =>
      [byte_of_N (N.lor (N.shiftl a 2) (N.shiftr b 4));
       byte_of_N (N.lor (N.shiftl (N.land b 15) 4) (N.shiftr c 2))]
  | [a; b] => [byte_of_N (N.lor (N.shiftl a 2) (N.shiftr b 4))]
  | _ => []
  end.

(** [Buffer.from(s, 'base64')] on a string: the decoder reads the code
    units of [s] by their low bytes.  It never throws. *)
Definition decode (s : string) : list byte :=
  bytes_of_sextets (sextets (Utf16.narrow s)).

(** Strict well-formedness in the sense of RFC 4648, section 4: only
    characters of the standard alphabet, a length that is a multiple of
    four, padding only at the end and no stray bits.  Equivalently, the
    string is what [encode] writes for the bytes it decodes to. *)
Definition well_formed (s : string) : bool :=
  String.eqb (encode (decode s)) s.

End Base64.

(** [Buffer.from(v, 'base64')]: a [TypeError] unless [v] is a string. *)
Definition Buffer_from_base64 (v : jsval) : result (list byte) :=
  match v with
  | JStr s => Return (Base64.decode s)
  | _ => Throw (TypeError "The first argument must be of type string")
  end.

(** [crypto.timingSafeEqual(a, b)]: a [RangeError] when the byte lengths
    differ, otherwise whether the contents are equal. *)
Definition timingSafeEqual (a b : list byte) : result bool :=
  if Nat.eqb (length a) (length b)
  then Return (bool_decide (a = b))
  else Throw (RangeError "Input buffers must have the same byte length").

(** ** JavaScript strings: the few operations the code uses *)

(** [`${v}`] and [String(v)].  [JNum] stands for the integral numbers whose
    decimal expansion JavaScript prints without an exponent. *)
Definition ToString (v : jsval) : string :=
  match v with
  | JUndefined => "undefined"
  | JNull => "null"
  | JBool true => "true"
  | JBool false => "false"
  | JNum z => NilZero.string_of_int (Z.to_int z)
  | JStr s => s
  end.

(** The line feed that [\n] denotes in a JavaScript literal. *)
Definition LF : string := String (ascii_of_N 10) "".

(** [s.includes(c)] for a one-character [c]. *)
Fixpoint includes (c : ascii) (s : string) : bool :=
  match s with
  | EmptyString => false
  | String a r => Ascii.eqb a c || includes c r
  end.

(** [s.split(c)] for a one-character separator [c]: never empty. *)
Fixpoint split (c : ascii) (s : string) : list string :=
  match s with
  | EmptyString => [""]
  | String a r =>
      if Ascii.eqb a c then "" :: split c r
      else match split c r with
           | h :: t => String a h :: t
           | [] => [String a ""]
           end
  end.

(** [parts.join(c)] *)
Definition join (c : ascii) (parts : list string) : string :=
  String.concat (String c "") parts.

(** ** The primitives of Node's [crypto] module

    The code reaches SHA-256 and AES-256 through an interface, with the
    laws it relies on: the digest has 32 bytes, and under a 32-byte key
    the block decryption inverts the block encryption on 16-byte blocks.
    HMAC, CBC chaining and PKCS#7 padding are written out on top of the
    interface; SHA-256 (FIPS 180-4) and AES-256 (FIPS 197) are written out
    below and shown further down to satisfy it. *)

Class CryptoLib : Type := {
  sha256 : list byte -> list byte;
  aes256_encrypt_block : list byte -> list byte -> list byte;
  aes256_decrypt_block : list byte -> list byte -> list byte;
  sha256_length : forall m, length (sha256 m) = 32;
  aes256_encrypt_block_length : forall k b,
    length k = 32 -> length b = 16 -> length (aes256_encrypt_block k b) = 16;
  aes256_decrypt_encrypt_block : forall k b,
    length k = 32 -> length b = 16 ->
    aes256_decrypt_block k (aes256_encrypt_block k b) = b;
}.

(** An entropy source: [crypto.randomBytes(n)] draws the next [n] bytes. *)
Definition rng : Type := nat -> byte.

Definition randomBytes (n : nat) (g : rng) : list byte * rng :=
  (map g (seq 0 n), fun i => g (n + i)).

Definition xor_bytes (a b : list byte) : list byte := zip_with byte_xor a b.

Section Primitives.
Context `{CryptoLib}.

(** HMAC over SHA-256 (RFC 2104, 64-byte blocks), the result of
    [crypto.createHmac('sha256', key).update(msg).digest()]. *)
Definition hmac_key_block (key : list byte) : list byte :=
  let k := if (64 <? length key)%nat then sha256 key else key in
  k ++ replicate (64 - length k) x00.

Definition hmac_sha256 (key msg : list byte) : list byte :=
  let kb := hmac_key_block key in
  sha256 (map (byte_xor x5c) kb ++ sha256 (map (byte_xor x36) kb ++ msg)).

(** PKCS#7: [p] bytes of value [p] are appended, [1 <= p <= 16]. *)
Definition pkcs7_pad (m : list byte) : list byte :=
  let p := 16 - length m mod 16 in
  m ++ replicate p (byte_of_N (N.of_nat p)).

Definition pkcs7_unpad (m : list byte) : option (list byte) :=
  match last m with
  | None => None
  | Some b =>
      let p := N.to_nat (Byte.to_N b) in
      if ((1 <=? p) && (p <=? 16) && (p <=? length m))%nat
         && bool_decide (drop (length m - p) m = replicate p b)
      then Some (take (length m - p) m)
      else None
  end.

(** CBC chaining over [n] blocks of 16 bytes; [prev] is the IV for the
    first block and the previous ciphertext block afterwards. *)
Fixpoint cbc_encrypt (n : nat) (key prev m : list byte) : list byte :=
  match n with
  | O => []
  | S n' =>
      let c := aes256_encrypt_block key (xor_bytes (take 16 m) prev) in
      c ++ cbc_encrypt n' key c (drop 16 m)
  end.

Fixpoint cbc_decrypt (n : nat) (key prev c : list byte) : list byte :=
  match n with
  | O => []
  | S n' =>
      let b := take 16 c in
      xor_bytes (aes256_decrypt_block key b) prev
      ++ cbc_decrypt n' key b (drop 16 c)
  end.

(** [crypto.createCipheriv('aes-256-cbc', key, iv)] and
    [createDecipheriv] refuse a key that is not 32 bytes and an IV that
    is not 16 bytes. *)
Definition check_key_iv (key iv : list byte) : result unit :=
  if negb (length key =? 32)%nat then Throw (RangeError "Invalid key length")
  else if negb (length iv =? 16)%nat
  then Throw (TypeError "Invalid initialization vector")
  else Return ().

(** [c = createCipheriv(..); c.update(text, 'utf8', 'hex') + c.final('hex')] *)
Definition cipher_aes_256_cbc (key iv : list byte) (text : string)
  : result string :=
  _ ← check_key_iv key iv;
  let padded := pkcs7_pad (utf8 text) in
  Return (Hex.encode (cbc_encrypt (length padded / 16) key iv padded)).

(** [d = createDecipheriv(..); d.update(hex, 'hex', 'utf8') + d.final('utf8')]:
    [update] refuses a hexadecimal string of odd [length], [final] refuses
    an input that is empty or not a whole number of blocks ("wrong final
    block length") and a padding that is not PKCS#7 ("bad decrypt"). *)
Definition decipher_aes_256_cbc (key iv : list byte) (hex : string)
  : result string :=
  _ ← check_key_iv key iv;
  if Nat.odd (Utf16.length hex)
  then Throw (TypeError "The argument 'encoding' is invalid for data of odd length")
  else
    let ct := Hex.decode hex in
    if (length ct =? 0)%nat || negb (length ct mod 16 =? 0)%nat
    then Throw (Error "wrong final block length")
    else match pkcs7_unpad (cbc_decrypt (length ct / 16) key iv ct) with
         | Some p => Return (of_utf8 p)
         | None => Throw (Error "bad decrypt")
         end.

End Primitives.

(** ** SHA-256 (FIPS 180-4) *)

Module SHA256.

Definition w32 (n : N) : N := N.land n (N.ones 32).
Definition add32 (a b : N) : N := w32 (a + b).
Definition rotr (k x : N) : N := w32 (N.lor (N.shiftr x k) (N.shiftl x (32 - k))).

Definition Ch (x y z : N) : N :=
  N.lxor (N.land x y) (N.land (N.lxor x (N.ones 32)) z).
Definition Maj (x y z : N) : N :=
  N.lxor (N.lxor (N.land x y) (N.land x z)) (N.land y z).
Definition Sigma0 (x : N) : N := N.lxor (N.lxor (rotr 2 x) (rotr 13 x)) (rotr 22 x).
Definition Sigma1 (x : N) : N := N.lxor (N.lxor (rotr 6 x) (rotr 11 x)) (rotr 25 x).
Definition sigma0 (x : N) : N := N.lxor (N.lxor (rotr 7 x) (rotr 18 x)) (N.shiftr x 3).
Definition sigma1 (x : N) : N := N.lxor (N.lxor (rotr 17 x) (rotr 19 x)) (N.shiftr x 10).

(** The constants are the fractional parts of the square and cube roots
    of the first primes. *)
Definition is_prime (p : nat) : bool :=
  forallb (fun d => negb (p mod d =? 0)%nat) (seq 2 (p - 2)).

Definition primes : list N :=
  Eval vm_compute in map N.of_nat (take 64 (filter (fun p => is_prime p = true) (seq 2 400))).

Fixpoint cbrt_bits (k : nat) (r n : N) : N :=
  match k with
  | O => r
  | S k' =>
      let r' := (r + 2 ^ N.of_nat k')%N in
      cbrt_bits k' (if (r' * r' * r' <=? n)%N then r' else r) n
  end.

Definition K : list N :=
  Eval vm_compute in map (fun p => w32 (cbrt_bits 40 0 (p * 2 ^ 96))%N) primes.

Definition H0 : list N :=
  Eval vm_compute in map (fun p => w32 (N.sqrt (p * 2 ^ 64))%N) (take 8 primes).

(** Padding: the byte [0x80], zeros, and the bit length on 64 bits, to a
    whole number of 64-byte blocks. *)
Definition be_bytes (k : nat) (n : N) : list byte :=
  map (fun i => byte_of_N (N.shiftr n (8 * N.of_nat (k - 1 - i)))) (seq 0 k).

Definition pad (m : list byte) : list byte :=
  m ++ x80 :: replicate ((64 - (length m + 9) mod 64) mod 64) x00
    ++ be_bytes 8 (8 * N.of_nat (length m)).

Definition word_of (l : list byte) : N :=
  fold_left (fun acc b => (256 * acc + Byte.to_N b)%N) l 0%N.

(** The message schedule of one block, built word by word. *)
Fixpoint schedule (fuel : nat) (w : list N) : list N :=
  match fuel with
  | O => w
  | S fuel' =>
      let t := length w in
      let at_ i := nth (t - i) w 0%N in
      schedule fuel'
        (w ++ [add32 (add32 (sigma1 (at_ 2)) (at_ 7))
                 (add32 (sigma0 (at_ 15)) (at_ 16))])
  end.

Definition hash_state : Type := N * N * N * N * N * N * N * N.

Definition step (s : hash_state) (kw : N * N) : hash_state :=
  let '(a, b, c, d, e, f, g, h) := s in
  let T1 := add32 (add32 (add32 h (Sigma1 e)) (add32 (Ch e f g) kw.1)) kw.2 in
  let T2 := add32 (Sigma0 a) (Maj a b c) in
  (add32 T1 T2, a, b, c, add32 d T1, e, f, g).

Definition compress (s : hash_state) (block : list byte) : hash_state :=
  let w := schedule 48 (map (fun i => word_of (take 4 (drop (4 * i) block))) (seq 0 16)) in
  let '(a, b, c, d, e, f, g, h) := fold_left step (zip K w) s in
  let '(a0, b0, c0, d0, e0, f0, g0, h0) := s in
  (add32 a0 a, add32 b0 b, add32 c0 c, add32 d0 d,
   add32 e0 e, add32 f0 f, add32 g0 g, add32 h0 h).

Fixpoint blocks (n : nat) (s : hash_state) (m : list byte) : hash_state :=
  match n with
  | O => s
  | S n' => blocks n' (compress s (take 64 m)) (drop 64 m)
  end.

Definition initial : hash_state :=
  let h i := nth i H0 0%N in (h 0, h 1, h 2, h 3, h 4, h 5, h 6, h 7).

Definition digest (m : list byte) : list byte :=
  let p := pad m in
  let '(a, b, c, d, e, f, g, h) := blocks (length p / 64) initial p in
  be_bytes 4 a ++ be_bytes 4 b ++ be_bytes 4 c ++ be_bytes 4 d
  ++ be_bytes 4 e ++ be_bytes 4 f ++ be_bytes 4 g ++ be_bytes 4 h.

End SHA256.

(** ** AES-256 (FIPS 197) *)

Module AES.

Definition column : Type := byte * byte * byte * byte.
Definition state : Type := column * column * column * column.

(** Multiplication by [x] in GF(2^8) modulo [x^8 + x^4 + x^3 + x + 1]. *)
Definition xtime (b : byte) : byte :=
  let n := Byte.to_N b in
  byte_of_N (N.lxor (N.shiftl n 1) (if N.testbit n 7 then 27 else 0)).

(** Multiplication in GF(2^8): shift and add over the [k] low bits of [n]. *)
Fixpoint gmul_bits (k : nat) (a : byte) (n : N) : byte :=
  match k with
  | O => x00
  | S k' => byte_xor (if N.odd n then a else x00)
              (gmul_bits k' (xtime a) (N.div2 n))
  end.

Definition gmul (a b : byte) : byte := gmul_bits 8 a (Byte.to_N b).

(** The multiplicative inverse, [a^254], with [0] mapped to [0]. *)
Definition ginv (a : byte) : byte := Nat.iter 253 (gmul a) a.

Definition rotl8 (n : N) (k : N) : N :=
  N.land (N.lor (N.shiftl n k) (N.shiftr n (8 - k))) 255.

(** The affine transformation of the S-box. *)
Definition affine (b : byte) : byte :=
  let n := Byte.to_N b in
  byte_of_N
    (N.lxor n (N.lxor (rotl8 n 1) (N.lxor (rotl8 n 2)
       (N.lxor (rotl8 n 3) (N.lxor (rotl8 n 4) 99))))).

Definition all_bytes : list byte :=
  map (fun i => byte_of_N (N.of_nat i)) (seq 0 256).

Definition sbox_table : list byte :=
  Eval vm_compute in map (fun b => affine (ginv b)) all_bytes.

Definition sbox (b : byte) : byte :=
  nth (N.to_nat (Byte.to_N b)) sbox_table x00.

Definition inv_sbox_table : list byte :=
  Eval vm_compute in
    map (fun y => default x00 (find (fun x => Byte.eqb (sbox x) y) all_bytes))
      all_bytes.

Definition inv_sbox (b : byte) : byte :=
  nth (N.to_nat (Byte.to_N b)) inv_sbox_table x00.

Definition map_column (f : byte -> byte) (c : column) : column :=
  let '(a, b, c, d) := c in (f a, f b, f c, f d).

Definition map_state (f : column -> column) (s : state) : state :=
  let '(a, b, c, d) := s in (f a, f b, f c, f d).

Definition xor_column (u v : column) : column :=
  let '(a, b, c, d) := u in
  let '(a', b', c', d') := v in
  (byte_xor a a', byte_xor b b', byte_xor c c', byte_xor d d').

Definition add_round_key (k s : state) : state :=
  let '(a, b, c, d) := s in
  let '(a', b', c', d') := k in
  (xor_column a a', xor_column b b', xor_column c c', xor_column d d').

Definition sub_bytes : state -> state := map_state (map_column sbox).
Definition inv_sub_bytes : state -> state := map_state (map_column inv_sbox).

(** Row [r] of the state is rotated by [r] columns. *)
Definition shift_rows (s : state) : state :=
  let '((s00, s10, s20, s30), (s01, s11, s21, s31),
        (s02, s12, s22, s32), (s03, s13, s23, s33)) := s in
  ((s00, s11, s22, s33), (s01, s12, s23, s30),
   (s02, s13, s20, s31), (s03, s10, s21, s32)).

Definition inv_shift_rows (s : state) : state :=
  let '((s00, s10, s20, s30), (s01, s11, s21, s31),
        (s02, s12, s22, s32), (s03, s13, s23, s33)) := s in
  ((s00, s13, s22, s31), (s01, s10, s23, s32),
   (s02, s11, s20, s33), (s03, s12, s21, s30)).

Definition mix_column (c : column) : column :=
  let '(a, b, c, d) := c in
  (byte_xor (byte_xor (gmul a x02) (gmul b x03)) (byte_xor c d),
   byte_xor (byte_xor a (gmul b x02)) (byte_xor (gmul c x03) d),
   byte_xor (byte_xor a b) (byte_xor (gmul c x02) (gmul d x03)),
   byte_xor (byte_xor (gmul a x03) b) (byte_xor c (gmul d x02))).

Definition inv_mix_column (c : column) : column :=
  let '(a, b, c, d) := c in
  (byte_xor (byte_xor (gmul a x0e) (gmul b x0b)) (byte_xor (gmul c x0d) (gmul d x09)),
   byte_xor (byte_xor (gmul a x09) (gmul b x0e)) (byte_xor (gmul c x0b) (gmul d x0d)),
   byte_xor (byte_xor (gmul a x0d) (gmul b x09)) (byte_xor (gmul c x0e) (gmul d x0b)),
   byte_xor (byte_xor (gmul a x0b) (gmul b x0d)) (byte_xor (gmul c x09) (gmul d x0e))).

Definition mix_columns : state -> state := map_state mix_column.
Definition inv_mix_columns : state -> state := map_state inv_mix_column.

(** The key expansion for a 256-bit key: 60 words, of which the first 8
    are the key. *)
Definition zero_column : column := (x00, x00, x00, x00).

Definition rot_word (w : column) : column :=
  let '(a, b, c, d) := w in (b, c, d, a).

Fixpoint expand (fuel i : nat) (rcon : byte) (w : list column) : list column :=
  match fuel with
  | O => w
  | S fuel' =>
      let prev := nth (i - 1) w zero_column in
      let back := nth (i - 8) w zero_column in
      let '(temp, rcon') :=
        if (i mod 8 =? 0)%nat
        then (xor_column (map_column sbox (rot_word prev)) (rcon, x00, x00, x00),
              xtime rcon)
        else if (i mod 8 =? 4)%nat then (map_column sbox prev, rcon)
        else (prev, rcon) in
      expand fuel' (S i) rcon' (w ++ [xor_column back temp])
  end.

Definition word_at (l : list byte) (i : nat) : column :=
  (nth (4 * i) l x00, nth (4 * i + 1) l x00,
   nth (4 * i + 2) l x00, nth (4 * i + 3) l x00).

Definition state_at (w : list column) (r : nat) : state :=
  (nth (4 * r) w zero_column, nth (4 * r + 1) w zero_column,
   nth (4 * r + 2) w zero_column, nth (4 * r + 3) w zero_column).

(** The 15 round keys of a 32-byte key. *)
Definition round_keys (key : list byte) : list state :=
  let w := expand 52 8 x01 (map (word_at key) (seq 0 8)) in
  map (state_at w) (seq 0 15).

Definition state_of_bytes (l : list byte) : state :=
  (word_at l 0, word_at l 1, word_at l 2, word_at l 3).

Definition bytes_of_column (c : column) : list byte :=
  let '(a, b, c, d) := c in [a; b; c; d].

Definition bytes_of_state (s : state) : list byte :=
  let '(a, b, c, d) := s in
  bytes_of_column a ++ bytes_of_column b ++ bytes_of_column c ++ bytes_of_column d.

Definition round (s k : state) : state :=
  add_round_key k (mix_columns (shift_rows (sub_bytes s))).

Definition inv_round (s k : state) : state :=
  inv_sub_bytes (inv_shift_rows (inv_mix_columns (add_round_key k s))).

Definition zero_state : state :=
  (zero_column, zero_column, zero_column, zero_column).

(** [Cipher] and [InvCipher] over the round keys [first :: middle ++ [final]]. *)
Definition cipher (first : state) (middle : list state) (final s : state) : state :=
  add_round_key final
    (shift_rows (sub_bytes (fold_left round middle (add_round_key first s)))).

Definition inv_cipher (first : state) (middle : list state) (final s : state)
  : state :=
  add_round_key first
    (fold_left inv_round (rev middle)
       (inv_sub_bytes (inv_shift_rows (add_round_key final s)))).

Definition encrypt_block (key block : list byte) : list byte :=
  let ks := round_keys key in
  bytes_of_state
    (cipher (hd zero_state ks) (removelast (tl ks)) (List.last ks zero_state)
       (state_of_bytes block)).

Definition decrypt_block (key block : list byte) : list byte :=
  let ks := round_keys key in
  bytes_of_state
    (inv_cipher (hd zero_state ks) (removelast (tl ks)) (List.last ks zero_state)
       (state_of_bytes block)).

End AES.

(** ** [utils/crypto.js] *)

Section Crypto.
Context `{CryptoLib}.

(** [process.env]. *)
Variable env : gmap string string.

(** [generateSignature(method, path, timestamp, deviceId, userId, body,
    secretKey)]: the template literal converts each field with
    [ToString]; the key and the message are hashed as UTF-8. *)
Definition generateSignature
    (method path timestamp deviceId userId body : jsval) (secretKey : string)
  : string :=
  let message :=
    ToString method ++ LF
    ++ ToString path ++ LF
    ++ ToString timestamp ++ LF
    ++ ToString deviceId ++ LF
    ++ ToString userId ++ LF
    ++ ToString body in
  let hmac := hmac_sha256 (utf8 secretKey) (utf8 message) in
  Base64.encode hmac.

(** [verifySignature(signature, expectedSignature)] *)
Definition verifySignature (signature expectedSignature : jsval) : bool :=
  try_catch
    (a ← Buffer_from_base64 signature;
     b ← Buffer_from_base64 expectedSignature;
     timingSafeEqual a b)
    (fun error => false).

(** [process.env.DATA_ENCRYPTION_KEY || process.env.ADMIN_TOKEN] *)
Definition master_key : jsval :=
  js_or (env_get env "DATA_ENCRYPTION_KEY") (env_get env "ADMIN_TOKEN").

Definition not_configured : js_error := Error "未配置 DATA_ENCRYPTION_KEY".

(** [crypto.createHash('sha256').update(String(secretKey)).digest()] *)
Definition derive_key (secretKey : jsval) : list byte :=
  sha256 (utf8 (ToString secretKey)).

(** [encrypt(text)].  The entropy source is threaded through; a
    [cipher.update] on anything but a string is a [TypeError]. *)
Definition encrypt (text : jsval) (g : rng) : result string * rng :=
  let secretKey := master_key in
  if negb (truthy secretKey) then (Throw not_configured, g)
  else
    let key := derive_key secretKey in
    let '(iv, g') := randomBytes 16 g in
    match text with
    | JStr s =>
        (encrypted ← cipher_aes_256_cbc key iv s;
         Return (Hex.encode iv ++ ":" ++ encrypted), g')
    | _ => (Throw (TypeError "The 'data' argument must be of type string"), g')
    end.

(** [decrypt(text)].  [textParts.shift()] is the head of the list that
    [split] returns, which is never empty. *)
Definition decrypt (text : jsval) : result jsval :=
  let secretKey := master_key in
  if negb (truthy secretKey) then Throw not_configured
  else if negb (truthy text) then Return text
  else
    match text with
    | JStr s =>
        if negb (includes ":" s) then Return text
        else
          let key := derive_key secretKey in
          let textParts := split ":" s in
          let iv := Hex.decode (hd "" textParts) in
          let encryptedText := join ":" (tl textParts) in
          Return
            (try_catch
               (decrypted ← decipher_aes_256_cbc key iv encryptedText;
                Return (JStr decrypted))
               (fun error => JNull))
    | _ => Throw (TypeError "text.includes is not a function")
    end.

End Crypto.

(** The signature as the specification words it: the six fields, in the
    order method, path, timestamp, deviceId, userId, body, joined by line
    feeds; HMAC-SHA256 under the secret; base64. *)
Definition canonical_form (method path timestamp deviceId userId body : jsval)
  : string :=
  String.concat LF
    (map ToString [method; path; timestamp; deviceId; userId; body]).

Definition sign_spec `{CryptoLib}
    (method path timestamp deviceId userId body : jsval) (secret : string)
  : string :=
  Base64.encode
    (hmac_sha256 (utf8 secret)
       (utf8 (canonical_form method path timestamp deviceId userId body))).

(** ** [utils/crypto.js]: identifiers *)

(** [generateApiKey()] *)
Definition generateApiKey (g : rng) : string * rng :=
  let '(bytes, g') := randomBytes 16 g in
  let randomHex := Hex.encode bytes in
  ("api_live_" ++ randomHex, g').

(** [generateSecretKey()] *)
Definition generateSecretKey (g : rng) : string * rng :=
  let '(bytes, g') := randomBytes 32 g in
  (Hex.encode bytes, g').

(** [generateEventId()]; [now] is what [Date.now()] reads, a whole number
    of milliseconds. *)
Definition generateEventId (now : Z) (g : rng) : string * rng :=
  let timestamp := JNum now in
  let '(bytes, g') := randomBytes 4 g in
  let random := Hex.encode bytes in
  ("evt_" ++ ToString timestamp ++ "_" ++ random, g').

(** ** Regular expressions

    The two patterns of [utils/crypto.js] have the shape
    [/^ p1 p2 ... pn $/i], every [pi] a character class repeated a fixed
    number of times or a literal character, so matching needs no
    backtracking.  Without the [m] flag [$] is the end of the input.
    Under the [i] flag two characters match when [Canonicalize] maps
    them to the same character: the upper case of a letter.  On a string
    of the model (UTF-8 bytes) a byte outside ASCII is left alone, as
    [Canonicalize] never maps a character outside ASCII into ASCII. *)

Module RegExp.

(** A class [[a-b c-d]], by the end points of its ranges. *)
Definition class : Type := list (ascii * ascii).

Inductive piece : Type :=
  | Repeat (cls : class) (n : nat)
  | Char (c : ascii).

Record regexp : Type := {
  pieces : list piece;
  ignoreCase : bool;
}.

Definition member (cls : class) (c : ascii) : bool :=
  existsb
    (fun r => (N_of_ascii r.1 <=? N_of_ascii c)%N
              && (N_of_ascii c <=? N_of_ascii r.2)%N)
    cls.

Definition canonicalize (c : ascii) : ascii :=
  let n := N_of_ascii c in
  if ((97 <=? n) && (n <=? 122))%N then ascii_of_N (n - 32) else c.

Definition code_units : list ascii := map ascii_of_nat (seq 0 256).

(** Whether [c] matches the class: under [i], whether some member of the
    class has the canonical form of [c]. *)
Definition accepts (i : bool) (cls : class) (c : ascii) : bool :=
  if i
  then existsb
         (fun a => member cls a && Ascii.eqb (canonicalize a) (canonicalize c))
         code_units
  else member cls c.

Definition same_char (i : bool) (a c : ascii) : bool :=
  if i then Ascii.eqb (canonicalize a) (canonicalize c) else Ascii.eqb a c.

(** [cls{n}] at the head of [s]: what is left of [s], if it matches. *)
Fixpoint repeat (f : ascii -> bool) (n : nat) (s : string) : option string :=
  match n, s with
  | O, _ => Some s
  | S n', String c r => if f c then repeat f n' r else None
  | S _, EmptyString => None
  end.

(** The pieces in a row from the start of [s], then the end of [s]. *)
Fixpoint run (i : bool) (ps : list piece) (s : string) : bool :=
  match ps with
  | [] => String.eqb s ""
  | Repeat cls n :: ps' =>
      match repeat (accepts i cls) n s with
      | Some r => run i ps' r
      | None => false
      end
  | Char c :: ps' =>
      match s with
      | String a r => same_char i c a && run i ps' r
      | EmptyString => false
      end
  end.

(** [re.test(v)]: the argument is converted with [ToString]. *)
Definition test (re : regexp) (v : jsval) : bool :=
  run (ignoreCase re) (pieces re) (ToString v).

End RegExp.

(** ** [utils/crypto.js]: format checks *)

(** [[0-9a-f]] *)
Definition hex_class : RegExp.class := [("0", "9"); ("a", "f")]%char.

(** [/^[0-9a-f]{8}-[0-9a-f]{4}-[0-9a-f]{4}-[0-9a-f]{4}-[0-9a-f]{12}$/i] *)
Definition uuidRegex : RegExp.regexp := {|
  RegExp.pieces :=
    [RegExp.Repeat hex_class 8; RegExp.Char "-";
     RegExp.Repeat hex_class 4; RegExp.Char "-";
     RegExp.Repeat hex_class 4; RegExp.Char "-";
     RegExp.Repeat hex_class 4; RegExp.Char "-";
     RegExp.Repeat hex_class 12];
  RegExp.ignoreCase := true;
|}.

(** [isValidUUID(uuid)] *)
Definition isValidUUID (uuid : jsval) : bool := RegExp.test uuidRegex uuid.

(** [/^[0-9a-f]{32}$/i] *)
Definition userIdRegex : RegExp.regexp := {|
  RegExp.pieces := [RegExp.Repeat hex_class 32];
  RegExp.ignoreCase := true;
|}.

(** [isValidUserId(userId)] *)
Definition isValidUserId (userId : jsval) : bool := RegExp.test userIdRegex userId.

(** ** [middleware/adminAuth.js] *)

(** What the handlers read of an Express request.  Header values are
    strings; [req.body] is the object parsed by [express.json()]. *)
Record request : Type := {
  req_query : gmap string jsval;
  req_headers : gmap string string;
  req_params : gmap string jsval;
  req_body : gmap string jsval;
}.

Inductive admission : Type :=
  | Next
  | Respond (status : nat) (code : string).

(** [parts[i]] *)
Definition nth_part (parts : list string) (i : nat) : jsval :=
  match parts !! i with
  | Some s => JStr s
  | None => JUndefined
  end.

Definition requireAdminToken (env : gmap string string) (req : request) : admission :=
  let token :=
    js_or (prop (req_query req) "token") (env_get (req_headers req) "x-admin-token") in
  let authorization := env_get (req_headers req) "authorization" in
  let token :=
    if negb (truthy token) && truthy authorization then
      let parts := split " " (ToString authorization) in
      if (length parts =? 2)%nat && strict_eq (nth_part parts 0) (JStr "Bearer")
      then nth_part parts 1
      else token
    else token in
  let adminToken := env_get env "ADMIN_TOKEN" in
  if negb (truthy adminToken) then Respond 500 "ADMIN_TOKEN_NOT_CONFIGURED"
  else if truthy token && strict_eq token adminToken then Next
  else Respond 401 "UNAUTHORIZED".

(** ** The [analytics_projects] table and the statements sent to it

    A row is the object the driver returns, keyed by column name.  The
    statements are the ones written in [routes/admin.js]; a placeholder
    [$n] reads the [n]-th element of the parameter array, and the driver
    sends [undefined] as [NULL].  The schema is not part of the sources:
    its constraints are not modelled, a statement is taken to run. *)

Definition param (params : list jsval) (n : nat) : jsval :=
  match n with
  | O => JNull
  | S i =>
      match params !! i with
      | Some JUndefined | None => JNull
      | Some v => v
      end
  end.

(** [column = $n] in a [WHERE] clause: never true on [NULL]; otherwise the
    parameter, which travels as text, is compared with the column's text. *)
Definition sql_eq (column parameter : jsval) : bool :=
  match column, parameter with
  | (JNull | JUndefined), _ | _, (JNull | JUndefined) => false
  | _, _ => String.eqb (ToString column) (ToString parameter)
  end.

(** [UPDATE analytics_projects SET c1 = $n1, ... WHERE id = $k RETURNING *] *)
Record update_statement : Type := {
  set_clause : list (string * nat);
  where_id : nat;
}.

Definition assign (params : list jsval) (r : gmap string jsval)
    (cols : list (string * nat)) : gmap string jsval :=
  foldl (fun r cn => <[cn.1 := param params cn.2]> r) r cols.

Definition matches (q : update_statement) (params : list jsval)
    (r : gmap string jsval) : bool :=
  sql_eq (prop r "id") (param params (where_id q)).

(** The table after the statement, and the rows it returns. *)
Definition run_update (q : update_statement) (params : list jsval)
    (table : list (gmap string jsval))
  : list (gmap string jsval) * list (gmap string jsval) :=
  (map (fun r => if matches q params r then assign params r (set_clause q) else r)
     table,
   map (fun r => assign params r (set_clause q))
     (filter (fun r => matches q params r = true) table)).

(** [SELECT * FROM analytics_projects WHERE id = $1] *)
Definition select_by_id (id : jsval) (table : list (gmap string jsval))
  : list (gmap string jsval) :=
  filter (fun r => sql_eq (prop r "id") (param [id] 1) = true) table.

(** The statement of the branch that writes the password. *)
Definition update_with_password : update_statement := {|
  set_clause :=
    [("project_name", 1); ("db_host", 2); ("db_port", 3); ("db_name", 4);
     ("db_user", 5); ("db_password_encrypted", 6); ("table_prefix", 7);
     ("is_active", 8)];
  where_id := 9;
|}.

(** The statement of the branch that leaves the password column out. *)
Definition update_without_password : update_statement := {|
  set_clause :=
    [("project_name", 1); ("db_host", 2); ("db_port", 3); ("db_name", 4);
     ("db_user", 5); ("table_prefix", 6); ("is_active", 7)];
  where_id := 8;
|}.

(** ** [routes/admin.js] *)

(** The [database] object handed to [new Pool], [initializeProjectDatabase]
    or [checkProjectHealth]. *)
Record db_config : Type := {
  host : jsval;
  port : jsval;
  database : jsval;
  user : jsval;
  password : jsval;
}.

(** How a handler ends: a JSON response, [next(error)], or the call of the
    external collaborator with the configuration built for it. *)
Inductive outcome : Type :=
  | Json (status : nat) (data : option (gmap string jsval))
  | Failed (status : nat) (error : js_error)
  | NextError (error : js_error)
  | Denied (status : nat) (code : string)
  | TestPool (cfg : db_config)
  | InitializeProjectDatabase (cfg : db_config)
  | CheckProjectHealth (cfg : db_config).

Section Admin.
Context `{CryptoLib}.

(** [process.env]. *)
Variable env : gmap string string.

(** [PUT /projects/:id] once [requireAdminToken] has called [next()]:
    the answer, the table and the entropy source.  The call of
    [projectManager.reloadProject] it makes before answering 200 is given
    apart, by [update_project_effects] below. *)
Definition update_project (req : request) (g : rng)
    (table : list (gmap string jsval))
  : outcome * list (gmap string jsval) * rng :=
  let id := prop (req_params req) "id" in
  let project_name := prop (req_body req) "project_name" in
  let db_host := prop (req_body req) "db_host" in
  let db_port := prop (req_body req) "db_port" in
  let db_name := prop (req_body req) "db_name" in
  let db_user := prop (req_body req) "db_user" in
  let db_password := prop (req_body req) "db_password" in
  let table_prefix := prop (req_body req) "table_prefix" in
  let is_active := prop (req_body req) "is_active" in
  let '(encrypted, g') :=
    if truthy db_password
    then let '(r, g') := encrypt env db_password g in (JStr <$> r, g')
    else (Return JNull, g) in
  match encrypted with
  | Throw e => (NextError e, table, g')
  | Return encryptedPassword =>
      let '(query, params) :=
        if truthy encryptedPassword
        then (update_with_password,
              [project_name; db_host; db_port; db_name; db_user;
               encryptedPassword; table_prefix; is_active; id])
        else (update_without_password,
              [project_name; db_host; db_port; db_name; db_user;
               table_prefix; is_active; id]) in
      let '(table', rows) := run_update query params table in
      match rows with
      | r :: _ => (Json 200 (Some r), table', g')
      | [] => (Json 404 None, table', g')
      end
  end.

(** The route: [router.use(requireAdminToken)] runs first. *)
Definition PUT_project (req : request) (g : rng)
    (table : list (gmap string jsval))
  : outcome * list (gmap string jsval) * rng :=
  match requireAdminToken env req with
  | Next => update_project req g table
  | Respond status code => (Denied status code, table, g)
  end.

(** [!dbPassword && project.project_id === 'analytics-system'], the
    condition under which the three handlers below take
    [process.env.DB_PASSWORD]. *)
Definition system_fallback (dbPassword : jsval) (project : gmap string jsval)
  : bool :=
  negb (truthy dbPassword)
  && strict_eq (prop project "project_id") (JStr "analytics-system").

Definition connection (project : gmap string jsval) (dbPassword : jsval)
  : db_config := {|
  host := prop project "db_host";
  port := prop project "db_port";
  database := prop project "db_name";
  user := prop project "db_user";
  password := js_or dbPassword JUndefined;
|}.

(** [POST /projects/:id/test], from the row found to the pool it opens. *)
Definition test_config (project : gmap string jsval) : db_config :=
  let dbPassword := prop project "db_password_encrypted" in
  let dbPassword :=
    if system_fallback dbPassword project then env_get env "DB_PASSWORD"
    else dbPassword in
  connection project dbPassword.

(** [POST /projects/:id/init], from the row found to the configuration
    initialised; [decrypt] may throw. *)
Definition init_config (project : gmap string jsval) : result db_config :=
  dbPassword ←
    (if truthy (prop project "db_password_encrypted")
     then decrypt env (prop project "db_password_encrypted")
     else Return JUndefined);
  let dbPassword :=
    if system_fallback dbPassword project then env_get env "DB_PASSWORD"
    else dbPassword in
  Return (connection project dbPassword).

(** [GET /projects/:id/health], from the row found to the configuration
    checked. *)
Definition health_config (project : gmap string jsval) : db_config :=
  let dbPassword := prop project "db_password_encrypted" in
  let dbPassword :=
    if system_fallback dbPassword project then env_get env "DB_PASSWORD"
    else dbPassword in
  connection project dbPassword.

Definition POST_project_test (req : request) (table : list (gmap string jsval))
  : outcome :=
  match requireAdminToken env req with
  | Respond status code => Denied status code
  | Next =>
      match select_by_id (prop (req_params req) "id") table with
      | [] => Json 404 None
      | project :: _ => TestPool (test_config project)
      end
  end.

Definition POST_project_init (req : request) (table : list (gmap string jsval))
  : outcome :=
  match requireAdminToken env req with
  | Respond status code => Denied status code
  | Next =>
      match select_by_id (prop (req_params req) "id") table with
      | [] => Json 404 None
      | project :: _ =>
          try_catch (cfg ← init_config project;
                     Return (InitializeProjectDatabase cfg))
            (fun error => Failed 500 error)
      end
  end.

Definition GET_project_health (req : request) (table : list (gmap string jsval))
  : outcome :=
  match requireAdminToken env req with
  | Respond status code => Denied status code
  | Next =>
      match select_by_id (prop (req_params req) "id") table with
      | [] => Json 404 None
      | project :: _ => CheckProjectHealth (health_config project)
      end
  end.

End Admin.

(** ** [routes/admin.js]: creating and deleting projects *)

(** The calls a handler makes on [projectManager] and [dbManager]; they
    are recorded in the order made and taken to return. *)
Inductive effect : Type :=
  | ReloadProject (project_id : jsval)
  | ClosePool (project_id : jsval).

(** [INSERT INTO analytics_projects (c1, ..., cn) VALUES ($1, ..., $n)
    RETURNING *]: the new row holds the parameters in the columns listed
    and, in the others, what the database fills in itself ([generated]:
    the serial [id], the defaults, the time stamps).  As for the updates,
    the constraints of the schema are not modelled: the statement is
    taken to run. *)
Definition insert_columns : list (string * nat) :=
  [("project_id", 1); ("project_name", 2); ("db_host", 3); ("db_port", 4);
   ("db_name", 5); ("db_user", 6); ("db_password_encrypted", 7);
   ("table_prefix", 8)].

Definition run_insert (cols : list (string * nat)) (params : list jsval)
    (generated : gmap string jsval) (table : list (gmap string jsval))
  : list (gmap string jsval) * list (gmap string jsval) :=
  let r := assign params generated cols in
  ((table ++ [r])%list, [r]).

(** [DELETE FROM analytics_projects WHERE id = $1 RETURNING project_id]:
    the table without the rows matched, and their [project_id]s. *)
Definition run_delete (id : jsval) (table : list (gmap string jsval))
  : list (gmap string jsval) * list (gmap string jsval) :=
  (filter (fun r => sql_eq (prop r "id") (param [id] 1) = false) table,
   map (fun r => <["project_id" := default JNull (r !! "project_id")]> ∅)
     (filter (fun r => sql_eq (prop r "id") (param [id] 1) = true) table)).

Section Projects.
Context `{CryptoLib}.

(** [process.env]. *)
Variable env : gmap string string.

(** [POST /projects] once [requireAdminToken] has called [next()]. *)
Definition create_project (req : request) (g : rng)
    (generated : gmap string jsval) (table : list (gmap string jsval))
  : outcome * list (gmap string jsval) * rng * list effect :=
  let project_id := prop (req_body req) "project_id" in
  let project_name := prop (req_body req) "project_name" in
  let db_host := prop (req_body req) "db_host" in
  let db_port := prop (req_body req) "db_port" in
  let db_name := prop (req_body req) "db_name" in
  let db_user := prop (req_body req) "db_user" in
  let db_password := prop (req_body req) "db_password" in
  let table_prefix := prop (req_body req) "table_prefix" in
  let '(encrypted, g') :=
    if truthy db_password
    then let '(r, g') := encrypt env db_password g in (JStr <$> r, g')
    else (Return JNull, g) in
  match encrypted with
  | Throw e => (NextError e, table, g', [])
  | Return encryptedPassword =>
      let '(table', rows) :=
        run_insert insert_columns
          [project_id; project_name; db_host; js_or db_port (JNum 5432);
           db_name; db_user; encryptedPassword;
           js_or table_prefix (JStr "analytics_")]
          generated table in
      (Json 201 (head rows), table', g', [ReloadProject project_id])
  end.

(** The route: [router.use(requireAdminToken)] runs first. *)
Definition POST_project (req : request) (g : rng)
    (generated : gmap string jsval) (table : list (gmap string jsval))
  : outcome * list (gmap string jsval) * rng * list effect :=
  match requireAdminToken env req with
  | Next => create_project req g generated table
  | Respond status code => (Denied status code, table, g, [])
  end.

(** [DELETE /projects/:id] once [requireAdminToken] has called [next()]. *)
Definition delete_project (req : request) (table : list (gmap string jsval))
  : outcome * list (gmap string jsval) * list effect :=
  let id := prop (req_params req) "id" in
  let '(table', rows) := run_delete id table in
  match rows with
  | r :: _ =>
      let projectId := prop r "project_id" in
      (Json 200 None, table', [ClosePool projectId])
  | [] => (Json 404 None, table', [])
  end.

Definition DELETE_project (req : request) (table : list (gmap string jsval))
  : outcome * list (gmap string jsval) * list effect :=
  match requireAdminToken env req with
  | Next => delete_project req table
  | Respond status code => (Denied status code, table, [])
  end.

(** The calls of [PUT /projects/:id]: when the statement returned a row,
    the one the handler answers with, [reloadProject] is called with the
    [project_id] of that row; otherwise nothing is called. *)
Definition update_project_effects (req : request) (g : rng)
    (table : list (gmap string jsval)) : list effect :=
  match (update_project env req g table).1.1 with
  | Json _ (Some r) => [ReloadProject (prop r "project_id")]
  | _ => []
  end.

Definition PUT_project_effects (req : request) (g : rng)
    (table : list (gmap string jsval)) : list effect :=
  match requireAdminToken env req with
  | Next => update_project_effects req g table
  | Respond status code => []
  end.

End Projects.

(** ** Notions the statements below use *)

(** Two environments that differ at most in [DB_PASSWORD]. *)
Definition same_but_DB_PASSWORD (e1 e2 : gmap string string) : Prop :=
  forall k, k <> "DB_PASSWORD" -> e1 !! k = e2 !! k.

(** [f] takes [DB_PASSWORD] at [env]: changing that variable alone
    changes what [f] builds.  This is how "the environment value is
    substituted" is read below. *)
Definition takes_DB_PASSWORD {A} (f : gmap string string -> A)
    (env : gmap string string) : Prop :=
  exists env', same_but_DB_PASSWORD env env' /\ f env' <> f env.

(** The columns every update writes from the request. *)
Definition updated_columns : list string :=
  ["project_name"; "db_host"; "db_port"; "db_name"; "db_user";
   "table_prefix"; "is_active"].

(** How an update leaves a matched row: the seven columns hold the values
    of the request body (as the driver sends them), the password column
    holds [new_password] when there is one and is untouched otherwise, and
    no other column changes. *)
Definition row_updated (body : gmap string jsval) (new_password : option jsval)
    (r r' : gmap string jsval) : Prop :=
  (forall c, c ∈ updated_columns -> r' !! c = Some (param [prop body c] 1))
  /\ r' !! "db_password_encrypted"
     = match new_password with
       | Some v => Some v
       | None => r !! "db_password_encrypted"
       end
  /\ (forall c, c ∉ updated_columns -> c <> "db_password_encrypted" ->
      r' !! c = r !! c).

(** A text of [n] hexadecimal digits, of either case. *)
Definition hex_text (n : nat) (s : string) : Prop :=
  String.length s = n /\ forall c, includes c s = true -> Hex.unhex c <> None.

(** The token [requireAdminToken] compares with [ADMIN_TOKEN]: its first
    [let] and the [if] that follows. *)
Definition presented_token (req : request) : jsval :=
  let token :=
    js_or (prop (req_query req) "token") (env_get (req_headers req) "x-admin-token") in
  let authorization := env_get (req_headers req) "authorization" in
  if negb (truthy token) && truthy authorization then
    let parts := split " " (ToString authorization) in
    if (length parts =? 2)%nat && strict_eq (nth_part parts 0) (JStr "Bearer")
    then nth_part parts 1
    else token
  else token.

(** The columns [POST /projects] writes from the request. *)
Definition inserted_columns : list string :=
  ["project_id"; "project_name"; "db_host"; "db_port"; "db_name"; "db_user";
   "db_password_encrypted"; "table_prefix"].

(** * Properties of the encodings and of the primitives *)

(** ** Bytes *)

Lemma byte_of_N_to_N (b : byte) : byte_of_N (Byte.to_N b) = b.
Proof.
  unfold byte_of_N.
  rewrite N.mod_small by (pose proof (Byte.to_N_bounded b); lia).
  now rewrite Byte.of_to_N.
Qed.

Lemma to_N_byte_of_N (n : N) : (n < 256)%N -> Byte.to_N (byte_of_N n) = n.
Proof.
  intros Hn. unfold byte_of_N. rewrite N.mod_small by exact Hn.
  destruct (Byte.of_N n) as [b|] eqn:E.
  - now apply Byte.to_of_N.
  - apply Byte.of_N_None_iff in E. lia.
Qed.

Lemma lxor_byte_bound (a b : N) :
  (a < 256)%N -> (b < 256)%N -> (N.lxor a b < 256)%N.
Proof.
  intros Ha Hb.
  destruct (N.eq_dec (N.lxor a b) 0%N) as [-> | Hx]; [lia |].
  change 256%N with (2 ^ 8)%N.
  apply N.log2_lt_pow2; [lia |].
  pose proof (N.log2_lxor a b) as Hl.
  assert (Hlog : forall x, (x < 256)%N -> (N.log2 x < 8)%N).
  { intros x Hx'. destruct (N.eq_dec x 0%N) as [-> | Hx0]; [reflexivity |].
    apply N.log2_lt_pow2; [lia | exact Hx']. }
  specialize (Hlog a Ha) as Hla. specialize (Hlog b Hb) as Hlb. lia.
Qed.

Lemma byte_xor_involutive (a b : byte) : byte_xor (byte_xor a b) b = a.
Proof.
  unfold byte_xor.
  pose proof (Byte.to_N_bounded a). pose proof (Byte.to_N_bounded b).
  rewrite to_N_byte_of_N by (apply lxor_byte_bound; lia).
  rewrite N.lxor_assoc, N.lxor_nilpotent, N.lxor_0_r.
  apply byte_of_N_to_N.
Qed.

Lemma xor_bytes_length (a b : list byte) :
  length a = length b -> length (xor_bytes a b) = length a.
Proof.
  intros Hl. unfold xor_bytes. rewrite length_zip_with. lia.
Qed.

Lemma xor_bytes_involutive (a b : list byte) :
  length a = length b -> xor_bytes (xor_bytes a b) b = a.
Proof.
  unfold xor_bytes. revert b.
  induction a as [| x a IH]; intros [| y b] Hl; simpl in *; try discriminate.
  - reflexivity.
  - rewrite byte_xor_involutive. f_equal. apply IH. lia.
Qed.

(** ** ASCII text and its code units *)

Lemma string_app_nil_r (s : string) : s ++ "" = s.
Proof.
  induction s as [| c s IH]; [reflexivity |].
  change (String c s ++ "") with (String c (s ++ "")). now rewrite IH.
Qed.

Lemma string_app_assoc (a b c : string) : (a ++ b) ++ c = a ++ (b ++ c).
Proof.
  induction a as [| x a IH]; [reflexivity |].
  change (String x a ++ b) with (String x (a ++ b)).
  change (String x (a ++ b) ++ c) with (String x ((a ++ b) ++ c)).
  change (String x a ++ (b ++ c)) with (String x (a ++ (b ++ c))).
  now rewrite IH.
Qed.

(** Whether every character of a string is below 128. *)
Fixpoint is_ascii (s : string) : bool :=
  match s with
  | EmptyString => true
  | String c r => (N_of_ascii c <? 128)%N && is_ascii r
  end.

Lemma is_ascii_app (a b : string) :
  is_ascii (a ++ b) = is_ascii a && is_ascii b.
Proof.
  induction a as [| c a IH]; [reflexivity |].
  change (String c a ++ b) with (String c (a ++ b)). cbn [is_ascii].
  now rewrite IH, andb_assoc.
Qed.

Lemma low_byte_ascii (c : ascii) : ascii_of_N (N.land (N_of_ascii c) 255) = c.
Proof.
  change 255%N with (N.ones 8). rewrite N.land_ones.
  rewrite N.mod_small by apply N_ascii_bounded. apply ascii_N_embedding.
Qed.

(** In front of an ASCII text the code units are the characters. *)
Lemma code_units_app_ascii (a b : string) :
  is_ascii a = true ->
  Utf16.code_units (a ++ b)
  = (map N_of_ascii (list_ascii_of_string a) ++ Utf16.code_units b)%list.
Proof.
  induction a as [| c a IH]; [reflexivity |].
  change (String c a ++ b) with (String c (a ++ b)).
  cbn [is_ascii]. intros [Hc Ha]%andb_true_iff.
  cbn [Utf16.code_units list_ascii_of_string map app]. cbv zeta.
  rewrite Hc. now rewrite (IH Ha).
Qed.

Lemma narrow_app_ascii (a b : string) :
  is_ascii a = true -> Utf16.narrow (a ++ b) = a ++ Utf16.narrow b.
Proof.
  intros Ha. unfold Utf16.narrow. rewrite (code_units_app_ascii a b Ha).
  rewrite fold_right_app. clear Ha.
  induction a as [| c a IH]; [reflexivity |].
  cbn [list_ascii_of_string map fold_right].
  change (String c a ++ ?t) with (String c (a ++ t)).
  now rewrite low_byte_ascii, IH.
Qed.

(** A decoder that keeps the low bytes reads an ASCII text as it is. *)
Lemma narrow_ascii (s : string) : is_ascii s = true -> Utf16.narrow s = s.
Proof.
  intros Hs. rewrite <- (string_app_nil_r s) at 1.
  rewrite (narrow_app_ascii s "" Hs). apply string_app_nil_r.
Qed.

Lemma utf16_length_app_ascii (a b : string) :
  is_ascii a = true ->
  Utf16.length (a ++ b) = String.length a + Utf16.length b.
Proof.
  intros Ha. unfold Utf16.length. rewrite (code_units_app_ascii a b Ha).
  rewrite length_app, length_map. f_equal. clear Ha.
  induction a as [| c a IH]; [reflexivity | cbn; now rewrite IH].
Qed.

Lemma utf16_length_ascii (s : string) :
  is_ascii s = true -> Utf16.length s = String.length s.
Proof.
  intros Hs. rewrite <- (string_app_nil_r s) at 1.
  rewrite (utf16_length_app_ascii s "" Hs). cbn. lia.
Qed.

(** ** Hexadecimal text *)

Lemma hex_unhex_high (b : byte) :
  Hex.unhex (Hex.digit (N.shiftr (Byte.to_N b) 4))
  = Some (N.shiftr (Byte.to_N b) 4).
Proof. destruct b; reflexivity. Qed.

Lemma hex_unhex_low (b : byte) :
  Hex.unhex (Hex.digit (N.land (Byte.to_N b) 15))
  = Some (N.land (Byte.to_N b) 15).
Proof. destruct b; reflexivity. Qed.

Lemma hex_nibbles (b : byte) :
  byte_of_N (N.lor (N.shiftl (N.shiftr (Byte.to_N b) 4) 4)
               (N.land (Byte.to_N b) 15)) = b.
Proof. destruct b; reflexivity. Qed.

Lemma hex_digit_ascii (n : N) :
  (n < 16)%N -> (N_of_ascii (Hex.digit n) <? 128)%N = true.
Proof.
  intros Hn.
  assert (Hc : In n (map N.of_nat (seq 0 16))).
  { apply in_map_iff. exists (N.to_nat n). split; [lia | apply in_seq; lia]. }
  simpl in Hc.
  repeat (destruct Hc as [<- | Hc]; [reflexivity |]). destruct Hc.
Qed.

Lemma hex_nibble_bounds (b : byte) :
  (N.shiftr (Byte.to_N b) 4 < 16)%N /\ (N.land (Byte.to_N b) 15 < 16)%N.
Proof. destruct b; split; reflexivity. Qed.

(** [toString('hex')] writes ASCII. *)
Lemma hex_encode_ascii (bs : list byte) : is_ascii (Hex.encode bs) = true.
Proof.
  induction bs as [| b bs IH]; [reflexivity |].
  destruct (hex_nibble_bounds b) as [Hh Hl].
  cbn [Hex.encode is_ascii]. cbv zeta.
  now rewrite !hex_digit_ascii, IH by assumption.
Qed.

(** The digits written for a buffer, followed by any text, decode to the
    buffer followed by what the text decodes to. *)
Lemma hex_digits_encode_app (bs : list byte) (t : string) :
  Hex.bytes_of_digits (Hex.encode bs ++ t) = (bs ++ Hex.bytes_of_digits t)%list.
Proof.
  induction bs as [| b bs IH]; [reflexivity |].
  cbn [Hex.encode]. cbv zeta.
  change (String ?x (String ?y ?r) ++ t) with (String x (String y (r ++ t))).
  cbn [Hex.bytes_of_digits].
  rewrite hex_unhex_high, hex_unhex_low, hex_nibbles, IH. reflexivity.
Qed.

Lemma hex_decode_encode_app (bs : list byte) (t : string) :
  Hex.decode (Hex.encode bs ++ t) = (bs ++ Hex.decode t)%list.
Proof.
  unfold Hex.decode.
  rewrite narrow_app_ascii by apply hex_encode_ascii.
  apply hex_digits_encode_app.
Qed.

(** Decoding what [toString('hex')] wrote gives the buffer back. *)
Lemma hex_decode_encode (bs : list byte) : Hex.decode (Hex.encode bs) = bs.
Proof.
  rewrite <- (string_app_nil_r (Hex.encode bs)).
  rewrite hex_decode_encode_app. apply app_nil_r.
Qed.

Lemma hex_encode_inj (a b : list byte) : Hex.encode a = Hex.encode b -> a = b.
Proof.
  intros E. rewrite <- (hex_decode_encode a), <- (hex_decode_encode b).
  now rewrite E.
Qed.

Lemma hex_encode_length (bs : list byte) :
  String.length (Hex.encode bs) = 2 * length bs.
Proof. induction bs as [| b bs IH]; simpl; [reflexivity | rewrite IH; lia]. Qed.

Lemma hex_digit_not_colon (n : N) : (n < 16)%N -> Ascii.eqb (Hex.digit n) ":" = false.
Proof.
  intros Hn.
  assert (Hc : In n (map N.of_nat (seq 0 16))).
  { apply in_map_iff. exists (N.to_nat n). split; [lia | apply in_seq; lia]. }
  simpl in Hc.
  repeat (destruct Hc as [<- | Hc]; [reflexivity |]). destruct Hc.
Qed.

Lemma hex_encode_no_colon (bs : list byte) : includes ":" (Hex.encode bs) = false.
Proof.
  induction bs as [| b bs IH]; [reflexivity |].
  cbn [Hex.encode includes].
  rewrite !hex_digit_not_colon, IH; [reflexivity | |].
  - change 15%N with (N.ones 4). rewrite N.land_ones.
    apply N.mod_upper_bound. discriminate.
  - pose proof (Byte.to_N_bounded b). rewrite N.shiftr_div_pow2.
    apply N.Div0.div_lt_upper_bound. simpl. lia.
Qed.

(** ** Base64 text *)

Lemma forallb_below (f : nat -> bool) (k : nat) :
  forallb f (seq 0 k) = true -> forall i, i < k -> f i = true.
Proof.
  intros Hf i Hi. rewrite forallb_forall in Hf. apply Hf, in_seq. lia.
Qed.

(** A boolean fact checked on all pairs of byte values holds of any two
    bytes. *)
Lemma on_byte_pairs (P : N -> N -> bool) :
  forallb (fun i => forallb (fun j => P (N.of_nat i) (N.of_nat j)) (seq 0 256))
    (seq 0 256) = true ->
  forall a b : byte, P (Byte.to_N a) (Byte.to_N b) = true.
Proof.
  intros Hall a b.
  pose proof (Byte.to_N_bounded a). pose proof (Byte.to_N_bounded b).
  pose proof (forallb_below _ _ Hall (N.to_nat (Byte.to_N a)) ltac:(lia)) as Ha.
  cbv beta in Ha.
  pose proof (forallb_below _ _ Ha (N.to_nat (Byte.to_N b)) ltac:(lia)) as Hb.
  cbv beta in Hb. now rewrite !N2Nat.id in Hb.
Qed.

Lemma base64_char_unbase64 (n : N) :
  (n < 64)%N ->
  Base64.unbase64 (Base64.char n) = Some n
  /\ Ascii.eqb (Base64.char n) "=" = false.
Proof.
  intros Hn.
  assert (Hc : In n (map N.of_nat (seq 0 64))).
  { apply in_map_iff. exists (N.to_nat n). split; [lia | apply in_seq; lia]. }
  cbn in Hc.
  repeat (destruct Hc as [<- | Hc]; [split; reflexivity |]). destruct Hc.
Qed.

Lemma base64_first_pair (a b : byte) :
  let x := Byte.to_N a in
  let y := Byte.to_N b in
  let s1 := N.lor (N.shiftl (N.land x 3) 4) (N.shiftr y 4) in
  (N.shiftr x 2 < 64)%N /\ (s1 < 64)%N
  /\ N.lor (N.shiftl (N.shiftr x 2) 2) (N.shiftr s1 4) = x
  /\ N.land s1 15 = N.shiftr y 4.
Proof.
  pose proof (on_byte_pairs
    (fun x y =>
       let s1 := N.lor (N.shiftl (N.land x 3) 4) (N.shiftr y 4) in
       (N.shiftr x 2 <? 64)%N && (s1 <? 64)%N
       && (N.lor (N.shiftl (N.shiftr x 2) 2) (N.shiftr s1 4) =? x)%N
       && (N.land s1 15 =? N.shiftr y 4)%N) ltac:(vm_compute; reflexivity) a b)
    as Hp.
  cbv beta zeta in Hp.
  rewrite !andb_true_iff, !N.ltb_lt, !N.eqb_eq in Hp.
  cbv zeta. tauto.
Qed.

Lemma base64_second_pair (b c : byte) :
  let y := Byte.to_N b in
  let z := Byte.to_N c in
  let s2 := N.lor (N.shiftl (N.land y 15) 2) (N.shiftr z 6) in
  (s2 < 64)%N /\ (N.land z 63 < 64)%N
  /\ N.shiftr s2 2 = N.land y 15
  /\ N.lor (N.shiftl (N.land s2 3) 6) (N.land z 63) = z.
Proof.
  pose proof (on_byte_pairs
    (fun y z =>
       let s2 := N.lor (N.shiftl (N.land y 15) 2) (N.shiftr z 6) in
       (s2 <? 64)%N && (N.land z 63 <? 64)%N
       && (N.shiftr s2 2 =? N.land y 15)%N
       && (N.lor (N.shiftl (N.land s2 3) 6) (N.land z 63) =? z)%N)
    ltac:(vm_compute; reflexivity) b c) as Hp.
  cbv beta zeta in Hp.
  rewrite !andb_true_iff, !N.ltb_lt, !N.eqb_eq in Hp.
  cbv zeta. tauto.
Qed.

Lemma base64_tails (b : byte) :
  let y := Byte.to_N b in
  N.lor (N.shiftl (N.shiftr y 4) 4) (N.land y 15) = y
  /\ (N.shiftl (N.land y 3) 4 < 64)%N
  /\ N.lor (N.shiftl (N.shiftr y 2) 2) (N.shiftr (N.shiftl (N.land y 3) 4) 4) = y
  /\ (N.shiftl (N.land y 15) 2 < 64)%N
  /\ N.shiftr (N.shiftl (N.land y 15) 2) 2 = N.land y 15.
Proof. destruct b; cbv zeta; repeat split. Qed.

Lemma base64_sextets_char (n : N) (r : string) :
  (n < 64)%N ->
  Base64.sextets (String (Base64.char n) r) = n :: Base64.sextets r.
Proof.
  intros Hn. destruct (base64_char_unbase64 n Hn) as [Hu He].
  cbn [Base64.sextets]. now rewrite He, Hu.
Qed.

Lemma base64_char_ascii (n : N) : (N_of_ascii (Base64.char n) <? 128)%N = true.
Proof.
  destruct (N.ltb_spec n 62) as [Hn | Hn].
  - assert (Hc : In n (map N.of_nat (seq 0 62))).
    { apply in_map_iff. exists (N.to_nat n). split; [lia | apply in_seq; lia]. }
    cbn in Hc.
    repeat (destruct Hc as [<- | Hc]; [reflexivity |]). destruct Hc.
  - unfold Base64.char.
    destruct (N.ltb_spec n 26); [lia |].
    destruct (N.ltb_spec n 52); [lia |].
    destruct (N.ltb_spec n 62); [lia |].
    destruct (n =? 62)%N; reflexivity.
Qed.

(** [toString('base64')] writes ASCII. *)
Lemma base64_encode_ascii (bs : list byte) : is_ascii (Base64.encode bs) = true.
Proof.
  remember (length bs) as n eqn:Hn.
  assert (Hle : length bs <= n) by lia. clear Hn. revert bs Hle.
  induction n as [| n IH]; intros bs Hle.
  - destruct bs; [reflexivity | cbn in Hle; lia].
  - destruct bs as [| a [| b [| c rest]]]; cbn [Base64.encode is_ascii];
      rewrite ?base64_char_ascii; cbn [andb]; try reflexivity.
    apply IH. cbn in Hle. lia.
Qed.

(** Decoding what [toString('base64')] wrote gives the buffer back. *)
Lemma base64_decode_encode (bs : list byte) :
  Base64.decode (Base64.encode bs) = bs.
Proof.
  unfold Base64.decode. rewrite narrow_ascii by apply base64_encode_ascii.
  remember (length bs) as n eqn:Hn.
  assert (Hle : length bs <= n) by lia. clear Hn. revert bs Hle.
  induction n as [| n IH]; intros bs Hle.
  - destruct bs; [reflexivity | cbn in Hle; lia].
  - destruct bs as [| a [| b [| c rest]]]; [reflexivity | | |].
    + destruct (base64_first_pair a a) as (H0 & _ & _ & _).
      destruct (base64_tails a) as (_ & H1 & Hx & _).
      cbn [Base64.encode] in *. cbv zeta in *.
      rewrite !base64_sextets_char by assumption.
      cbn [Base64.sextets Ascii.eqb Bool.eqb Base64.bytes_of_sextets].
      rewrite Hx. now rewrite byte_of_N_to_N.
    + destruct (base64_first_pair a b) as (H0 & H1 & Hx & Hy).
      destruct (base64_tails b) as (Hb & _ & _ & H2 & Hs).
      cbn [Base64.encode] in *. cbv zeta in *.
      rewrite !base64_sextets_char by assumption.
      cbn [Base64.sextets Ascii.eqb Bool.eqb Base64.bytes_of_sextets].
      rewrite Hx, Hy, Hs, Hb. now rewrite !byte_of_N_to_N.
    + destruct (base64_first_pair a b) as (H0 & H1 & Hx & Hy).
      destruct (base64_second_pair b c) as (H2 & H3 & Hs & Hz).
      destruct (base64_tails b) as (Hb & _).
      cbn [Base64.encode] in *. cbv zeta in *.
      rewrite !base64_sextets_char by assumption.
      cbn [Base64.bytes_of_sextets].
      rewrite Hx, Hy, Hs, Hb, Hz, !byte_of_N_to_N.
      rewrite IH; [reflexivity | cbn in Hle; lia].
Qed.

(** Node's decoders at work: truncation at a character that is not a
    hexadecimal digit, skipped white space and missing padding in base64. *)
Example hex_encode_ex : Hex.encode [x00; x1a; xff] = "001aff".
Proof. reflexivity. Qed.
Example hex_decode_trunc : Hex.decode "1ag123" = [x1a].
Proof. reflexivity. Qed.
(** Code units, and decoders that keep the low byte of each: U+0130 and
    U+0131 count as the digits ['0'] and ['1'], U+0141 as the letter
    ['A']. *)
Example code_units_ex :
  Utf16.code_units "İıa€😀" = [304; 305; 97; 8364; 55357; 56832]%N.
Proof. reflexivity. Qed.
Example hex_decode_low_bytes : Hex.decode "İı1a" = [x01; x1a].
Proof. reflexivity. Qed.
Example base64_decode_low_bytes : Base64.decode "AQIDŁQ" = [x01; x02; x03; x01].
Proof. reflexivity. Qed.
Example base64_encode_ex : Base64.encode (utf8 "Hello") = "SGVsbG8=".
Proof. reflexivity. Qed.
Example base64_decode_ex : Base64.decode "SGVsbG8=" = utf8 "Hello".
Proof. reflexivity. Qed.
Example base64_decode_ws : Base64.decode "SGVs bG8" = utf8 "Hello".
Proof. reflexivity. Qed.

(** A trailing character outside the alphabet is skipped by the decoder. *)
Lemma base64_decode_trailing_junk (s : string) :
  is_ascii s = true -> Base64.decode (s ++ "!") = Base64.decode s.
Proof.
  intros Hs. unfold Base64.decode. f_equal.
  rewrite (narrow_app_ascii s "!" Hs), (narrow_ascii s Hs).
  change (Utf16.narrow "!") with "!". clear Hs.
  induction s as [| c s IH]; [reflexivity |].
  change (String c s ++ "!") with (String c (s ++ "!")).
  cbn [Base64.sextets]. now rewrite IH.
Qed.

Lemma base64_char_not_bang (n : N) : Ascii.eqb (Base64.char n) "!" = false.
Proof.
  destruct (N.ltb_spec n 62) as [Hn | Hn].
  - assert (Hc : In n (map N.of_nat (seq 0 62))).
    { apply in_map_iff. exists (N.to_nat n). split; [lia | apply in_seq; lia]. }
    cbn in Hc.
    repeat (destruct Hc as [<- | Hc]; [reflexivity |]). destruct Hc.
  - unfold Base64.char.
    destruct (N.ltb_spec n 26); [lia |].
    destruct (N.ltb_spec n 52); [lia |].
    destruct (N.ltb_spec n 62); [lia |].
    destruct (n =? 62)%N; reflexivity.
Qed.

Lemma base64_encode_no_bang (bs : list byte) :
  includes "!" (Base64.encode bs) = false.
Proof.
  remember (length bs) as n eqn:Hn.
  assert (Hle : length bs <= n) by lia. clear Hn. revert bs Hle.
  induction n as [| n IH]; intros bs Hle.
  - destruct bs; [reflexivity | cbn in Hle; lia].
  - destruct bs as [| a [| b [| c rest]]]; cbn [Base64.encode includes];
      rewrite ?base64_char_not_bang; cbn [orb]; try reflexivity.
    apply IH. cbn in Hle. lia.
Qed.

(** ** Splitting and joining strings *)

Lemma includes_app (c : ascii) (a b : string) :
  includes c (a ++ b) = includes c a || includes c b.
Proof.
  induction a as [| x a IH]; simpl; [reflexivity |].
  rewrite IH. now rewrite orb_assoc.
Qed.

Lemma split_not_nil (c : ascii) (s : string) : split c s <> [].
Proof.
  induction s as [| a s IH]; simpl; [discriminate |].
  destruct (Ascii.eqb a c); [discriminate |].
  destruct (split c s); [contradiction | discriminate].
Qed.

Lemma split_without (c : ascii) (s : string) :
  includes c s = false -> split c s = [s].
Proof.
  induction s as [| a s IH]; simpl; [reflexivity |].
  intros Hi. apply orb_false_iff in Hi as [Ha Hs].
  rewrite Ha, (IH Hs). reflexivity.
Qed.

Lemma split_at_first (c : ascii) (h r : string) :
  includes c h = false -> split c (h ++ String c r) = h :: split c r.
Proof.
  induction h as [| a h IH]; simpl.
  - intros _. now rewrite Ascii.eqb_refl.
  - intros Hi. apply orb_false_iff in Hi as [Ha Hh].
    rewrite Ha, (IH Hh). reflexivity.
Qed.

Lemma split_head_inj (c : ascii) (h1 h2 r1 r2 : string) :
  includes c h1 = false -> includes c h2 = false ->
  h1 ++ String c r1 = h2 ++ String c r2 -> h1 = h2.
Proof.
  intros H1 H2 E. apply (f_equal (split c)) in E.
  rewrite !split_at_first in E by assumption. now injection E.
Qed.

(** [s.split(c).join(c)] is [s]. *)
Lemma join_split (c : ascii) (s : string) : join c (split c s) = s.
Proof.
  unfold join. induction s as [| a s IH]; [reflexivity |].
  cbn [split]. destruct (Ascii.eqb_spec a c) as [-> | Hne].
  - pose proof (split_not_nil c s) as Hn.
    destruct (split c s) as [| h t]; [contradiction |].
    cbn [String.concat]. cbn [String.concat] in IH.
    now rewrite <- IH.
  - pose proof (split_not_nil c s) as Hn.
    destruct (split c s) as [| h t]; [contradiction |].
    destruct t as [| h' t]; cbn [String.concat] in *; now rewrite <- IH.
Qed.

(** ** PKCS#7 padding and CBC chaining *)

Section PrimitiveLaws.
Context `{CryptoLib}.

Lemma pkcs7_pad_length (m : list byte) :
  length (pkcs7_pad m) = 16 * (length m / 16 + 1).
Proof.
  unfold pkcs7_pad. rewrite length_app, length_replicate.
  pose proof (Nat.div_mod_eq (length m) 16).
  pose proof (Nat.mod_upper_bound (length m) 16). lia.
Qed.

Lemma pkcs7_unpad_pad (m : list byte) : pkcs7_unpad (pkcs7_pad m) = Some m.
Proof.
  unfold pkcs7_unpad, pkcs7_pad.
  pose proof (Nat.mod_upper_bound (length m) 16 ltac:(lia)) as Hm.
  set (p := 16 - length m mod 16).
  assert (Hp : 1 <= p <= 16) by (unfold p; lia).
  assert (Hb : N.to_nat (Byte.to_N (byte_of_N (N.of_nat p))) = p).
  { rewrite to_N_byte_of_N by lia. lia. }
  assert (Hlast : last (m ++ replicate p (byte_of_N (N.of_nat p)))
                  = Some (byte_of_N (N.of_nat p))).
  { destruct p as [| p']; [lia |].
    rewrite replicate_S_end, app_assoc. apply last_snoc. }
  rewrite Hlast, Hb, length_app, length_replicate.
  replace (length m + p - p) with (length m) by lia.
  rewrite drop_app_length, take_app_length.
  rewrite bool_decide_true by reflexivity.
  destruct (Nat.leb_spec 1 p); [| lia].
  destruct (Nat.leb_spec p 16); [| lia].
  destruct (Nat.leb_spec p (length m + p)); [| lia].
  reflexivity.
Qed.

Lemma cbc_encrypt_length (n : nat) (key prev m : list byte) :
  length key = 32 -> length prev = 16 -> length m = 16 * n ->
  length (cbc_encrypt n key prev m) = 16 * n.
Proof.
  revert prev m. induction n as [| n IH]; intros prev m Hk Hp Hm; [reflexivity |].
  cbn [cbc_encrypt]. rewrite length_app.
  assert (Hc : length (aes256_encrypt_block key (xor_bytes (take 16 m) prev)) = 16).
  { apply aes256_encrypt_block_length; [exact Hk |].
    rewrite xor_bytes_length; rewrite length_take; lia. }
  rewrite Hc, IH; [lia | exact Hk | exact Hc |].
  rewrite length_drop. lia.
Qed.

(** CBC decryption undoes CBC encryption, block by block. *)
Lemma cbc_decrypt_encrypt (n : nat) (key prev m : list byte) :
  length key = 32 -> length prev = 16 -> length m = 16 * n ->
  cbc_decrypt n key prev (cbc_encrypt n key prev m) = m.
Proof.
  revert prev m. induction n as [| n IH]; intros prev m Hk Hp Hm.
  - destruct m; [reflexivity | discriminate].
  - cbn [cbc_encrypt cbc_decrypt].
    assert (Ht : length (take 16 m) = 16) by (rewrite length_take; lia).
    assert (Hx : length (xor_bytes (take 16 m) prev) = 16)
      by (rewrite xor_bytes_length; lia).
    pose proof (aes256_encrypt_block_length key _ Hk Hx) as Hc.
    set (c := aes256_encrypt_block key (xor_bytes (take 16 m) prev)) in *.
    replace (take 16 (c ++ cbc_encrypt n key c (drop 16 m))) with c
      by (symmetry; apply take_app_length'; now rewrite Hc).
    replace (drop 16 (c ++ cbc_encrypt n key c (drop 16 m)))
      with (cbc_encrypt n key c (drop 16 m))
      by (symmetry; apply drop_app_length'; now rewrite Hc).
    unfold c at 1. rewrite aes256_decrypt_encrypt_block by assumption.
    rewrite xor_bytes_involutive by lia.
    rewrite IH; [apply take_drop | exact Hk | exact Hc |].
    rewrite length_drop. lia.
Qed.

End PrimitiveLaws.

(** ** AES-256: decryption inverts encryption *)

Lemma byte_xor_comm (a b : byte) : byte_xor a b = byte_xor b a.
Proof. unfold byte_xor. now rewrite N.lxor_comm. Qed.

Lemma byte_xor_assoc (a b c : byte) :
  byte_xor a (byte_xor b c) = byte_xor (byte_xor a b) c.
Proof.
  unfold byte_xor.
  pose proof (Byte.to_N_bounded a). pose proof (Byte.to_N_bounded b).
  pose proof (Byte.to_N_bounded c).
  rewrite !to_N_byte_of_N by (apply lxor_byte_bound; lia).
  now rewrite N.lxor_assoc.
Qed.

Lemma byte_xor_0_r (a : byte) : byte_xor a x00 = a.
Proof. unfold byte_xor. cbn [Byte.to_N]. rewrite N.lxor_0_r. apply byte_of_N_to_N. Qed.

Lemma byte_xor_0_l (a : byte) : byte_xor x00 a = a.
Proof. rewrite byte_xor_comm. apply byte_xor_0_r. Qed.

(** [(a + b) + (c + d) = (a + c) + (b + d)] *)
Lemma byte_xor_swap (a b c d : byte) :
  byte_xor (byte_xor a b) (byte_xor c d) = byte_xor (byte_xor a c) (byte_xor b d).
Proof.
  rewrite <- (byte_xor_assoc a b), (byte_xor_assoc b c d), (byte_xor_comm b c).
  now rewrite <- (byte_xor_assoc c b d), (byte_xor_assoc a c).
Qed.

Lemma byte_xor_sum4 (p p' q q' r r' s s' : byte) :
  byte_xor (byte_xor (byte_xor p p') (byte_xor q q'))
    (byte_xor (byte_xor r r') (byte_xor s s'))
  = byte_xor (byte_xor (byte_xor p q) (byte_xor r s))
      (byte_xor (byte_xor p' q') (byte_xor r' s')).
Proof.
  rewrite (byte_xor_swap p p' q q'), (byte_xor_swap r r' s s').
  apply byte_xor_swap.
Qed.

(** A boolean fact checked on all pairs of bytes holds of any two bytes. *)
Lemma on_bytes (P : byte -> byte -> bool) :
  forallb (fun i => forallb (fun j => P (byte_of_N (N.of_nat i)) (byte_of_N (N.of_nat j)))
                      (seq 0 256)) (seq 0 256) = true ->
  forall a b : byte, P a b = true.
Proof.
  intros Hall a b.
  pose proof (on_byte_pairs (fun x y => P (byte_of_N x) (byte_of_N y)) Hall a b) as Hp.
  cbv beta in Hp. now rewrite !byte_of_N_to_N in Hp.
Qed.

Lemma xtime_linear (a b : byte) :
  AES.xtime (byte_xor a b) = byte_xor (AES.xtime a) (AES.xtime b).
Proof.
  apply byte_dec_bl.
  apply (on_bytes (fun a b => Byte.eqb (AES.xtime (byte_xor a b))
                                (byte_xor (AES.xtime a) (AES.xtime b)))).
  vm_compute. reflexivity.
Qed.

Lemma gmul_bits_linear (k : nat) (a b : byte) (n : N) :
  AES.gmul_bits k (byte_xor a b) n
  = byte_xor (AES.gmul_bits k a n) (AES.gmul_bits k b n).
Proof.
  revert a b n. induction k as [| k IH]; intros a b n; cbn [AES.gmul_bits].
  - symmetry. apply byte_xor_0_r.
  - rewrite xtime_linear, IH, <- byte_xor_swap.
    destruct (N.odd n); [reflexivity | now rewrite byte_xor_0_r].
Qed.

Lemma gmul_linear (a b c : byte) :
  AES.gmul (byte_xor a b) c = byte_xor (AES.gmul a c) (AES.gmul b c).
Proof. apply gmul_bits_linear. Qed.

Lemma xor_column_zero_r (u : AES.column) : AES.xor_column u AES.zero_column = u.
Proof. destruct u as [[[a b] c] d]. cbn. now rewrite !byte_xor_0_r. Qed.

Lemma mix_column_linear (u v : AES.column) :
  AES.mix_column (AES.xor_column u v)
  = AES.xor_column (AES.mix_column u) (AES.mix_column v).
Proof.
  destruct u as [[[a b] c] d], v as [[[a' b'] c'] d'].
  cbn [AES.mix_column AES.xor_column].
  rewrite !gmul_linear.
  f_equal; [f_equal; [f_equal |] |]; apply byte_xor_sum4.
Qed.

Lemma inv_mix_column_linear (u v : AES.column) :
  AES.inv_mix_column (AES.xor_column u v)
  = AES.xor_column (AES.inv_mix_column u) (AES.inv_mix_column v).
Proof.
  destruct u as [[[a b] c] d], v as [[[a' b'] c'] d'].
  cbn [AES.inv_mix_column AES.xor_column].
  rewrite !gmul_linear.
  f_equal; [f_equal; [f_equal |] |]; apply byte_xor_sum4.
Qed.

(** On the four coordinate axes the two column maps are inverse. *)
Lemma inv_mix_column_axes (a : byte) :
  AES.inv_mix_column (AES.mix_column (a, x00, x00, x00)) = (a, x00, x00, x00)
  /\ AES.inv_mix_column (AES.mix_column (x00, a, x00, x00)) = (x00, a, x00, x00)
  /\ AES.inv_mix_column (AES.mix_column (x00, x00, a, x00)) = (x00, x00, a, x00)
  /\ AES.inv_mix_column (AES.mix_column (x00, x00, x00, a)) = (x00, x00, x00, a).
Proof. destruct a; vm_compute; repeat split. Qed.

Lemma inv_mix_column_mix_column (u : AES.column) :
  AES.inv_mix_column (AES.mix_column u) = u.
Proof.
  destruct u as [[[a b] c] d].
  assert (E : (a, b, c, d)
              = AES.xor_column
                  (AES.xor_column (a, x00, x00, x00) (x00, b, x00, x00))
                  (AES.xor_column (x00, x00, c, x00) (x00, x00, x00, d))).
  { cbn. now rewrite !byte_xor_0_r, !byte_xor_0_l. }
  rewrite E at 1.
  rewrite !mix_column_linear, !inv_mix_column_linear.
  destruct (inv_mix_column_axes a) as (-> & _).
  destruct (inv_mix_column_axes b) as (_ & -> & _).
  destruct (inv_mix_column_axes c) as (_ & _ & -> & _).
  destruct (inv_mix_column_axes d) as (_ & _ & _ & ->).
  now rewrite <- E.
Qed.

Lemma inv_sbox_sbox (b : byte) : AES.inv_sbox (AES.sbox b) = b.
Proof. destruct b; vm_compute; reflexivity. Qed.

Lemma inv_sub_bytes_sub_bytes (s : AES.state) :
  AES.inv_sub_bytes (AES.sub_bytes s) = s.
Proof.
  destruct s as [[[[[[a0 a1] a2] a3] [[[b0 b1] b2] b3]] [[[c0 c1] c2] c3]]
                   [[[d0 d1] d2] d3]].
  unfold AES.inv_sub_bytes, AES.sub_bytes.
  cbn [AES.map_state AES.map_column]. now rewrite !inv_sbox_sbox.
Qed.

Lemma inv_shift_rows_shift_rows (s : AES.state) :
  AES.inv_shift_rows (AES.shift_rows s) = s.
Proof.
  destruct s as [[[[[[a0 a1] a2] a3] [[[b0 b1] b2] b3]] [[[c0 c1] c2] c3]]
                   [[[d0 d1] d2] d3]].
  reflexivity.
Qed.

Lemma inv_mix_columns_mix_columns (s : AES.state) :
  AES.inv_mix_columns (AES.mix_columns s) = s.
Proof.
  destruct s as [[[a b] c] d]. unfold AES.inv_mix_columns, AES.mix_columns.
  cbn [AES.map_state]. now rewrite !inv_mix_column_mix_column.
Qed.

Lemma add_round_key_involutive (k s : AES.state) :
  AES.add_round_key k (AES.add_round_key k s) = s.
Proof.
  destruct s as [[[a b] c] d], k as [[[a' b'] c'] d'].
  cbn [AES.add_round_key].
  assert (Hc : forall u v, AES.xor_column (AES.xor_column u v) v = u).
  { intros [[[x0 x1] x2] x3] [[[y0 y1] y2] y3]. cbn.
    now rewrite !byte_xor_involutive. }
  now rewrite !Hc.
Qed.

Lemma inv_round_round (s k : AES.state) : AES.inv_round (AES.round s k) k = s.
Proof.
  unfold AES.inv_round, AES.round.
  rewrite add_round_key_involutive, inv_mix_columns_mix_columns,
    inv_shift_rows_shift_rows. apply inv_sub_bytes_sub_bytes.
Qed.

Lemma inv_rounds_rounds (middle : list AES.state) (s : AES.state) :
  fold_left AES.inv_round (rev middle) (fold_left AES.round middle s) = s.
Proof.
  revert s. induction middle as [| k middle IH]; intros s; [reflexivity |].
  cbn [fold_left rev]. rewrite fold_left_app. cbn [fold_left].
  rewrite IH. apply inv_round_round.
Qed.

Lemma inv_cipher_cipher (first : AES.state) (middle : list AES.state)
    (final s : AES.state) :
  AES.inv_cipher first middle final (AES.cipher first middle final s) = s.
Proof.
  unfold AES.inv_cipher, AES.cipher.
  rewrite add_round_key_involutive, inv_shift_rows_shift_rows,
    inv_sub_bytes_sub_bytes, inv_rounds_rounds.
  apply add_round_key_involutive.
Qed.

Lemma state_of_bytes_of_state (s : AES.state) :
  AES.state_of_bytes (AES.bytes_of_state s) = s.
Proof.
  destruct s as [[[[[[a0 a1] a2] a3] [[[b0 b1] b2] b3]] [[[c0 c1] c2] c3]]
                   [[[d0 d1] d2] d3]].
  reflexivity.
Qed.

Lemma bytes_of_state_length (s : AES.state) : length (AES.bytes_of_state s) = 16.
Proof.
  destruct s as [[[[[[a0 a1] a2] a3] [[[b0 b1] b2] b3]] [[[c0 c1] c2] c3]]
                   [[[d0 d1] d2] d3]].
  reflexivity.
Qed.

Lemma bytes_of_state_of_bytes (l : list byte) :
  length l = 16 -> AES.bytes_of_state (AES.state_of_bytes l) = l.
Proof.
  intros Hl.
  do 16 (destruct l as [| ? l]; [discriminate Hl |]).
  destruct l; [reflexivity | discriminate Hl].
Qed.

(** AES-256 block decryption inverts block encryption. *)
Lemma aes256_decrypt_encrypt (key block : list byte) :
  length block = 16 ->
  AES.decrypt_block key (AES.encrypt_block key block) = block.
Proof.
  intros Hb. unfold AES.decrypt_block, AES.encrypt_block.
  rewrite state_of_bytes_of_state, inv_cipher_cipher.
  now apply bytes_of_state_of_bytes.
Qed.

Lemma aes256_encrypt_length (key block : list byte) :
  length (AES.encrypt_block key block) = 16.
Proof. apply bytes_of_state_length. Qed.

Example aes_sbox_values :
  AES.sbox x00 = x63 /\ AES.sbox x53 = xed /\ AES.inv_sbox xed = x53.
Proof. repeat split. Qed.

(** FIPS 197, appendix C.3. *)
Example aes256_fips197 :
  Hex.encode
    (AES.encrypt_block
       (Hex.decode "000102030405060708090a0b0c0d0e0f101112131415161718191a1b1c1d1e1f")
       (Hex.decode "00112233445566778899aabbccddeeff"))
  = "8ea2b7ca516745bfeafc49904b496089".
Proof. vm_compute. reflexivity. Qed.

(** ** SHA-256: the digest has 32 bytes *)

(** FIPS 180-4 examples. *)
Example sha256_abc :
  Hex.encode (SHA256.digest (utf8 "abc"))
  = "ba7816bf8f01cfea414140de5dae2223b00361a396177a9cb410ff61f20015ad".
Proof. vm_compute. reflexivity. Qed.

Example sha256_empty :
  Hex.encode (SHA256.digest [])
  = "e3b0c44298fc1c149afbf4c8996fb92427ae41e4649b934ca495991b7852b855".
Proof. vm_compute. reflexivity. Qed.

Example sha256_two_blocks :
  Hex.encode (SHA256.digest
    (utf8 "abcdbcdecdefdefgefghfghighijhijkijkljklmklmnlmnomnopnopq"))
  = "248d6a61d20638b8e5c026930c3e6039a33ce45964ff2167f6ecedd419db06c1".
Proof. vm_compute. reflexivity. Qed.

Lemma sha256_digest_length (m : list byte) : length (SHA256.digest m) = 32.
Proof.
  unfold SHA256.digest.
  destruct (SHA256.blocks _ _ _) as [[[[[[[a b] c] d] e] f] g] h].
  reflexivity.
Qed.

(** ** The interface, met by SHA-256 and AES-256 *)

#[global] Instance node_crypto : CryptoLib := {|
  sha256 := SHA256.digest;
  aes256_encrypt_block := AES.encrypt_block;
  aes256_decrypt_block := AES.decrypt_block;
  sha256_length := sha256_digest_length;
  aes256_encrypt_block_length := fun k b _ _ => aes256_encrypt_length k b;
  aes256_decrypt_encrypt_block := fun k b _ Hb => aes256_decrypt_encrypt k b Hb;
|}.

(** RFC 4231, test case 2. *)
Example hmac_sha256_rfc4231 :
  Hex.encode (hmac_sha256 (utf8 "Jefe") (utf8 "what do ya want for nothing?"))
  = "5bdcc146bf60754e6a042426089575c75a003f089d2739839dec58b964ec3843".
Proof. vm_compute. reflexivity. Qed.

(** NIST SP 800-38A, F.2.5 (CBC-AES256), the first two blocks. *)
Example cbc_aes256_sp800_38a :
  Hex.encode
    (cbc_encrypt 2
       (Hex.decode "603deb1015ca71be2b73aef0857d77811f352c073b6108d72d9810a30914dff4")
       (Hex.decode "000102030405060708090a0b0c0d0e0f")
       (Hex.decode "6bc1bee22e409f96e93d7e117393172aae2d8a571e03ac9c9eb76fac45af8e51"))
  = "f58c4c04d6e5f1ba779eabfb5f7bfbd69cfc4e967edb808d679f777bc6702c7d".
Proof. vm_compute. reflexivity. Qed.

(** ** [encrypt] and [decrypt] *)

Section CryptoLaws.
Context `{CryptoLib}.
Variable env : gmap string string.

Lemma includes_truthy (c : ascii) (s : string) :
  includes c s = true -> truthy (JStr s) = true.
Proof. destruct s; [discriminate | reflexivity]. Qed.

Lemma randomBytes_length (n : nat) (g : rng) : length (randomBytes n g).1 = n.
Proof. unfold randomBytes. cbn [fst]. now rewrite length_map, length_seq. Qed.

Lemma derive_key_length (k : jsval) : length (derive_key k) = 32.
Proof. apply sha256_length. Qed.

Lemma check_key_iv_ok (key iv : list byte) :
  length key = 32 -> length iv = 16 -> check_key_iv key iv = Return ().
Proof. intros Hk Hi. unfold check_key_iv. now rewrite Hk, Hi. Qed.

(** What [encrypt] returns under a configured key: the 16 bytes drawn, in
    hexadecimal, a colon, and the CBC ciphertext of the padded text. *)
Lemma encrypt_returns (x : string) (g : rng) :
  truthy (master_key env) = true ->
  encrypt env (JStr x) g
  = (Return
       (Hex.encode (randomBytes 16 g).1 ++ ":"
        ++ Hex.encode
             (cbc_encrypt (length (pkcs7_pad (utf8 x)) / 16)
                (derive_key (master_key env)) (randomBytes 16 g).1
                (pkcs7_pad (utf8 x)))),
     (randomBytes 16 g).2).
Proof.
  intros Hk. unfold encrypt. rewrite Hk. cbn [negb].
  destruct (randomBytes 16 g) as [iv g'] eqn:E. cbn [fst snd].
  assert (Hiv : length iv = 16)
    by (change iv with (iv, g').1; rewrite <- E; apply randomBytes_length).
  unfold cipher_aes_256_cbc.
  rewrite check_key_iv_ok by (apply derive_key_length || exact Hiv).
  reflexivity.
Qed.

(** How [decrypt] takes an envelope apart: the text before the first colon
    is the IV, everything after it the ciphertext. *)
Lemma decrypt_envelope (h r : string) :
  truthy (master_key env) = true -> includes ":" h = false ->
  decrypt env (JStr (h ++ ":" ++ r))
  = Return
      (try_catch
         (decrypted ← decipher_aes_256_cbc (derive_key (master_key env))
                        (Hex.decode h) r;
          Return (JStr decrypted))
         (fun error => JNull)).
Proof.
  intros Hk Hh. unfold decrypt. rewrite Hk. cbn [negb].
  assert (Hi : includes ":" (h ++ ":" ++ r) = true).
  { rewrite includes_app. cbn. now rewrite orb_true_r. }
  rewrite (includes_truthy _ _ Hi), Hi. cbn [negb].
  change (h ++ ":" ++ r) with (h ++ String ":" r).
  rewrite (split_at_first _ _ _ Hh). cbn [hd tl].
  now rewrite join_split.
Qed.

(** Deciphering what [cipher_aes_256_cbc] wrote, under the same key and
    IV, gives the text back; so it does when the digits are followed by
    an even number of characters that do not decode. *)
Lemma decipher_cipher_followed (key iv : list byte) (x after : string) :
  length key = 32 -> length iv = 16 ->
  Hex.decode after = [] -> Nat.even (Utf16.length after) = true ->
  decipher_aes_256_cbc key iv
    (Hex.encode (cbc_encrypt (length (pkcs7_pad (utf8 x)) / 16) key iv
                   (pkcs7_pad (utf8 x))) ++ after)
  = Return x.
Proof.
  intros Hk Hi Hd He. unfold decipher_aes_256_cbc.
  rewrite (check_key_iv_ok _ _ Hk Hi). cbn [mbind result_bind].
  rewrite utf16_length_app_ascii by apply hex_encode_ascii.
  rewrite hex_decode_encode_app, Hd, app_nil_r.
  rewrite hex_encode_length, Nat.odd_add, Nat.odd_mul.
  rewrite <- (Nat.negb_even (Utf16.length after)), He.
  cbn [Nat.odd andb negb xorb].
  pose proof (pkcs7_pad_length (utf8 x)) as Hp.
  set (n := length (pkcs7_pad (utf8 x)) / 16).
  assert (Hn : length (pkcs7_pad (utf8 x)) = 16 * n).
  { unfold n. rewrite Hp. rewrite (Nat.mul_comm 16), Nat.div_mul; lia. }
  assert (Hn0 : n <> 0) by (intros E; rewrite E in Hn; lia).
  rewrite (cbc_encrypt_length n key iv _ Hk Hi Hn).
  replace (16 * n / 16) with n by (rewrite (Nat.mul_comm 16), Nat.div_mul; lia).
  replace ((16 * n) mod 16) with 0
    by (rewrite (Nat.mul_comm 16), Nat.Div0.mod_mul; lia).
  destruct (Nat.eqb_spec (16 * n) 0) as [E | _]; [lia |].
  cbn [Nat.eqb negb orb].
  rewrite (cbc_decrypt_encrypt n key iv _ Hk Hi Hn), pkcs7_unpad_pad.
  unfold of_utf8, utf8. now rewrite string_of_list_byte_of_string.
Qed.

Lemma decipher_cipher (key iv : list byte) (x : string) :
  length key = 32 -> length iv = 16 ->
  decipher_aes_256_cbc key iv
    (Hex.encode (cbc_encrypt (length (pkcs7_pad (utf8 x)) / 16) key iv
                   (pkcs7_pad (utf8 x))))
  = Return x.
Proof.
  intros Hk Hi.
  rewrite <- (string_app_nil_r (Hex.encode _)).
  now apply decipher_cipher_followed.
Qed.

(** The decipher raises exactly on the envelopes described, and returns
    a text on the others. *)
Lemma decipher_outcome (key iv : list byte) (hex : string) :
  length key = 32 ->
  let blocks := Hex.decode hex in
  let refused :=
    length iv <> 16
    \/ Nat.odd (Utf16.length hex) = true
    \/ length blocks = 0
    \/ length blocks mod 16 <> 0
    \/ pkcs7_unpad (cbc_decrypt (length blocks / 16) key iv blocks) = None in
  (refused /\ exists e, decipher_aes_256_cbc key iv hex = Throw e)
  \/ (~ refused /\ exists s, decipher_aes_256_cbc key iv hex = Return s).
Proof.
  intros Hk blocks refused. unfold refused, blocks.
  unfold decipher_aes_256_cbc, check_key_iv. rewrite Hk.
  cbn [Nat.eqb negb].
  destruct (Nat.eqb_spec (length iv) 16) as [Hi | Hi]; cbn [negb];
    [| left; split; [now left | eexists; reflexivity]].
  cbn [mbind result_bind].
  destruct (Nat.odd (Utf16.length hex)) eqn:Ho;
    [left; split; [right; now left | eexists; reflexivity] |].
  destruct (Nat.eqb_spec (length (Hex.decode hex)) 0) as [H0 | H0]; cbn [orb];
    [left; split; [right; right; now left | eexists; reflexivity] |].
  destruct (Nat.eqb_spec (length (Hex.decode hex) mod 16) 0) as [Hm | Hm];
    cbn [negb];
    [| left; split; [right; right; right; now left | eexists; reflexivity]].
  destruct (pkcs7_unpad _) as [p |] eqn:Hp.
  - right. split; [| eexists; reflexivity].
    intros [? | [? | [? | [? | ?]]]]; congruence.
  - left. split; [now repeat right | eexists; reflexivity].
Qed.

(** The envelopes the decipher refuses before looking at any block. *)
Lemma decipher_rejects (key iv : list byte) (hex : string) :
  length key = 32 ->
  length iv <> 16
  \/ Nat.odd (Utf16.length hex) = true
  \/ length (Hex.decode hex) = 0
  \/ length (Hex.decode hex) mod 16 <> 0 ->
  exists e, decipher_aes_256_cbc key iv hex = Throw e.
Proof.
  intros Hk Hbad. unfold decipher_aes_256_cbc, check_key_iv. rewrite Hk.
  cbn [Nat.eqb negb].
  destruct (Nat.eqb_spec (length iv) 16) as [Hi | Hi]; cbn [negb];
    [| eexists; reflexivity].
  cbn [mbind result_bind].
  destruct (Nat.odd (Utf16.length hex)) eqn:Ho; [eexists; reflexivity |].
  destruct (Nat.eqb_spec (length (Hex.decode hex)) 0) as [H0 | H0];
    [eexists; reflexivity |].
  destruct (Nat.eqb_spec (length (Hex.decode hex) mod 16) 0) as [Hm | Hm];
    [| eexists; reflexivity].
  destruct Hbad as [? | [? | [? | ?]]]; congruence.
Qed.

Lemma decrypt_encrypt_envelope (x : string) (g : rng) :
  truthy (master_key env) = true ->
  exists envelope,
    encrypt env (JStr x) g = (Return envelope, (randomBytes 16 g).2)
    /\ decrypt env (JStr envelope) = Return (JStr x).
Proof.
  intros Hk. eexists. split; [apply (encrypt_returns x g Hk) |].
  rewrite decrypt_envelope by (exact Hk || apply hex_encode_no_colon).
  rewrite hex_decode_encode.
  rewrite decipher_cipher
    by (apply derive_key_length || apply randomBytes_length).
  reflexivity.
Qed.

End CryptoLaws.

(** ** Signatures *)

Section SignatureLaws.
Context `{CryptoLib}.

Lemma hmac_sha256_length (key msg : list byte) :
  length (hmac_sha256 key msg) = 32.
Proof. apply sha256_length. Qed.

End SignatureLaws.

(** What [verifySignature] computes on two strings: whether Node's
    decoder reads the same bytes from both. *)
Lemma verifySignature_strings (a b : string) :
  verifySignature (JStr a) (JStr b)
  = bool_decide (Base64.decode a = Base64.decode b).
Proof.
  unfold verifySignature, timingSafeEqual. cbn.
  destruct (Nat.eqb_spec (length (Base64.decode a)) (length (Base64.decode b)))
    as [_ | Hne]; cbn; [reflexivity |].
  symmetry. apply bool_decide_eq_false. intros E. now rewrite E in Hne.
Qed.

(** ** The administrative routes *)

Lemma string_length_app (a b : string) :
  String.length (a ++ b) = String.length a + String.length b.
Proof.
  induction a as [| c a IH]; [reflexivity |].
  change (String c a ++ b) with (String c (a ++ b)). cbn [String.length].
  now rewrite IH.
Qed.

Lemma utf8_length (s : string) : length (utf8 s) = String.length s.
Proof.
  unfold utf8, list_byte_of_string. rewrite length_map.
  induction s as [| c s IH]; [reflexivity | cbn; now rewrite IH].
Qed.

(** [requireAdminToken] lets a request through only when [ADMIN_TOKEN] is set,
    so behind it the master key of [encrypt] and [decrypt] is configured. *)
Lemma admitted_configures_master_key (env : gmap string string) (req : request) :
  requireAdminToken env req = Next -> truthy (master_key env) = true.
Proof.
  unfold requireAdminToken, master_key, js_or. intros Hg.
  destruct (truthy (env_get env "ADMIN_TOKEN")) eqn:Ha;
    [| discriminate Hg].
  destruct (truthy (env_get env "DATA_ENCRYPTION_KEY")) eqn:Hd; assumption.
Qed.

Section AdminLaws.
Context `{CryptoLib}.

(** An envelope is longer than the text it protects. *)
Lemma envelope_longer (env : gmap string string) (x envelope : string)
    (g g' : rng) :
  truthy (master_key env) = true ->
  encrypt env (JStr x) g = (Return envelope, g') ->
  String.length x < String.length envelope.
Proof.
  intros Hk He. rewrite (encrypt_returns env x g Hk) in He.
  injection He as <- _.
  rewrite !string_length_app, !hex_encode_length.
  rewrite (cbc_encrypt_length (length (pkcs7_pad (utf8 x)) / 16)).
  - rewrite pkcs7_pad_length, utf8_length.
    replace (16 * (String.length x / 16 + 1) / 16)
      with (String.length x / 16 + 1)
      by (rewrite (Nat.mul_comm 16), Nat.div_mul; lia).
    pose proof (Nat.div_mod_eq (String.length x) 16).
    pose proof (Nat.mod_upper_bound (String.length x) 16). lia.
  - apply derive_key_length.
  - reflexivity.
  - rewrite pkcs7_pad_length. rewrite (Nat.mul_comm 16), Nat.div_mul; lia.
Qed.

(** A row that stores the envelope of a non-empty password [x]: the
    test and health configurations carry the stored envelope, the
    initialisation carries [x]. *)
Lemma stored_envelope_configs (env : gmap string string)
    (project : gmap string jsval) (x envelope : string) (g g' : rng) :
  truthy (master_key env) = true ->
  x <> "" ->
  encrypt env (JStr x) g = (Return envelope, g') ->
  prop project "db_password_encrypted" = JStr envelope ->
  password (test_config env project) = prop project "db_password_encrypted"
  /\ password (health_config env project) = prop project "db_password_encrypted"
  /\ password <$> init_config env project = Return (JStr x)
  /\ JStr envelope <> JStr x.
Proof.
  intros Hk Hx He Hs.
  pose proof (envelope_longer env x envelope g g' Hk He) as Hlen.
  assert (Ht : truthy (JStr envelope) = true).
  { destruct envelope; [cbn in Hlen; lia | reflexivity]. }
  assert (Hd : decrypt env (JStr envelope) = Return (JStr x)).
  { destruct (decrypt_encrypt_envelope env x g Hk) as (e & He' & Hd).
    rewrite He in He'. now injection He' as -> _. }
  assert (Htx : truthy (JStr x) = true) by (destruct x; [contradiction | reflexivity]).
  unfold test_config, health_config, init_config, system_fallback, connection, js_or.
  rewrite Hs, Ht, Hd. cbn [negb andb password mbind result_bind fmap result_fmap].
  rewrite Ht, Htx. cbn [negb andb]. rewrite Htx.
  repeat split; try reflexivity.
  intros E. injection E as E. rewrite E in Hlen. lia.
Qed.

End AdminLaws.

Lemma string_cons_neq (c : ascii) (s : string) : String c s <> s.
Proof.
  intros E. apply (f_equal String.length) in E. cbn in E. lia.
Qed.

Lemma system_fallback_true (v : jsval) (project : gmap string jsval) :
  system_fallback v project = true
  <-> truthy v = false /\ prop project "project_id" = JStr "analytics-system".
Proof.
  unfold system_fallback, strict_eq.
  rewrite andb_true_iff, negb_true_iff, bool_decide_eq_true. reflexivity.
Qed.

Lemma master_key_same (e1 e2 : gmap string string) :
  same_but_DB_PASSWORD e1 e2 -> master_key e1 = master_key e2.
Proof.
  intros Hs. unfold master_key, env_get.
  now rewrite (Hs "DATA_ENCRYPTION_KEY"), (Hs "ADMIN_TOKEN").
Qed.

Section FallbackLaws.
Context `{CryptoLib}.

Lemma decrypt_same (e1 e2 : gmap string string) (text : jsval) :
  same_but_DB_PASSWORD e1 e2 -> decrypt e1 text = decrypt e2 text.
Proof.
  intros Hs. unfold decrypt. now rewrite (master_key_same e1 e2 Hs).
Qed.

(** The shared tail of the three handlers: with [dbPassword] in hand, the
    connection takes [DB_PASSWORD] exactly when the guard holds. *)
Lemma fallback_takes (project : gmap string jsval) (dbPassword : jsval)
    (env : gmap string string) :
  takes_DB_PASSWORD
    (fun e => connection project
                (if system_fallback dbPassword project
                 then env_get e "DB_PASSWORD" else dbPassword)) env
  <-> system_fallback dbPassword project = true.
Proof.
  split.
  - intros (env' & _ & Hne).
    destruct (system_fallback dbPassword project); [reflexivity |].
    now contradiction Hne.
  - intros Hg. rewrite Hg.
    exists (<["DB_PASSWORD" := String "x" (default "" (env !! "DB_PASSWORD"))]> env).
    split.
    + intros k Hk. now rewrite lookup_insert_ne.
    + unfold connection, env_get. rewrite lookup_insert_eq.
      intros E. apply (f_equal password) in E. cbn in E.
      destruct (env !! "DB_PASSWORD") as [s |]; cbn in E.
      * unfold js_or in E. destruct (truthy (JStr s)); [| discriminate E].
        injection E as E. now apply string_cons_neq in E.
      * discriminate E.
Qed.

End FallbackLaws.

Ltac lookup_inserts :=
  repeat first
    [ rewrite lookup_insert_eq
    | rewrite lookup_insert_ne by (congruence || discriminate) ].

Lemma run_update_rows (q : update_statement) (params : list jsval)
    (table : list (gmap string jsval)) :
  Forall2
    (fun r r' => if matches q params r
                 then r' = assign params r (set_clause q) else r' = r)
    table (run_update q params table).1.
Proof.
  unfold run_update. cbn [fst].
  induction table as [| r table IH]; cbn [map]; constructor; [| exact IH].
  destruct (matches q params r); reflexivity.
Qed.

Lemma assign_without_password (body : gmap string jsval) (id : jsval)
    (r : gmap string jsval) :
  row_updated body None r
    (assign
       [prop body "project_name"; prop body "db_host"; prop body "db_port";
        prop body "db_name"; prop body "db_user"; prop body "table_prefix";
        prop body "is_active"; id]
       r (set_clause update_without_password)).
Proof.
  unfold assign. cbn [set_clause update_without_password foldl fst snd].
  split; [| split].
  - intros c Hc. unfold updated_columns in Hc.
    repeat (apply elem_of_cons in Hc as [-> | Hc]; [lookup_inserts; reflexivity |]).
    now apply elem_of_nil in Hc.
  - lookup_inserts. reflexivity.
  - intros c Hc Hp. unfold updated_columns in Hc.
    repeat (apply not_elem_of_cons in Hc as [? Hc]).
    lookup_inserts. reflexivity.
Qed.

Lemma assign_with_password (body : gmap string jsval) (id : jsval)
    (envelope : string) (r : gmap string jsval) :
  row_updated body (Some (JStr envelope)) r
    (assign
       [prop body "project_name"; prop body "db_host"; prop body "db_port";
        prop body "db_name"; prop body "db_user"; JStr envelope;
        prop body "table_prefix"; prop body "is_active"; id]
       r (set_clause update_with_password)).
Proof.
  unfold assign. cbn [set_clause update_with_password foldl fst snd].
  split; [| split].
  - intros c Hc. unfold updated_columns in Hc.
    repeat (apply elem_of_cons in Hc as [-> | Hc]; [lookup_inserts; reflexivity |]).
    now apply elem_of_nil in Hc.
  - lookup_inserts. reflexivity.
  - intros c Hc Hp. unfold updated_columns in Hc.
    repeat (apply not_elem_of_cons in Hc as [? Hc]).
    lookup_inserts. reflexivity.
Qed.

(** ** A configuration, an entropy source, rows and a request to run the code on *)

Definition sample_env : gmap string string :=
  <["ADMIN_TOKEN" := "t0ken"]> (<["DB_PASSWORD" := "pg-secret"]> ∅).

Definition sample_rng : rng := fun i => byte_of_N (N.of_nat (7 * i + 1)).

(** The envelope [encrypt] returns for ["pg-password"] under [sample_env],
    with [sample_rng] as entropy. *)
Definition sample_envelope : string :=
  Eval vm_compute in
    match (encrypt sample_env (JStr "pg-password") sample_rng).1 with
    | Return e => e
    | Throw _ => ""
    end.

(** It is the text OpenSSL's [aes-256-cbc] gives for the same key, IV
    and password. *)
Example sample_envelope_text :
  sample_envelope
  = "01080f161d242b323940474e555c636a:e4379daf1de4c225135673939a6fdc22".
Proof. reflexivity. Qed.

Definition sample_tenant : gmap string jsval :=
  <["id" := JNum 2]>
    (<["project_id" := JStr "shop"]>
       (<["db_host" := JStr "10.0.0.5"]>
          (<["db_password_encrypted" := JStr sample_envelope]> ∅))).

(** A row of the system tenant whose stored secret is present but does
    not decipher. *)
Definition corrupt_system_tenant : gmap string jsval :=
  <["id" := JNum 1]>
    (<["project_id" := JStr "analytics-system"]>
       (<["db_password_encrypted" := JStr "zz:00"]> ∅)).

Definition sample_request : request := {|
  req_query := ∅;
  req_headers := <["authorization" := "Bearer t0ken"]> ∅;
  req_params := <["id" := JStr "2"]> ∅;
  req_body :=
    <["project_name" := JStr "Shop"]>
      (<["db_host" := JStr "10.0.0.9"]>
         (<["db_port" := JNum 5432]>
            (<["db_name" := JStr "shop"]>
               (<["db_user" := JStr "shop_rw"]>
                  (<["table_prefix" := JStr "analytics_"]>
                     (<["is_active" := JBool true]> ∅))))));
|}.

Definition sample_table : list (gmap string jsval) :=
  [corrupt_system_tenant; sample_tenant].

(** * The claims of the specification *)

(** ** Request signatures *)

(** C1.  For every method, path, timestamp, deviceId, userId, body and
    secret, [generateSignature] returns the base64 text of the HMAC-SHA256
    (a 32-byte, that is 256-bit, keyed digest) of the six fields joined by
    line feeds in the order method, path, timestamp, deviceId, userId,
    body, under the secret as key: it is the signature the specification
    describes. *)
Theorem generateSignature_canonical `{CryptoLib}
    (method path timestamp deviceId userId body : jsval) (secret : string) :
  generateSignature method path timestamp deviceId userId body secret
  = sign_spec method path timestamp deviceId userId body secret
  /\ canonical_form method path timestamp deviceId userId body
     = ToString method ++ LF ++ ToString path ++ LF ++ ToString timestamp ++ LF
       ++ ToString deviceId ++ LF ++ ToString userId ++ LF ++ ToString body
  /\ length (hmac_sha256 (utf8 secret)
               (utf8 (canonical_form method path timestamp deviceId userId body)))
     = 32.
Proof.
  split; [| split].
  - reflexivity.
  - reflexivity.
  - apply hmac_sha256_length.
Qed.

(** The end-to-end example of the specification: [GET /v1/events] at
    timestamp 1700000000000, device [d1], user [u1], empty body. *)
Example canonical_form_example :
  canonical_form (JStr "GET") (JStr "/v1/events") (JNum 1700000000000)
    (JStr "d1") (JStr "u1") (JStr "")
  = "GET" ++ LF ++ "/v1/events" ++ LF ++ "1700000000000" ++ LF
    ++ "d1" ++ LF ++ "u1" ++ LF.
Proof. reflexivity. Qed.

(** The same request signed under the secret ["S"]: the value any
    HMAC-SHA256 implementation gives. *)
Example generateSignature_example :
  generateSignature (JStr "GET") (JStr "/v1/events") (JNum 1700000000000)
    (JStr "d1") (JStr "u1") (JStr "") "S"
  = "+ndMpelFBiWHC5tVD/Mrf+1hjxysuoP6UK0173v0LwM=".
Proof. vm_compute. reflexivity. Qed.

(** C2.  For every method, path, timestamp, deviceId, userId, body and
    secret, verifying a signature against itself succeeds:
    [verifySignature(sign(..), sign(..))] is [true]. *)
Theorem verifySignature_generateSignature `{CryptoLib}
    (method path timestamp deviceId userId body : jsval) (secret : string) :
  verifySignature
    (JStr (generateSignature method path timestamp deviceId userId body secret))
    (JStr (generateSignature method path timestamp deviceId userId body secret))
  = true.
Proof.
  rewrite verifySignature_strings. now apply bool_decide_eq_true.
Qed.

(** ** Encryption at rest *)

(** C3.  Under a configured master key, decrypting the envelope that
    [encrypt] produced for a string [x] returns [x]: [encrypt] returns an
    envelope, and [decrypt] of that envelope is [x].  This holds for every
    string, so for the non-empty ones the specification names. *)
Theorem decrypt_encrypt `{CryptoLib} (env : gmap string string)
    (x : string) (g : rng) :
  truthy (master_key env) = true ->
  exists envelope g',
    encrypt env (JStr x) g = (Return envelope, g')
    /\ decrypt env (JStr envelope) = Return (JStr x).
Proof.
  intros Hk.
  destruct (decrypt_encrypt_envelope env x g Hk) as (e & He & Hd).
  now exists e, (randomBytes 16 g).2.
Qed.

Lemma decrypt_encrypt_witness :
  exists envelope g',
    encrypt sample_env (JStr "pg-password") sample_rng = (Return envelope, g')
    /\ decrypt sample_env (JStr envelope) = Return (JStr "pg-password").
Proof.
  apply (decrypt_encrypt sample_env "pg-password" sample_rng). reflexivity.
Defined.

(** C4, as the code has it.  Under a configured master key [decrypt]
    never throws on a string: it returns a value.  A string without a
    colon is returned unchanged (the legacy plaintext passthrough).  On a
    string with a colon the value is [null] exactly when the decipher
    refuses the envelope: the text before the first colon does not
    decode to 16 bytes; or the text after it has an odd length, decodes
    to no byte or to a number of bytes that is not a multiple of 16; or
    the blocks deciphered do not end in a padding.  Otherwise the value
    is a string.  A malformed ciphertext is not always refused: the
    decoder stops at the first pair that is not two hexadecimal digits,
    so the envelope of a text [x], with characters that do not decode
    put after its IV or (an even number of them) after its ciphertext,
    still decrypts to [x]. *)
Theorem decrypt_never_throws `{CryptoLib} (env : gmap string string) :
  truthy (master_key env) = true ->
  (forall text : string,
     exists v,
       decrypt env (JStr text) = Return v
       /\ (includes ":" text = false -> v = JStr text)
       /\ (includes ":" text = true ->
           let iv := Hex.decode (hd "" (split ":" text)) in
           let encryptedText := join ":" (tl (split ":" text)) in
           let blocks := Hex.decode encryptedText in
           let refused :=
             length iv <> 16
             \/ Nat.odd (Utf16.length encryptedText) = true
             \/ length blocks = 0
             \/ length blocks mod 16 <> 0
             \/ pkcs7_unpad
                  (cbc_decrypt (length blocks / 16) (derive_key (master_key env))
                     iv blocks) = None in
           (v = JNull <-> refused) /\ (v <> JNull -> exists s, v = JStr s)))
  /\ (forall (x : string) (g : rng),
        exists iv blocks,
          (encrypt env (JStr x) g).1
          = Return (Hex.encode iv ++ ":" ++ Hex.encode blocks)
          /\ forall before after : string,
               includes ":" before = false -> Hex.decode before = [] ->
               Hex.decode after = [] -> Nat.even (Utf16.length after) = true ->
               decrypt env
                 (JStr ((Hex.encode iv ++ before) ++ ":"
                        ++ (Hex.encode blocks ++ after)))
               = Return (JStr x)).
Proof.
  intros Hk. split.
  - intros text. unfold decrypt. rewrite Hk. cbn [negb].
    destruct (truthy (JStr text)) eqn:Ht; cbn [negb].
    + destruct (includes ":" text) eqn:Hi; cbn [negb].
      * eexists. split; [reflexivity |]. split; [discriminate |]. intros _.
        cbv zeta.
        destruct (decipher_outcome (derive_key (master_key env))
                    (Hex.decode (hd "" (split ":" text)))
                    (join ":" (tl (split ":" text)))
                    (derive_key_length (master_key env)))
          as [[Hbad [e ->]] | [Hok [s ->]]];
          cbn [try_catch mbind result_bind].
        -- split; [| intros Hne; now contradiction Hne].
           split; [intros _; exact Hbad | reflexivity].
        -- split; [| intros _; now exists s].
           split; [discriminate | intros Hbad; now contradiction Hok].
      * eexists. split; [reflexivity |]. split; [reflexivity | discriminate].
    + exists (JStr text). split; [reflexivity |]. split; [reflexivity |].
      intros Hi. apply includes_truthy in Hi. congruence.
  - intros x g. rewrite (encrypt_returns env x g Hk). cbn [fst].
    do 2 eexists. split; [reflexivity |].
    intros before after Hc Hb Ha He.
    rewrite decrypt_envelope.
    + rewrite hex_decode_encode_app, Hb, app_nil_r.
      rewrite decipher_cipher_followed
        by (apply derive_key_length || apply randomBytes_length || assumption).
      reflexivity.
    + exact Hk.
    + rewrite includes_app, hex_encode_no_colon. exact Hc.
Qed.

Lemma decrypt_never_throws_witness :
  (forall text : string,
     exists v,
       decrypt sample_env (JStr text) = Return v
       /\ (includes ":" text = false -> v = JStr text)
       /\ (includes ":" text = true ->
           let iv := Hex.decode (hd "" (split ":" text)) in
           let encryptedText := join ":" (tl (split ":" text)) in
           let blocks := Hex.decode encryptedText in
           let refused :=
             length iv <> 16
             \/ Nat.odd (Utf16.length encryptedText) = true
             \/ length blocks = 0
             \/ length blocks mod 16 <> 0
             \/ pkcs7_unpad
                  (cbc_decrypt (length blocks / 16)
                     (derive_key (master_key sample_env)) iv blocks) = None in
           (v = JNull <-> refused) /\ (v <> JNull -> exists s, v = JStr s)))
  /\ (forall (x : string) (g : rng),
        exists iv blocks,
          (encrypt sample_env (JStr x) g).1
          = Return (Hex.encode iv ++ ":" ++ Hex.encode blocks)
          /\ forall before after : string,
               includes ":" before = false -> Hex.decode before = [] ->
               Hex.decode after = [] -> Nat.even (Utf16.length after) = true ->
               decrypt sample_env
                 (JStr ((Hex.encode iv ++ before) ++ ":"
                        ++ (Hex.encode blocks ++ after)))
               = Return (JStr x)).
Proof. apply (decrypt_never_throws sample_env). reflexivity. Defined.

(** The sentence of the specification fails for a ciphertext that is
    malformed and yet deciphered: the stored envelope of ["pg-password"]
    followed by ["zz"] is no hexadecimal text after its colon, and
    [decrypt] returns the password for it, not [null]; so it does when
    ["ZZ"] follows the IV. *)
Lemma decrypt_accepts_malformed_ciphertext :
  includes ":" (sample_envelope ++ "zz") = true
  /\ Hex.well_formed (join ":" (tl (split ":" (sample_envelope ++ "zz")))) = false
  /\ decrypt sample_env (JStr (sample_envelope ++ "zz"))
     = Return (JStr "pg-password")
  /\ decrypt sample_env (JStr (sample_envelope ++ "zz")) <> Return JNull
  /\ decrypt sample_env
       (JStr ("01080f161d242b323940474e555c636aZZ:e4379daf1de4c225135673939a6fdc22"))
     = Return (JStr "pg-password").
Proof. vm_compute. repeat split; discriminate. Qed.

(** Envelopes the decipher rejects, and a legacy plaintext, run through
    [decrypt]: an IV that is not hexadecimal, a ciphertext of odd length,
    a ciphertext that is not a whole number of blocks, an empty
    ciphertext. *)
Example decrypt_corrupt :
  decrypt sample_env (JStr "zz:00") = Return JNull
  /\ decrypt sample_env (JStr "000102030405060708090a0b0c0d0e0f:abc") = Return JNull
  /\ decrypt sample_env (JStr "000102030405060708090a0b0c0d0e0f:abcd") = Return JNull
  /\ decrypt sample_env (JStr "000102030405060708090a0b0c0d0e0f:") = Return JNull.
Proof. vm_compute. repeat split. Qed.

Example decrypt_legacy :
  decrypt sample_env (JStr "hunter2") = Return (JStr "hunter2").
Proof. reflexivity. Qed.

(** ** What [verifySignature] accepts *)

(** C5.  [verifySignature] does not reject malformed base64.  Take any
    signature [generateSignature] computed: it is well-formed base64; the
    same text followed by a character outside the base64 alphabet is not,
    and yet [verifySignature] answers [true] for it.  So does it for
    ["AQID!"] against ["AQID"].  The specification, and the comment in
    the [catch] of the source, say such an input yields [false]. *)
Theorem verifySignature_accepts_malformed `{CryptoLib}
    (method path timestamp deviceId userId body : jsval) (secret : string) :
  let expected :=
    generateSignature method path timestamp deviceId userId body secret in
  Base64.well_formed expected = true
  /\ Base64.well_formed (expected ++ "!") = false
  /\ verifySignature (JStr (expected ++ "!")) (JStr expected) = true
  /\ Base64.well_formed "AQID" = true
  /\ Base64.well_formed "AQID!" = false
  /\ verifySignature (JStr "AQID!") (JStr "AQID") = true.
Proof.
  intros expected. split; [| split; [| split; [| repeat split]]].
  - unfold Base64.well_formed, expected, generateSignature.
    rewrite base64_decode_encode. apply String.eqb_refl.
  - unfold Base64.well_formed. apply String.eqb_neq. intros E.
    pose proof (base64_encode_no_bang (Base64.decode (expected ++ "!"))) as Hn.
    rewrite E, includes_app in Hn. cbn in Hn.
    rewrite orb_true_r in Hn. discriminate.
  - rewrite verifySignature_strings. apply bool_decide_eq_true.
    apply base64_decode_trailing_junk, base64_encode_ascii.
Qed.

(** The parts of the same sentence that do hold: on strings the call
    never throws (it is a total boolean), buffers of different lengths
    give [false], and buffers of the same length are compared. *)
Lemma verifySignature_lengths (a b : string) :
  (length (Base64.decode a) <> length (Base64.decode b) ->
   verifySignature (JStr a) (JStr b) = false)
  /\ (length (Base64.decode a) = length (Base64.decode b) ->
      verifySignature (JStr a) (JStr b)
      = bool_decide (Base64.decode a = Base64.decode b)).
Proof.
  rewrite verifySignature_strings. split; [| reflexivity].
  intros Hne. apply bool_decide_eq_false. intros E. now rewrite E in Hne.
Qed.

(** A value that is not a string makes [Buffer.from] throw; the [catch]
    turns it into [false]. *)
Example verifySignature_undefined (b : jsval) :
  verifySignature JUndefined b = false.
Proof. reflexivity. Qed.

(** ** Initialisation vectors and the missing key *)

(** C6.  Two calls of [encrypt] in a row on the same text, under the same
    key: each draws its own 16 bytes (128 bits) from the entropy source,
    the second after the first, and returns the hexadecimal IV, a colon
    and the hexadecimal ciphertext; when the two IVs differ the two
    envelopes differ, and both envelopes decrypt to the text. *)
Theorem encrypt_fresh_iv `{CryptoLib} (env : gmap string string)
    (x : string) (g : rng) :
  truthy (master_key env) = true ->
  let iv1 := map g (seq 0 16) in
  let iv2 := map g (seq 16 16) in
  exists c1 c2 g1 g2,
    encrypt env (JStr x) g = (Return (Hex.encode iv1 ++ ":" ++ Hex.encode c1), g1)
    /\ encrypt env (JStr x) g1
       = (Return (Hex.encode iv2 ++ ":" ++ Hex.encode c2), g2)
    /\ length iv1 = 16 /\ length iv2 = 16
    /\ (iv1 <> iv2 ->
        Hex.encode iv1 ++ ":" ++ Hex.encode c1
        <> Hex.encode iv2 ++ ":" ++ Hex.encode c2)
    /\ decrypt env (JStr (Hex.encode iv1 ++ ":" ++ Hex.encode c1)) = Return (JStr x)
    /\ decrypt env (JStr (Hex.encode iv2 ++ ":" ++ Hex.encode c2)) = Return (JStr x).
Proof.
  intros Hk iv1 iv2.
  pose proof (encrypt_returns env x g Hk) as E1.
  pose proof (encrypt_returns env x (randomBytes 16 g).2 Hk) as E2.
  destruct (decrypt_encrypt_envelope env x g Hk) as (e1 & He1 & Hd1).
  destruct (decrypt_encrypt_envelope env x (randomBytes 16 g).2 Hk)
    as (e2 & He2 & Hd2).
  rewrite E1 in He1. rewrite E2 in He2.
  injection He1 as <-. injection He2 as <-.
  assert (Hiv1 : (randomBytes 16 g).1 = iv1) by reflexivity.
  assert (Hiv2 : (randomBytes 16 (randomBytes 16 g).2).1 = iv2).
  { reflexivity. }
  rewrite Hiv1 in *. rewrite Hiv2 in *.
  do 4 eexists. split; [exact E1 |]. split; [exact E2 |].
  split; [unfold iv1; now rewrite length_map, length_seq |].
  split; [unfold iv2; now rewrite length_map, length_seq |].
  split; [| split; assumption].
  intros Hne Heq. apply Hne.
  apply hex_encode_inj.
  apply (split_head_inj ":" _ _ _ _ (hex_encode_no_colon iv1)
           (hex_encode_no_colon iv2) Heq).
Qed.

Lemma encrypt_fresh_iv_witness :
  let iv1 := map sample_rng (seq 0 16) in
  let iv2 := map sample_rng (seq 16 16) in
  exists c1 c2 g1 g2,
    encrypt sample_env (JStr "pg-password") sample_rng
    = (Return (Hex.encode iv1 ++ ":" ++ Hex.encode c1), g1)
    /\ encrypt sample_env (JStr "pg-password") g1
       = (Return (Hex.encode iv2 ++ ":" ++ Hex.encode c2), g2)
    /\ length iv1 = 16 /\ length iv2 = 16
    /\ (iv1 <> iv2 ->
        Hex.encode iv1 ++ ":" ++ Hex.encode c1
        <> Hex.encode iv2 ++ ":" ++ Hex.encode c2)
    /\ decrypt sample_env (JStr (Hex.encode iv1 ++ ":" ++ Hex.encode c1))
       = Return (JStr "pg-password")
    /\ decrypt sample_env (JStr (Hex.encode iv2 ++ ":" ++ Hex.encode c2))
       = Return (JStr "pg-password").
Proof. apply (encrypt_fresh_iv sample_env "pg-password" sample_rng). reflexivity. Defined.

(** The two IVs of the sample run do differ. *)
Example sample_ivs_differ :
  map sample_rng (seq 0 16) <> map sample_rng (seq 16 16).
Proof. discriminate. Qed.

(** C7.  When no master key is configured (neither [DATA_ENCRYPTION_KEY]
    nor [ADMIN_TOKEN] holds a non-empty value), [encrypt] and [decrypt]
    both throw the configuration error, whatever their argument: an absent
    key never comes back as a returned value such as [null] or [false]. *)
Theorem missing_master_key_throws `{CryptoLib} (env : gmap string string) :
  truthy (master_key env) = false ->
  (forall text g, encrypt env text g = (Throw not_configured, g))
  /\ (forall text, decrypt env text = Throw not_configured)
  /\ (forall text g, ~ returns (encrypt env text g).1)
  /\ (forall text, ~ returns (decrypt env text)).
Proof.
  intros Hk.
  assert (He : forall text g, encrypt env text g = (Throw not_configured, g))
    by (intros; unfold encrypt; now rewrite Hk).
  assert (Hd : forall text, decrypt env text = Throw not_configured)
    by (intros; unfold decrypt; now rewrite Hk).
  repeat split; [exact He | exact Hd | |].
  - intros text g [a Ha]. rewrite He in Ha. discriminate.
  - intros text [a Ha]. rewrite Hd in Ha. discriminate.
Qed.

Lemma missing_master_key_throws_witness :
  (forall text g, encrypt ∅ text g = (Throw not_configured, g))
  /\ (forall text, decrypt ∅ text = Throw not_configured)
  /\ (forall text g, ~ returns (encrypt ∅ text g).1)
  /\ (forall text, ~ returns (decrypt ∅ text)).
Proof. apply (missing_master_key_throws ∅). reflexivity. Defined.

(** ** Where [process.env.DB_PASSWORD] can reach the connection *)

(** C8, as the code has it.  In the connection test and in the health
    check, [DB_PASSWORD] is taken if and only if the stored
    [db_password_encrypted] is absent (falsy) and the row's [project_id]
    is ['analytics-system'].  In the initialisation it is taken if and
    only if the [project_id] is ['analytics-system'] and the stored value
    is absent or [decrypt] returns nothing usable for it ([null] or an
    empty text).  For every other tenant none of the three takes it. *)
Theorem env_password_only_for_system_tenant `{CryptoLib}
    (env : gmap string string)
    (project : gmap string jsval) :
  let stored := prop project "db_password_encrypted" in
  let system := prop project "project_id" = JStr "analytics-system" in
  (takes_DB_PASSWORD (fun e => test_config e project) env
   <-> truthy stored = false /\ system)
  /\ (takes_DB_PASSWORD (fun e => health_config e project) env
      <-> truthy stored = false /\ system)
  /\ (takes_DB_PASSWORD (fun e => init_config e project) env
      <-> system
          /\ (truthy stored = false
              \/ exists v, decrypt env stored = Return v /\ truthy v = false))
  /\ (~ system ->
      ~ takes_DB_PASSWORD (fun e => test_config e project) env
      /\ ~ takes_DB_PASSWORD (fun e => health_config e project) env
      /\ ~ takes_DB_PASSWORD (fun e => init_config e project) env).
Proof.
  intros stored system.
  assert (Ht : takes_DB_PASSWORD (fun e => test_config e project) env
               <-> truthy stored = false /\ system).
  { unfold test_config. rewrite fallback_takes. apply system_fallback_true. }
  assert (Hh : takes_DB_PASSWORD (fun e => health_config e project) env
               <-> truthy stored = false /\ system).
  { unfold health_config. rewrite fallback_takes. apply system_fallback_true. }
  assert (Hi : takes_DB_PASSWORD (fun e => init_config e project) env
               <-> system
                   /\ (truthy stored = false
                       \/ exists v, decrypt env stored = Return v
                                    /\ truthy v = false)).
  { unfold init_config. fold stored.
    set (D := fun e : gmap string string =>
                if truthy stored then decrypt e stored else Return JUndefined).
    assert (HD : forall e, same_but_DB_PASSWORD env e -> D e = D env).
    { intros e Hs. unfold D. destruct (truthy stored); [| reflexivity].
      symmetry. now apply decrypt_same. }
    change (takes_DB_PASSWORD
              (fun e => D e ≫= (fun dbPassword =>
                 Return (connection project
                           (if system_fallback dbPassword project
                            then env_get e "DB_PASSWORD" else dbPassword)))) env
            <-> system /\ (truthy stored = false
                           \/ exists v, decrypt env stored = Return v
                                        /\ truthy v = false)).
    destruct (D env) as [v | err] eqn:Ev.
    - transitivity (system_fallback v project = true).
      + rewrite <- fallback_takes. split.
        * intros (e & Hs & Hne). exists e. split; [exact Hs |].
          rewrite (HD e Hs), Ev in Hne. cbn in Hne. congruence.
        * intros (e & Hs & Hne). exists e. split; [exact Hs |].
          rewrite (HD e Hs), Ev. cbn. congruence.
      + rewrite system_fallback_true. unfold D in Ev.
        destruct (truthy stored) eqn:Es.
        * split.
          -- intros [Hv Hsys]. split; [exact Hsys |]. right. now exists v.
          -- intros [Hsys [Hf | (v' & Hv' & Hf)]]; [discriminate |].
             rewrite Ev in Hv'. injection Hv' as <-. now split.
        * injection Ev as <-. split.
          -- intros [_ Hsys]. split; [exact Hsys | now left].
          -- intros [Hsys _]. now split.
    - split.
      + intros (e & Hs & Hne). rewrite (HD e Hs), Ev in Hne.
        now contradiction Hne.
      + unfold D in Ev. intros [_ [Hf | (v & Hv & _)]].
        * rewrite Hf in Ev. discriminate.
        * destruct (truthy stored); [congruence | discriminate]. }
  split; [exact Ht |]. split; [exact Hh |]. split; [exact Hi |].
  intros Hns. rewrite Ht, Hh, Hi. tauto.
Qed.

(** The sentence of the specification fails for the initialisation: the
    row below belongs to the system tenant and its stored secret is
    present, yet the password of the configuration is whatever
    [DB_PASSWORD] holds. *)
Lemma init_takes_env_for_corrupt_secret :
  truthy (prop corrupt_system_tenant "db_password_encrypted") = true
  /\ password <$> init_config (<["DB_PASSWORD" := "pg-secret"]> sample_env)
                    corrupt_system_tenant
     = Return (JStr "pg-secret")
  /\ password <$> init_config (<["DB_PASSWORD" := "other"]> sample_env)
                    corrupt_system_tenant
     = Return (JStr "other")
  /\ ~ (takes_DB_PASSWORD (fun e => init_config e corrupt_system_tenant) sample_env
        <-> truthy (prop corrupt_system_tenant "db_password_encrypted") = false
            /\ prop corrupt_system_tenant "project_id" = JStr "analytics-system").
Proof.
  split; [reflexivity |].
  split; [vm_compute; reflexivity |]. split; [vm_compute; reflexivity |].
  intros [Hto _].
  assert (Htakes : takes_DB_PASSWORD
                     (fun e => init_config e corrupt_system_tenant) sample_env).
  { exists (<["DB_PASSWORD" := "other"]> sample_env). split.
    - intros k Hk. now rewrite lookup_insert_ne.
    - vm_compute. discriminate. }
  destruct (Hto Htakes) as [Hf _]. discriminate Hf.
Qed.

(** ** The project update *)

(** C9.  In [PUT /projects/:id], for an admitted request: when the request
    carries no [db_password] (absent, [null] or empty), every row matched
    by the [id] gets [project_name], [db_host], [db_port], [db_name],
    [db_user], [table_prefix] and [is_active] from the request while its
    stored [db_password_encrypted] is left as it was; when the request
    carries a password, the same seven columns are written and
    [db_password_encrypted] becomes the envelope [encrypt] returns for
    that password.  Unmatched rows, and the other columns of matched rows,
    do not change. *)
Theorem update_project_password_column `{CryptoLib} (env : gmap string string)
    (req : request) (g : rng) (table : list (gmap string jsval)) :
  requireAdminToken env req = Next ->
  let body := req_body req in
  let matched := fun r : gmap string jsval =>
    sql_eq (prop r "id") (param [prop (req_params req) "id"] 1) in
  let after := PUT_project env req g table in
  (truthy (prop body "db_password") = false ->
   after.2 = g
   /\ Forall2
        (fun r r' => if matched r then row_updated body None r r' else r' = r)
        table after.1.2)
  /\ (forall pw, prop body "db_password" = JStr pw -> pw <> "" ->
      exists envelope,
        encrypt env (JStr pw) g = (Return envelope, after.2)
        /\ Forall2
             (fun r r' =>
                if matched r then row_updated body (Some (JStr envelope)) r r'
                else r' = r)
             table after.1.2).
Proof.
  intros Hadm body matched after.
  pose proof (admitted_configures_master_key env req Hadm) as Hk.
  unfold after, PUT_project. rewrite Hadm. unfold update_project. fold body.
  split.
  - intros Hpw. rewrite Hpw. cbn [truthy].
    match goal with |- context [run_update ?q ?ps table] =>
      pose proof (run_update_rows q ps table) as Hrows;
      destruct (run_update q ps table) as [table' rows] eqn:Er
    end.
    cbn [fst] in Hrows.
    split; [destruct rows; reflexivity |].
    replace ((let '(table'0, rows0) := (table', rows) in
              match rows0 with
              | [] => (Json 404 None, table'0, g)
              | r :: _ => (Json 200 (Some r), table'0, g)
              end).1.2) with table' by (destruct rows; reflexivity).
    eapply Forall2_impl; [exact Hrows |].
    intros r r' Hr. cbn beta in Hr. unfold matches in Hr.
    cbn [where_id update_without_password] in Hr.
    change (param _ 8) with (param [prop (req_params req) "id"] 1) in Hr.
    fold (matched r) in Hr. destruct (matched r); [| exact Hr].
    subst r'. apply assign_without_password.
  - intros pw Hpw Hne. rewrite Hpw.
    assert (Ht : truthy (JStr pw) = true)
      by (destruct pw; [contradiction | reflexivity]).
    rewrite Ht, (encrypt_returns env pw g Hk).
    set (envelope := Hex.encode (randomBytes 16 g).1 ++ ":" ++ _).
    assert (Hte : truthy (JStr envelope) = true).
    { apply (includes_truthy ":"). unfold envelope.
      rewrite includes_app. cbn. now rewrite orb_true_r. }
    cbn [fmap result_fmap]. rewrite Hte.
    exists envelope.
    match goal with |- context [run_update ?q ?ps table] =>
      pose proof (run_update_rows q ps table) as Hrows;
      destruct (run_update q ps table) as [table' rows] eqn:Er
    end.
    cbn [fst] in Hrows.
    split; [destruct rows; reflexivity |].
    replace ((let '(table'0, rows0) := (table', rows) in
              match rows0 with
              | [] => (Json 404 None, table'0, (randomBytes 16 g).2)
              | r :: _ => (Json 200 (Some r), table'0, (randomBytes 16 g).2)
              end).1.2) with table' by (destruct rows; reflexivity).
    eapply Forall2_impl; [exact Hrows |].
    intros r r' Hr. cbn beta in Hr. unfold matches in Hr.
    cbn [where_id update_with_password] in Hr.
    change (param _ 9) with (param [prop (req_params req) "id"] 1) in Hr.
    fold (matched r) in Hr. destruct (matched r); [| exact Hr].
    subst r'. apply assign_with_password.
Qed.

Lemma update_project_password_column_witness :
  let body := req_body sample_request in
  let matched := fun r : gmap string jsval =>
    sql_eq (prop r "id") (param [prop (req_params sample_request) "id"] 1) in
  let after := PUT_project sample_env sample_request sample_rng sample_table in
  (truthy (prop body "db_password") = false ->
   after.2 = sample_rng
   /\ Forall2
        (fun r r' => if matched r then row_updated body None r r' else r' = r)
        sample_table after.1.2)
  /\ (forall pw, prop body "db_password" = JStr pw -> pw <> "" ->
      exists envelope,
        encrypt sample_env (JStr pw) sample_rng = (Return envelope, after.2)
        /\ Forall2
             (fun r r' =>
                if matched r then row_updated body (Some (JStr envelope)) r r'
                else r' = r)
             sample_table after.1.2).
Proof.
  apply (update_project_password_column sample_env sample_request sample_rng
           sample_table).
  reflexivity.
Defined.

(** The sample request, which carries no password, run against the sample
    table: the second row matches, takes the new host and keeps its stored
    envelope; the first row is untouched. *)
Example update_without_password_run :
  let table' :=
    (PUT_project sample_env sample_request sample_rng sample_table).1.2 in
  table' !! 0 = Some corrupt_system_tenant
  /\ (table' !! 1 ≫= lookup "db_host") = Some (JStr "10.0.0.9")
  /\ (table' !! 1 ≫= lookup "db_password_encrypted")
     = Some (JStr sample_envelope).
Proof. vm_compute. repeat split. Qed.

(** The same request with a password: the stored envelope is replaced by
    the envelope of the new password. *)
Example update_with_password_run :
  let req := {|
    req_query := req_query sample_request;
    req_headers := req_headers sample_request;
    req_params := req_params sample_request;
    req_body := <["db_password" := JStr "n3w"]> (req_body sample_request);
  |} in
  let table' := (PUT_project sample_env req sample_rng sample_table).1.2 in
  (table' !! 1 ≫= lookup "db_password_encrypted")
  = Some (JStr <$> (encrypt sample_env (JStr "n3w") sample_rng).1)
      ≫= (fun r => match r with Return v => Some v | Throw _ => None end)
  /\ (table' !! 1 ≫= lookup "db_password_encrypted")
     <> Some (JStr sample_envelope).
Proof. vm_compute. split; [reflexivity | discriminate]. Qed.

(** Without [ADMIN_TOKEN] no administrative request reaches a handler. *)
Example no_token_no_update (req : request) (g : rng)
    (table : list (gmap string jsval)) :
  PUT_project ∅ req g table = (Denied 500 "ADMIN_TOKEN_NOT_CONFIGURED", table, g).
Proof. reflexivity. Qed.

(** ** What reaches the tenant's database as password *)

(** C10.  Let the row found for the request hold, as
    [db_password_encrypted], the envelope that [encrypt] produced for a
    non-empty password [x].  For an admitted request, the connection test
    opens its pool, and the health check calls its collaborator, with that
    stored envelope, verbatim, as the password; the initialisation
    decrypts it and hands over [x]; and the envelope is not [x].  So the
    first two connect with the ciphertext envelope, not with the secret. *)
Theorem test_and_health_pass_ciphertext `{CryptoLib} (env : gmap string string)
    (req : request) (table rest : list (gmap string jsval))
    (project : gmap string jsval) (x envelope : string) (g g' : rng) :
  requireAdminToken env req = Next ->
  select_by_id (prop (req_params req) "id") table = project :: rest ->
  x <> "" ->
  encrypt env (JStr x) g = (Return envelope, g') ->
  prop project "db_password_encrypted" = JStr envelope ->
  (exists cfg, POST_project_test env req table = TestPool cfg
               /\ password cfg = prop project "db_password_encrypted")
  /\ (exists cfg, GET_project_health env req table = CheckProjectHealth cfg
                  /\ password cfg = prop project "db_password_encrypted")
  /\ (exists cfg, POST_project_init env req table = InitializeProjectDatabase cfg
                  /\ password cfg = JStr x)
  /\ JStr envelope <> JStr x.
Proof.
  intros Hadm Hsel Hx He Hs.
  pose proof (admitted_configures_master_key env req Hadm) as Hk.
  destruct (stored_envelope_configs env project x envelope g g' Hk Hx He Hs)
    as (Ht & Hh & Hi & Hne).
  unfold POST_project_test, GET_project_health, POST_project_init.
  rewrite Hadm, Hsel.
  split; [now eexists |]. split; [now eexists |]. split; [| exact Hne].
  destruct (init_config env project) as [cfg | err]; [| discriminate Hi].
  exists cfg. split; [reflexivity |]. cbn in Hi. congruence.
Qed.

Lemma test_and_health_pass_ciphertext_witness :
  (exists cfg, POST_project_test sample_env sample_request sample_table
               = TestPool cfg
               /\ password cfg = prop sample_tenant "db_password_encrypted")
  /\ (exists cfg, GET_project_health sample_env sample_request sample_table
                  = CheckProjectHealth cfg
                  /\ password cfg = prop sample_tenant "db_password_encrypted")
  /\ (exists cfg, POST_project_init sample_env sample_request sample_table
                  = InitializeProjectDatabase cfg
                  /\ password cfg = JStr "pg-password")
  /\ JStr sample_envelope <> JStr "pg-password".
Proof.
  apply (test_and_health_pass_ciphertext sample_env sample_request sample_table
           [] sample_tenant "pg-password" sample_envelope sample_rng
           (randomBytes 16 sample_rng).2);
    [reflexivity | reflexivity | discriminate
    | vm_compute; reflexivity | reflexivity].
Defined.

(** * Further properties of the code *)

(** ** Strings and hexadecimal texts *)

(** Two concatenations whose left parts have the same length agree part
    by part; so do two whose right parts have the same length. *)
Lemma string_app_inj (a b c d : string) :
  String.length a = String.length c -> a ++ b = c ++ d -> a = c /\ b = d.
Proof.
  revert c. induction a as [| x a IH]; intros [| y c] Hl E; try discriminate Hl.
  - now split.
  - change (String x a ++ b) with (String x (a ++ b)) in E.
    change (String y c ++ d) with (String y (c ++ d)) in E.
    injection E as -> E. cbn in Hl.
    destruct (IH c ltac:(lia) E) as [-> ->]. now split.
Qed.

Lemma string_app_inj_r (a b c d : string) :
  String.length b = String.length d -> a ++ b = c ++ d -> a = c /\ b = d.
Proof.
  intros Hl E. apply string_app_inj; [| exact E].
  apply (f_equal String.length) in E. rewrite !string_length_app in E. lia.
Qed.

Lemma truthy_JStr (s : string) : truthy (JStr s) = true <-> s <> "".
Proof. destruct s; cbn; split; easy. Qed.

Lemma truthy_not_empty (x : string) : x <> "" -> truthy (JStr x) = true.
Proof. now intros ?%truthy_JStr. Qed.

Lemma hex_text_cons (n : nat) (c : ascii) (s : string) :
  hex_text (S n) (String c s) <-> Hex.unhex c <> None /\ hex_text n s.
Proof.
  unfold hex_text. cbn [String.length]. split.
  - intros [Hl Hc]. split; [| split].
    + apply Hc. cbn. now rewrite Ascii.eqb_refl.
    + lia.
    + intros d Hd. apply Hc. cbn. rewrite Hd. apply orb_true_r.
  - intros [Hc [Hl Hs]]. split; [lia |].
    intros d Hd. cbn in Hd. apply orb_true_iff in Hd as [Hd | Hd].
    + apply Ascii.eqb_eq in Hd. now subst.
    + now apply Hs.
Qed.

Lemma hex_text_nil (s : string) : hex_text 0 s <-> s = "".
Proof.
  unfold hex_text. split.
  - intros [Hl _]. now destruct s.
  - intros ->. split; [reflexivity | discriminate].
Qed.

Lemma hex_text_app (n m : nat) (a b : string) :
  hex_text n a -> hex_text m b -> hex_text (n + m) (a ++ b).
Proof.
  intros [Hla Ha] [Hlb Hb]. split.
  - rewrite string_length_app. lia.
  - intros c Hc. rewrite includes_app in Hc.
    apply orb_true_iff in Hc as [Hc | Hc]; auto.
Qed.

Lemma hex_text_no_dash (n : nat) (s : string) : hex_text n s -> includes "-" s = false.
Proof.
  intros [_ Hs]. destruct (includes "-" s) eqn:E; [| reflexivity].
  now apply Hs in E.
Qed.

(** [buf.toString('hex')] writes two hexadecimal digits per byte. *)
Lemma hex_encode_hex_text (bs : list byte) : hex_text (2 * length bs) (Hex.encode bs).
Proof.
  induction bs as [| b bs IH].
  - now apply hex_text_nil.
  - cbn [length Hex.encode].
    replace (2 * S (length bs)) with (S (S (2 * length bs))) by lia.
    apply hex_text_cons. split; [rewrite hex_unhex_high; discriminate |].
    apply hex_text_cons. split; [rewrite hex_unhex_low; discriminate |].
    exact IH.
Qed.

(** Two draws give the same bytes exactly when the entropy sources agree
    on the positions drawn. *)
Lemma randomBytes_eq (n : nat) (g1 g2 : rng) :
  (randomBytes n g1).1 = (randomBytes n g2).1 <-> forall i, i < n -> g1 i = g2 i.
Proof.
  unfold randomBytes. cbn [fst]. split.
  - intros E i Hi.
    apply (f_equal (fun l => l !! i)) in E.
    rewrite !list_lookup_fmap, lookup_seq_lt in E by exact Hi.
    now injection E.
  - intros E. apply map_ext_in. intros i Hi%in_seq. apply E. lia.
Qed.

Lemma to_uint_nonnil (p : positive) : Pos.to_uint p <> Decimal.Nil.
Proof.
  intros E.
  pose proof (DecimalPos.Unsigned.of_to p) as H. rewrite E in H. discriminate H.
Qed.

(** [`${n}`] tells whole numbers apart. *)
Lemma ToString_JNum_inj (a b : Z) : ToString (JNum a) = ToString (JNum b) -> a = b.
Proof.
  cbn [ToString]. intros E.
  apply (f_equal NilZero.int_of_string) in E.
  assert (Hn : forall z, Z.to_int z <> Decimal.Pos Decimal.Nil
                         /\ Z.to_int z <> Decimal.Neg Decimal.Nil).
  { intros [| p | p]; cbn; split; try discriminate;
      intros [= E']; now apply to_uint_nonnil in E'. }
  rewrite !NilZero.isi in E by apply Hn.
  injection E as E. now apply DecimalZ.to_int_inj.
Qed.

(** ** The generated identifiers *)

(** X1.  [generateApiKey] returns ["api_live_"] followed by 32 hexadecimal
    digits, the text of the 16 bytes it draws, and leaves the entropy
    source 16 bytes further.  Two keys are equal exactly when the 16
    bytes drawn are: keys collide only when the random bytes do. *)
Theorem generateApiKey_unique (g1 g2 : rng) :
  (exists h, (generateApiKey g1).1 = "api_live_" ++ h /\ hex_text 32 h
             /\ Hex.decode h = map g1 (seq 0 16))
  /\ (forall i, (generateApiKey g1).2 i = g1 (16 + i))
  /\ ((generateApiKey g1).1 = (generateApiKey g2).1
      <-> forall i, i < 16 -> g1 i = g2 i).
Proof.
  unfold generateApiKey.
  destruct (randomBytes 16 g1) as [b1 g1'] eqn:E1.
  destruct (randomBytes 16 g2) as [b2 g2'] eqn:E2. cbn [fst snd].
  assert (Hb1 : b1 = (randomBytes 16 g1).1) by now rewrite E1.
  assert (Hb2 : b2 = (randomBytes 16 g2).1) by now rewrite E2.
  assert (Hg1 : g1' = (randomBytes 16 g1).2) by now rewrite E1.
  split; [| split].
  - exists (Hex.encode b1). split; [reflexivity |]. split.
    + pose proof (hex_encode_hex_text b1) as Hh.
      rewrite Hb1, randomBytes_length in Hh. now rewrite Hb1.
    + rewrite hex_decode_encode. now rewrite Hb1.
  - intros i. now rewrite Hg1.
  - rewrite <- randomBytes_eq, <- Hb1, <- Hb2. split.
    + intros E. apply string_app_inj in E as [_ E]; [| reflexivity].
      now apply hex_encode_inj.
    + now intros ->.
Qed.

(** X2.  [generateSecretKey] returns 64 hexadecimal digits, the text of
    the 32 bytes it draws: decoding the key gives those bytes back.  The
    entropy source is left 32 bytes further, and two secret keys are equal
    exactly when the 32 bytes drawn are. *)
Theorem generateSecretKey_unique (g1 g2 : rng) :
  hex_text 64 (generateSecretKey g1).1
  /\ Hex.decode (generateSecretKey g1).1 = map g1 (seq 0 32)
  /\ (forall i, (generateSecretKey g1).2 i = g1 (32 + i))
  /\ ((generateSecretKey g1).1 = (generateSecretKey g2).1
      <-> forall i, i < 32 -> g1 i = g2 i).
Proof.
  unfold generateSecretKey.
  destruct (randomBytes 32 g1) as [b1 g1'] eqn:E1.
  destruct (randomBytes 32 g2) as [b2 g2'] eqn:E2. cbn [fst snd].
  assert (Hb1 : b1 = (randomBytes 32 g1).1) by now rewrite E1.
  assert (Hb2 : b2 = (randomBytes 32 g2).1) by now rewrite E2.
  assert (Hg1 : g1' = (randomBytes 32 g1).2) by now rewrite E1.
  split; [| split; [| split]].
  - pose proof (hex_encode_hex_text b1) as Hh.
    rewrite Hb1, randomBytes_length in Hh. now rewrite Hb1.
  - rewrite hex_decode_encode. now rewrite Hb1.
  - intros i. now rewrite Hg1.
  - rewrite <- randomBytes_eq, <- Hb1, <- Hb2. split.
    + apply hex_encode_inj.
    + now intros ->.
Qed.

(** X3.  [generateEventId] returns ["evt_"], the clock reading in
    decimal, ["_"] and 8 hexadecimal digits.  Two event ids are equal
    exactly when they were made at the same millisecond from the same 4
    random bytes: ids of different milliseconds never collide. *)
Theorem generateEventId_unique (now1 now2 : Z) (g1 g2 : rng) :
  (exists r, (generateEventId now1 g1).1
             = "evt_" ++ ToString (JNum now1) ++ "_" ++ r
             /\ hex_text 8 r)
  /\ ((generateEventId now1 g1).1 = (generateEventId now2 g2).1
      <-> now1 = now2 /\ forall i, i < 4 -> g1 i = g2 i).
Proof.
  unfold generateEventId.
  destruct (randomBytes 4 g1) as [b1 g1'] eqn:E1.
  destruct (randomBytes 4 g2) as [b2 g2'] eqn:E2. cbn [fst snd].
  assert (Hb1 : b1 = (randomBytes 4 g1).1) by now rewrite E1.
  assert (Hb2 : b2 = (randomBytes 4 g2).1) by now rewrite E2.
  assert (Hl1 : length b1 = 4) by (rewrite Hb1; apply randomBytes_length).
  assert (Hl2 : length b2 = 4) by (rewrite Hb2; apply randomBytes_length).
  split.
  - exists (Hex.encode b1). split; [reflexivity |].
    pose proof (hex_encode_hex_text b1) as Hh. now rewrite Hl1 in Hh.
  - rewrite <- randomBytes_eq, <- Hb1, <- Hb2. split.
    + intros E. apply string_app_inj in E as [_ E]; [| reflexivity].
      rewrite <- !string_app_assoc in E.
      apply string_app_inj_r in E as [E Eh];
        [| rewrite !hex_encode_length; lia].
      apply string_app_inj_r in E as [E _]; [| reflexivity].
      split; [now apply ToString_JNum_inj | now apply hex_encode_inj].
    + now intros [-> ->].
Qed.

(** ** The format checks *)

Lemma accepts_hex_class (c : ascii) :
  RegExp.accepts true hex_class c = bool_decide (Hex.unhex c <> None).
Proof.
  destruct c as [[] [] [] [] [] [] [] []]; vm_compute; reflexivity.
Qed.

Lemma same_char_dash (a : ascii) :
  RegExp.same_char true "-" a = Ascii.eqb a "-".
Proof.
  destruct a as [[] [] [] [] [] [] [] []]; vm_compute; reflexivity.
Qed.

(** [[0-9a-f]{n}] under [i] matches exactly the texts that start with [n]
    hexadecimal digits. *)
Lemma repeat_hex_Some (n : nat) (s r : string) :
  RegExp.repeat (RegExp.accepts true hex_class) n s = Some r
  <-> exists p, s = p ++ r /\ hex_text n p.
Proof.
  revert s. induction n as [| n IH]; intros s; cbn [RegExp.repeat].
  - split.
    + intros [= ->]. exists "". split; [reflexivity | now apply hex_text_nil].
    + intros (p & -> & Hp). apply hex_text_nil in Hp. now subst.
  - destruct s as [| c s].
    + split; [discriminate |].
      intros (p & Hs & Hp). destruct p as [| a p].
      * destruct Hp as [Hl _]. discriminate Hl.
      * discriminate Hs.
    + rewrite accepts_hex_class. split.
      * destruct (bool_decide_reflect (Hex.unhex c <> None)) as [Hc | Hc];
          [| discriminate].
        intros (p & -> & Hp)%IH. exists (String c p). split; [reflexivity |].
        now apply hex_text_cons.
      * intros (p & Hs & Hp). destruct p as [| a p].
        { destruct Hp as [Hl _]. discriminate Hl. }
        change (String a p ++ r) with (String a (p ++ r)) in Hs.
        injection Hs as -> ->. apply hex_text_cons in Hp as [Hc Hp].
        rewrite bool_decide_eq_true_2 by exact Hc.
        apply IH. now exists p.
Qed.

Lemma run_repeat_hex (n : nat) (ps : list RegExp.piece) (s : string) :
  RegExp.run true (RegExp.Repeat hex_class n :: ps) s = true
  <-> exists p r, s = p ++ r /\ hex_text n p /\ RegExp.run true ps r = true.
Proof.
  cbn [RegExp.run].
  destruct (RegExp.repeat _ n s) as [r |] eqn:E.
  - apply repeat_hex_Some in E as (p & -> & Hp). split.
    + intros Hr. now exists p, r.
    + intros (p' & r' & E & Hp' & Hr).
      apply string_app_inj in E as [-> ->]; [exact Hr |].
      destruct Hp as [-> _]. now destruct Hp' as [-> _].
  - split; [discriminate |]. intros (p & r & -> & Hp & _).
    assert (RegExp.repeat (RegExp.accepts true hex_class) n (p ++ r) = Some r) as E'
      by (apply repeat_hex_Some; now exists p).
    congruence.
Qed.

Lemma run_dash (ps : list RegExp.piece) (s : string) :
  RegExp.run true (RegExp.Char "-" :: ps) s = true
  <-> exists r, s = String "-" r /\ RegExp.run true ps r = true.
Proof.
  cbn [RegExp.run]. destruct s as [| a s].
  - split; [discriminate | intros (r & E & _); discriminate E].
  - rewrite same_char_dash, andb_true_iff, Ascii.eqb_eq. split.
    + intros [-> Hr]. now exists s.
    + intros (r & [= -> ->] & Hr). now split.
Qed.

Lemma run_end (s : string) : RegExp.run true [] s = true <-> s = "".
Proof. cbn [RegExp.run]. apply String.eqb_eq. Qed.

(** Takes a run of the UUID pattern apart, into its five groups. *)
Ltac uuid_groups H a b c d e Ha Hb Hc Hd He :=
  apply run_repeat_hex in H as (a & ? & -> & Ha & H);
  apply run_dash in H as (? & -> & H);
  apply run_repeat_hex in H as (b & ? & -> & Hb & H);
  apply run_dash in H as (? & -> & H);
  apply run_repeat_hex in H as (c & ? & -> & Hc & H);
  apply run_dash in H as (? & -> & H);
  apply run_repeat_hex in H as (d & ? & -> & Hd & H);
  apply run_dash in H as (? & -> & H);
  apply run_repeat_hex in H as (e & ? & -> & He & H);
  apply run_end in H as ->.

(** X4.  [isValidUserId] accepts a value exactly when its text (the value
    converted as [test] converts it) is 32 characters long and every
    character is a hexadecimal digit, of either case: nothing may precede
    or follow the digits, a trailing line feed included. *)
Theorem isValidUserId_iff (userId : jsval) :
  isValidUserId userId = true <-> hex_text 32 (ToString userId).
Proof.
  unfold isValidUserId, RegExp.test.
  cbn [RegExp.ignoreCase RegExp.pieces userIdRegex].
  rewrite run_repeat_hex. split.
  - intros (p & r & -> & Hp & ->%run_end). now rewrite string_app_nil_r.
  - intros Hs. exists (ToString userId), "". rewrite string_app_nil_r.
    now split; [| split; [| apply run_end]].
Qed.

(** X5.  [isValidUUID] accepts a value exactly when its text is five
    groups of 8, 4, 4, 4 and 12 hexadecimal digits, of either case,
    separated by single dashes.  The version and variant digits are not
    looked at. *)
Theorem isValidUUID_iff (uuid : jsval) :
  isValidUUID uuid = true
  <-> exists a b c d e,
        ToString uuid = a ++ "-" ++ b ++ "-" ++ c ++ "-" ++ d ++ "-" ++ e
        /\ hex_text 8 a /\ hex_text 4 b /\ hex_text 4 c /\ hex_text 4 d
        /\ hex_text 12 e.
Proof.
  unfold isValidUUID, RegExp.test.
  cbn [RegExp.ignoreCase RegExp.pieces uuidRegex].
  generalize (ToString uuid). intros s. split.
  - intros Hrun. uuid_groups Hrun a b c d e Ha Hb Hc Hd He.
    exists a, b, c, d, e. rewrite string_app_nil_r.
    split; [reflexivity | tauto].
  - intros (a & b & c & d & e & -> & Ha & Hb & Hc & Hd & He).
    apply run_repeat_hex. exists a; eexists. split; [reflexivity |]. split; [exact Ha |].
    apply run_dash. eexists. split; [reflexivity |].
    apply run_repeat_hex. exists b; eexists. split; [reflexivity |]. split; [exact Hb |].
    apply run_dash. eexists. split; [reflexivity |].
    apply run_repeat_hex. exists c; eexists. split; [reflexivity |]. split; [exact Hc |].
    apply run_dash. eexists. split; [reflexivity |].
    apply run_repeat_hex. exists d; eexists. split; [reflexivity |]. split; [exact Hd |].
    apply run_dash. eexists. split; [reflexivity |].
    apply run_repeat_hex. exists e, "". rewrite string_app_nil_r.
    split; [reflexivity |]. split; [exact He | now apply run_end].
Qed.

(** X6.  A user id is a UUID without its dashes: whenever [isValidUUID]
    accepts a string, [isValidUserId] accepts
    [uuid.split('-').join('')]. *)
Theorem isValidUUID_without_dashes (uuid : string) :
  isValidUUID (JStr uuid) = true ->
  isValidUserId (JStr (String.concat "" (split "-" uuid))) = true.
Proof.
  unfold isValidUUID, isValidUserId, RegExp.test.
  cbn [RegExp.ignoreCase RegExp.pieces uuidRegex userIdRegex ToString].
  intros Hrun. uuid_groups Hrun a b c d e Ha Hb Hc Hd He.
  rewrite string_app_nil_r.
  rewrite !split_at_first, split_without by eauto using hex_text_no_dash.
  cbn [String.concat].
  apply run_repeat_hex. eexists _, "". rewrite string_app_nil_r.
  split; [reflexivity |]. split; [| now apply run_end].
  apply (hex_text_app 8 _ a); [exact Ha |].
  apply (hex_text_app 4 _ b); [exact Hb |].
  apply (hex_text_app 4 _ c); [exact Hc |].
  apply (hex_text_app 4 12 d e); assumption.
Qed.

Lemma isValidUUID_without_dashes_witness :
  isValidUserId
    (JStr (String.concat "" (split "-" "123E4567-e89b-12d3-A456-426614174000")))
  = true.
Proof.
  apply (isValidUUID_without_dashes "123E4567-e89b-12d3-A456-426614174000").
  vm_compute. reflexivity.
Defined.

(** X7.  The two formats are disjoint: no value passes both
    [isValidUUID] and [isValidUserId], as the first asks for 36
    characters and the second for 32. *)
Theorem isValidUUID_not_isValidUserId (v : jsval) :
  isValidUUID v = true -> isValidUserId v = false.
Proof.
  unfold isValidUUID, isValidUserId, RegExp.test.
  cbn [RegExp.ignoreCase RegExp.pieces uuidRegex userIdRegex].
  generalize (ToString v). intros s Hrun.
  destruct (RegExp.run true [RegExp.Repeat hex_class 32] s) eqn:Hu;
    [| reflexivity].
  apply run_repeat_hex in Hu as (p & r & Hs & [Hl _] & ->%run_end).
  apply (f_equal String.length) in Hs.
  uuid_groups Hrun a b c d e Ha Hb Hc Hd He.
  destruct Ha as [Ha _], Hb as [Hb _], Hc as [Hc _], Hd as [Hd _], He as [He _].
  repeat (rewrite string_length_app in Hs; cbn [String.length] in Hs).
  lia.
Qed.

Lemma isValidUUID_not_isValidUserId_witness :
  isValidUserId (JStr "123E4567-e89b-12d3-A456-426614174000") = false.
Proof.
  apply (isValidUUID_not_isValidUserId (JStr "123E4567-e89b-12d3-A456-426614174000")).
  vm_compute. reflexivity.
Defined.

(** ** Signatures, once more *)

(** X8.  The message signed does not keep its fields apart: a line feed
    inside a field reads as a field boundary.  Moving the text after a
    line feed from the end of [userId] to the start of [body] gives the
    same signature, for every key. *)
Theorem generateSignature_field_boundary `{CryptoLib}
    (method path timestamp deviceId : jsval) (userId x body : string)
    (secretKey : string) :
  generateSignature method path timestamp deviceId
    (JStr (userId ++ LF ++ x)) (JStr body) secretKey
  = generateSignature method path timestamp deviceId
      (JStr userId) (JStr (x ++ LF ++ body)) secretKey.
Proof.
  unfold generateSignature. cbn [ToString].
  do 7 f_equal. now rewrite !string_app_assoc.
Qed.

Lemma base64_well_formed_encode (s : string) :
  Base64.well_formed s = true -> Base64.encode (Base64.decode s) = s.
Proof. apply String.eqb_eq. Qed.

(** X9.  On a candidate that is well-formed base64, [verifySignature]
    against a signature that [generateSignature] computed is exact: it
    answers [true] if and only if the candidate is that signature,
    character for character. *)
Theorem verifySignature_exact_on_well_formed `{CryptoLib}
    (candidate : string)
    (method path timestamp deviceId userId body : jsval) (secretKey : string) :
  Base64.well_formed candidate = true ->
  verifySignature (JStr candidate)
    (JStr (generateSignature method path timestamp deviceId userId body secretKey))
  = bool_decide
      (candidate
       = generateSignature method path timestamp deviceId userId body secretKey).
Proof.
  intros Hw. rewrite verifySignature_strings.
  apply bool_decide_ext. unfold generateSignature.
  rewrite base64_decode_encode. split.
  - intros <-. symmetry. now apply base64_well_formed_encode.
  - intros ->. apply base64_decode_encode.
Qed.

Lemma verifySignature_exact_on_well_formed_witness :
  verifySignature (JStr "+ndMpelFBiWHC5tVD/Mrf+1hjxysuoP6UK0173v0LwQ=")
    (JStr (generateSignature (JStr "GET") (JStr "/v1/events")
             (JNum 1700000000000) (JStr "d1") (JStr "u1") (JStr "") "S"))
  = bool_decide
      ("+ndMpelFBiWHC5tVD/Mrf+1hjxysuoP6UK0173v0LwQ="
       = generateSignature (JStr "GET") (JStr "/v1/events")
           (JNum 1700000000000) (JStr "d1") (JStr "u1") (JStr "") "S").
Proof.
  apply (verifySignature_exact_on_well_formed
           "+ndMpelFBiWHC5tVD/Mrf+1hjxysuoP6UK0173v0LwQ=").
  vm_compute. reflexivity.
Defined.

(** ** Envelopes, once more *)

Section EnvelopeLaws.
Context `{CryptoLib}.

Lemma cbc_pad_length (key iv : list byte) (x : string) :
  length key = 32 -> length iv = 16 ->
  length (cbc_encrypt (length (pkcs7_pad (utf8 x)) / 16) key iv (pkcs7_pad (utf8 x)))
  = 16 * (String.length x / 16 + 1).
Proof.
  intros Hk Hi.
  rewrite (cbc_encrypt_length (length (pkcs7_pad (utf8 x)) / 16)).
  - rewrite pkcs7_pad_length, utf8_length.
    now rewrite (Nat.mul_comm 16 (_ + 1)), Nat.div_mul, Nat.mul_comm by lia.
  - exact Hk.
  - exact Hi.
  - rewrite pkcs7_pad_length. rewrite (Nat.mul_comm 16), Nat.div_mul; lia.
Qed.

(** [encrypt] and [decrypt] read the environment through the master key
    only. *)
Lemma encrypt_decrypt_same_key (e1 e2 : gmap string string) :
  master_key e1 = master_key e2 ->
  (forall text g, encrypt e1 text g = encrypt e2 text g)
  /\ (forall text, decrypt e1 text = decrypt e2 text).
Proof.
  intros E. split; intros; unfold encrypt, decrypt; now rewrite E.
Qed.

End EnvelopeLaws.

(** X10.  Under a configured key the envelope of a text of [n] bytes is 32
    hexadecimal digits, one colon and [32 * (n / 16 + 1)] hexadecimal
    digits: [33 + 32 * (n / 16 + 1)] characters in all.  The padding
    always adds to the text, so the envelope of the empty text has 65
    characters and a text of 16 bytes takes two blocks. *)
Theorem encrypt_envelope_size `{CryptoLib} (env : gmap string string)
    (x : string) (g : rng) :
  truthy (master_key env) = true ->
  exists iv ciphertext,
    (encrypt env (JStr x) g).1 = Return (iv ++ ":" ++ ciphertext)
    /\ hex_text 32 iv
    /\ hex_text (32 * (String.length x / 16 + 1)) ciphertext
    /\ String.length (iv ++ ":" ++ ciphertext)
       = 33 + 32 * (String.length x / 16 + 1).
Proof.
  intros Hk. rewrite (encrypt_returns env x g Hk). cbn [fst].
  do 2 eexists. split; [reflexivity |].
  pose proof (hex_encode_hex_text (randomBytes 16 g).1) as Hiv.
  rewrite randomBytes_length in Hiv.
  pose proof (hex_encode_hex_text
                (cbc_encrypt (length (pkcs7_pad (utf8 x)) / 16)
                   (derive_key (master_key env)) (randomBytes 16 g).1
                   (pkcs7_pad (utf8 x)))) as Hct.
  rewrite cbc_pad_length in Hct
    by (apply derive_key_length || apply randomBytes_length).
  replace (2 * (16 * (String.length x / 16 + 1)))
    with (32 * (String.length x / 16 + 1)) in Hct by lia.
  split; [exact Hiv |]. split; [exact Hct |].
  rewrite !string_length_app. destruct Hiv as [-> _], Hct as [-> _].
  cbn [String.length]. lia.
Qed.

Lemma encrypt_envelope_size_witness :
  exists iv ciphertext,
    (encrypt sample_env (JStr "pg-password") sample_rng).1
    = Return (iv ++ ":" ++ ciphertext)
    /\ hex_text 32 iv
    /\ hex_text (32 * (String.length "pg-password" / 16 + 1)) ciphertext
    /\ String.length (iv ++ ":" ++ ciphertext)
       = 33 + 32 * (String.length "pg-password" / 16 + 1).
Proof.
  apply (encrypt_envelope_size sample_env "pg-password" sample_rng). reflexivity.
Defined.

(** X11.  Migrating from the fallback key.  An envelope written while
    [DATA_ENCRYPTION_KEY] was unset or empty, so under [ADMIN_TOKEN],
    still decrypts to its text once [DATA_ENCRYPTION_KEY] is set to the
    value [ADMIN_TOKEN] had, whatever [ADMIN_TOKEN] holds by then. *)
Theorem fallback_key_migration `{CryptoLib} (env env' : gmap string string)
    (token x : string) (g : rng) :
  truthy (env_get env "DATA_ENCRYPTION_KEY") = false ->
  env !! "ADMIN_TOKEN" = Some token ->
  token <> "" ->
  env' !! "DATA_ENCRYPTION_KEY" = Some token ->
  exists envelope,
    (encrypt env (JStr x) g).1 = Return envelope
    /\ decrypt env' (JStr envelope) = Return (JStr x).
Proof.
  intros Hd Ha Ht Hd'.
  assert (Htt : truthy (JStr token) = true) by now apply truthy_not_empty.
  assert (Hk : master_key env = JStr token).
  { unfold master_key, js_or. rewrite Hd. unfold env_get. now rewrite Ha. }
  assert (Hk' : master_key env' = JStr token).
  { unfold master_key, js_or, env_get. rewrite Hd'. now rewrite Htt. }
  destruct (encrypt_decrypt_same_key env env' ltac:(congruence)) as [He _].
  assert (Hc : truthy (master_key env') = true) by now rewrite Hk'.
  destruct (decrypt_encrypt_envelope env' x g Hc) as (e & He' & Hdec).
  exists e. rewrite He, He'. now split.
Qed.

Lemma fallback_key_migration_witness :
  exists envelope,
    (encrypt sample_env (JStr "pg-password") sample_rng).1 = Return envelope
    /\ decrypt
         (<["DATA_ENCRYPTION_KEY" := "t0ken"]> (<["ADMIN_TOKEN" := "rotated"]> ∅))
         (JStr envelope)
       = Return (JStr "pg-password").
Proof.
  apply (fallback_key_migration sample_env _ "t0ken" "pg-password" sample_rng);
    [reflexivity | reflexivity | discriminate | reflexivity].
Defined.

(** ** Requests and rows to run the routes on *)

(** A request that carries the token of [sample_env] as a bearer token. *)
Definition admin_request (params body : gmap string jsval) : request := {|
  req_query := ∅;
  req_headers := <["authorization" := "Bearer t0ken"]> ∅;
  req_params := params;
  req_body := body;
|}.

(** A request whose query token is wrong while both headers are right. *)
Definition guessing_request : request := {|
  req_query := <["token" := JStr "guess"]> ∅;
  req_headers :=
    <["x-admin-token" := "t0ken"]> (<["authorization" := "Bearer t0ken"]> ∅);
  req_params := req_params sample_request;
  req_body := req_body sample_request;
|}.

(** A request with two spaces after [Bearer]. *)
Definition double_space_request : request := {|
  req_query := ∅;
  req_headers := <["authorization" := "Bearer  t0ken"]> ∅;
  req_params := req_params sample_request;
  req_body := req_body sample_request;
|}.

(** The body of a creation: no port and no table prefix. *)
Definition create_request : request :=
  admin_request ∅
    (<["project_id" := JStr "blog"]>
       (<["project_name" := JStr "Blog"]>
          (<["db_host" := JStr "10.0.0.7"]>
             (<["db_name" := JStr "blog"]>
                (<["db_user" := JStr "blog_rw"]>
                   (<["db_password" := JStr "pg-password"]> ∅)))))).

(** What the database fills in for the row created. *)
Definition generated_columns : gmap string jsval :=
  <["id" := JNum 3]> (<["is_active" := JBool true]> ∅).

(** A request on the project created. *)
Definition new_project_request : request :=
  admin_request (<["id" := JStr "3"]> ∅) ∅.

(** The sample update with a [db_password]. *)
Definition password_update_request (db_password : jsval) : request :=
  admin_request (req_params sample_request)
    (<["db_password" := db_password]> (req_body sample_request)).

(** A row from before passwords were encrypted, and one whose plain
    password holds a colon. *)
Definition legacy_tenant : gmap string jsval :=
  <["id" := JNum 4]>
    (<["project_id" := JStr "legacy"]>
       (<["db_password_encrypted" := JStr "hunter2"]> ∅)).

Definition colon_tenant : gmap string jsval :=
  <["id" := JNum 5]>
    (<["project_id" := JStr "wiki"]>
       (<["db_password_encrypted" := JStr "pa:ss"]> ∅)).

(** ** [requireAdminToken] *)

Lemma split_parts_without (c : ascii) (s : string) :
  Forall (fun p => includes c p = false) (split c s).
Proof.
  induction s as [| a s IH]; cbn [split].
  - now repeat constructor.
  - destruct (Ascii.eqb a c) eqn:E.
    + constructor; [reflexivity | exact IH].
    + destruct (split c s) as [| h t].
      * repeat constructor. cbn. now rewrite E.
      * inversion IH as [| ? ? Hh Ht]; subst. constructor; [| exact Ht].
        cbn. now rewrite E, Hh.
Qed.

(** [s.split(c)] has two parts exactly when [s] holds [c] once. *)
Lemma split_two (c : ascii) (s a b : string) :
  split c s = [a; b]
  <-> s = a ++ String c b /\ includes c a = false /\ includes c b = false.
Proof.
  split.
  - intros E. pose proof (split_parts_without c s) as Hf. rewrite E in Hf.
    inversion Hf as [| ? ? Ha Hf']; subst. inversion Hf' as [| ? ? Hb _]; subst.
    split; [| now split].
    rewrite <- (join_split c s), E. reflexivity.
  - intros (-> & Ha & Hb). now rewrite split_at_first, split_without.
Qed.

(** What the [Authorization] header must be for its second part to be
    the token [t]. *)
Lemma bearer_parts (authorization t : string) :
  t <> "" ->
  (let parts := split " " authorization in
   if (length parts =? 2)%nat && strict_eq (nth_part parts 0) (JStr "Bearer")
   then nth_part parts 1 = JStr t else False)
  <-> authorization = "Bearer " ++ t /\ includes " " t = false.
Proof.
  intros Ht. cbv zeta. split.
  - destruct (split " " authorization) as [| a [| b [| ? ?]]] eqn:E; cbn; try easy.
    unfold strict_eq.
    destruct (bool_decide_reflect (JStr a = JStr "Bearer")) as [Ha | Ha]; [| easy].
    injection Ha as ->. intros [= ->].
    apply split_two in E as (-> & _ & Hb). now split.
  - intros [-> Hb].
    assert (E : split " " ("Bearer " ++ t) = ["Bearer"; t])
      by (apply split_two; now repeat split).
    rewrite E. reflexivity.
Qed.

Lemma requireAdminToken_presented (env : gmap string string) (req : request) :
  requireAdminToken env req = Next
  <-> exists t, env !! "ADMIN_TOKEN" = Some t /\ t <> ""
                /\ presented_token req = JStr t.
Proof.
  unfold requireAdminToken. fold (presented_token req).
  unfold env_get at 1 2. destruct (env !! "ADMIN_TOKEN") as [t |].
  - destruct (truthy (JStr t)) eqn:Ht; cbn [negb].
    + apply truthy_JStr in Ht. unfold strict_eq.
      destruct (bool_decide_reflect (presented_token req = JStr t)) as [E | E].
      * rewrite E. replace (truthy (JStr t)) with true
          by (symmetry; now apply truthy_JStr).
        split; [intros _; now exists t | reflexivity].
      * rewrite andb_false_r. split; [discriminate |].
        intros (t' & [= <-] & _ & E'). contradiction.
    + split; [discriminate |]. intros (t' & [= <-] & Hne & _).
      apply truthy_JStr in Hne. congruence.
  - split; [discriminate |]. now intros (t' & [=] & _).
Qed.

Lemma presented_token_cases (req : request) (t : string) :
  t <> "" ->
  presented_token req = JStr t
  <-> (prop (req_query req) "token" = JStr t
       \/ (truthy (prop (req_query req) "token") = false
           /\ req_headers req !! "x-admin-token" = Some t)
       \/ (truthy (prop (req_query req) "token") = false
           /\ truthy (env_get (req_headers req) "x-admin-token") = false
           /\ req_headers req !! "authorization" = Some ("Bearer " ++ t)
           /\ includes " " t = false)).
Proof.
  intros Ht. pose proof (proj2 (truthy_JStr t) Ht) as Htt.
  unfold presented_token, js_or.
  destruct (truthy (prop (req_query req) "token")) eqn:Hq.
  { rewrite Hq. cbn [negb andb]. split; [intros E; now left |].
    intros [E | [[Hf _] | [Hf _]]]; [exact E | discriminate ..]. }
  assert (Hq' : prop (req_query req) "token" <> JStr t)
    by (intros E; rewrite E in Hq; congruence).
  destruct (truthy (env_get (req_headers req) "x-admin-token")) eqn:Hh.
  { cbn [negb andb]. unfold env_get in *.
    destruct (req_headers req !! "x-admin-token") as [h |]; [| discriminate Hh].
    split.
    - intros [= ->]. right; left. now split.
    - intros [E | [[_ [= ->]] | (_ & Hf & _)]];
        [contradiction | reflexivity | discriminate]. }
  assert (Hh' : req_headers req !! "x-admin-token" <> Some t).
  { intros E. unfold env_get in Hh. rewrite E in Hh. congruence. }
  assert (Hx : env_get (req_headers req) "x-admin-token" <> JStr t).
  { intros E. rewrite E in Hh. congruence. }
  cbn [negb andb].
  assert (Hno : forall P : Prop,
            (P <-> req_headers req !! "authorization" = Some ("Bearer " ++ t)
                   /\ includes " " t = false) ->
            (P <-> (prop (req_query req) "token" = JStr t
                    \/ (false = false /\ req_headers req !! "x-admin-token" = Some t)
                    \/ (false = false /\ false = false
                        /\ req_headers req !! "authorization" = Some ("Bearer " ++ t)
                        /\ includes " " t = false)))).
  { intros P ->. split; [intros [? ?]; right; right; now repeat split |].
    intros [E | [[_ E] | (_ & _ & E & Hs)]]; [contradiction .. | now split]. }
  apply Hno. clear Hno.
  assert (Hauth : env_get (req_headers req) "authorization"
                  = match req_headers req !! "authorization" with
                    | Some s => JStr s
                    | None => JUndefined
                    end) by reflexivity.
  rewrite Hauth. clear Hauth.
  destruct (req_headers req !! "authorization") as [a |].
  - destruct (truthy (JStr a)) eqn:Ha.
    + cbn [ToString]. pose proof (bearer_parts a t Ht) as Hb. cbv zeta in Hb.
      revert Hb.
      destruct ((length (split " " a) =? 2)%nat
                && strict_eq (nth_part (split " " a) 0) (JStr "Bearer"));
        intros Hb.
      * rewrite Hb. split; [intros [-> ?]; now split | intros [[= ->] ?]; now split].
      * split; [contradiction |]. intros [[= ->] ?]. exfalso. now apply Hb.
    + split; [contradiction |]. intros [[= ->] _]. discriminate Ha.
  - split; [contradiction |]. now intros [[=] _].
Qed.

(** The three answers of [requireAdminToken]. *)
Lemma requireAdminToken_responses (env : gmap string string) (req : request) :
  (truthy (env_get env "ADMIN_TOKEN") = false
   /\ requireAdminToken env req = Respond 500 "ADMIN_TOKEN_NOT_CONFIGURED")
  \/ (truthy (env_get env "ADMIN_TOKEN") = true
      /\ (requireAdminToken env req = Next
          \/ requireAdminToken env req = Respond 401 "UNAUTHORIZED")).
Proof.
  unfold requireAdminToken. fold (presented_token req).
  destruct (truthy (env_get env "ADMIN_TOKEN")); cbn [negb]; [right | left; now split].
  split; [reflexivity |].
  destruct (truthy (presented_token req) && strict_eq _ _); [now left | now right].
Qed.

(** X12.  [requireAdminToken] calls [next()] exactly when [ADMIN_TOKEN]
    is set to a non-empty value [t] and the request presents [t] in the
    first place the middleware reads: as the [token] query parameter; or,
    that parameter being absent or empty, as the [x-admin-token] header;
    or, both being absent or empty, as an [Authorization] header that is
    ["Bearer "] followed by [t], in which case [t] holds no space. *)
Theorem requireAdminToken_admits (env : gmap string string) (req : request) :
  requireAdminToken env req = Next
  <-> exists t,
        env !! "ADMIN_TOKEN" = Some t /\ t <> ""
        /\ (prop (req_query req) "token" = JStr t
            \/ (truthy (prop (req_query req) "token") = false
                /\ req_headers req !! "x-admin-token" = Some t)
            \/ (truthy (prop (req_query req) "token") = false
                /\ truthy (env_get (req_headers req) "x-admin-token") = false
                /\ req_headers req !! "authorization" = Some ("Bearer " ++ t)
                /\ includes " " t = false)).
Proof.
  rewrite requireAdminToken_presented. split.
  - intros (t & Ha & Ht & Hp). exists t. split; [exact Ha |]. split; [exact Ht |].
    now apply presented_token_cases.
  - intros (t & Ha & Ht & Hp). exists t. split; [exact Ha |]. split; [exact Ht |].
    now apply presented_token_cases.
Qed.

(** X13.  The first credential decides.  With [ADMIN_TOKEN] configured, a
    request whose [token] query parameter is non-empty and wrong is
    answered 401 even when its headers carry the right token; so is a
    request without query token whose [x-admin-token] header is non-empty
    and wrong, whatever its [Authorization] header. *)
Theorem first_credential_decides (env : gmap string string) (req : request)
    (t : string) :
  env !! "ADMIN_TOKEN" = Some t -> t <> "" ->
  (truthy (prop (req_query req) "token") = true
   /\ prop (req_query req) "token" <> JStr t)
  \/ (truthy (prop (req_query req) "token") = false
      /\ truthy (env_get (req_headers req) "x-admin-token") = true
      /\ req_headers req !! "x-admin-token" <> Some t) ->
  requireAdminToken env req = Respond 401 "UNAUTHORIZED".
Proof.
  intros Ha Ht Hw.
  destruct (requireAdminToken_responses env req) as [[Hf _] | [_ [Hn | Hr]]].
  - unfold env_get in Hf. rewrite Ha in Hf. apply truthy_JStr in Ht. congruence.
  - exfalso. apply requireAdminToken_presented in Hn as (t' & Ha' & _ & Hp).
    assert (t' = t) as -> by congruence.
    apply (presented_token_cases req t Ht) in Hp.
    pose proof (proj2 (truthy_JStr t) Ht) as Htt.
    destruct Hw as [[Hq Hne] | (Hq & Hh & Hne)];
      destruct Hp as [E | [[Hq' E] | (Hq' & Hh' & _)]];
      try rewrite E in Hq; congruence.
  - exact Hr.
Qed.

Lemma first_credential_decides_witness :
  requireAdminToken sample_env guessing_request = Respond 401 "UNAUTHORIZED".
Proof.
  apply (first_credential_decides sample_env guessing_request "t0ken");
    [reflexivity | discriminate | left; split; [reflexivity | discriminate]].
Defined.

(** X14.  A request that does not present [ADMIN_TOKEN] (neither as query
    token, nor as [x-admin-token], nor as ["Bearer "] followed by the
    token) reaches no handler: each of the six routes answers 401, or 500
    when the token is not configured, and the table, the entropy source
    and the pools are left as they were. *)
Theorem no_credential_no_effect `{CryptoLib} (env : gmap string string)
    (req : request) (g : rng) (generated : gmap string jsval)
    (table : list (gmap string jsval)) :
  (forall t, env !! "ADMIN_TOKEN" = Some t ->
     prop (req_query req) "token" <> JStr t
     /\ req_headers req !! "x-admin-token" <> Some t
     /\ req_headers req !! "authorization" <> Some ("Bearer " ++ t)) ->
  exists status code,
    (status = 401 \/ status = 500)
    /\ POST_project env req g generated table = (Denied status code, table, g, [])
    /\ PUT_project env req g table = (Denied status code, table, g)
    /\ DELETE_project env req table = (Denied status code, table, [])
    /\ POST_project_test env req table = Denied status code
    /\ POST_project_init env req table = Denied status code
    /\ GET_project_health env req table = Denied status code.
Proof.
  intros Hno.
  assert (Hd : requireAdminToken env req <> Next).
  { intros (t & Ha & Ht & Hp)%requireAdminToken_presented.
    apply (presented_token_cases req t Ht) in Hp.
    destruct (Hno t Ha) as (Hq & Hh & Hb).
    destruct Hp as [E | [[_ E] | (_ & _ & E & _)]]; contradiction. }
  unfold POST_project, PUT_project, DELETE_project, POST_project_test,
    POST_project_init, GET_project_health.
  destruct (requireAdminToken_responses env req) as [[_ E] | [_ [E | E]]];
    [| contradiction |]; rewrite E.
  - exists 500, "ADMIN_TOKEN_NOT_CONFIGURED". repeat split. now right.
  - exists 401, "UNAUTHORIZED". repeat split. now left.
Qed.

Lemma no_credential_no_effect_witness :
  exists status code,
    (status = 401 \/ status = 500)
    /\ POST_project sample_env double_space_request sample_rng generated_columns
         sample_table
       = (Denied status code, sample_table, sample_rng, [])
    /\ PUT_project sample_env double_space_request sample_rng sample_table
       = (Denied status code, sample_table, sample_rng)
    /\ DELETE_project sample_env double_space_request sample_table
       = (Denied status code, sample_table, [])
    /\ POST_project_test sample_env double_space_request sample_table
       = Denied status code
    /\ POST_project_init sample_env double_space_request sample_table
       = Denied status code
    /\ GET_project_health sample_env double_space_request sample_table
       = Denied status code.
Proof.
  apply (no_credential_no_effect sample_env double_space_request sample_rng
           generated_columns sample_table).
  intros t [= <-]. repeat split; discriminate.
Defined.

(** ** Creating a project *)

Lemma js_or_default (v d : jsval) :
  truthy d = true -> param [js_or v d] 1 = js_or v d.
Proof.
  intros Hd. unfold js_or. destruct (truthy v) eqn:Hv.
  - destruct v; try reflexivity; discriminate Hv.
  - destruct d; try reflexivity; discriminate Hd.
Qed.

(** The row [POST /projects] inserts, column by column. *)
Lemma assign_insert_columns (body generated : gmap string jsval)
    (stored : jsval) :
  stored <> JUndefined ->
  let r :=
    assign
      [prop body "project_id"; prop body "project_name"; prop body "db_host";
       js_or (prop body "db_port") (JNum 5432); prop body "db_name";
       prop body "db_user"; stored;
       js_or (prop body "table_prefix") (JStr "analytics_")]
      generated insert_columns in
  r !! "db_password_encrypted" = Some stored
  /\ r !! "db_port" = Some (js_or (prop body "db_port") (JNum 5432))
  /\ r !! "table_prefix"
     = Some (js_or (prop body "table_prefix") (JStr "analytics_"))
  /\ (forall c, c ∈ ["project_id"; "project_name"; "db_host"; "db_name"; "db_user"] ->
      r !! c = Some (param [prop body c] 1))
  /\ (forall c, c ∉ inserted_columns -> r !! c = generated !! c).
Proof.
  intros Hs r. unfold r, assign. cbn [insert_columns foldl fst snd].
  split; [| split; [| split; [| split]]].
  - lookup_inserts. destruct stored; try reflexivity. contradiction.
  - lookup_inserts. f_equal. now apply (js_or_default _ (JNum 5432)).
  - lookup_inserts. f_equal. now apply (js_or_default _ (JStr "analytics_")).
  - intros c Hc.
    repeat (apply elem_of_cons in Hc as [-> | Hc]; [lookup_inserts; reflexivity |]).
    now apply elem_of_nil in Hc.
  - intros c Hc. unfold inserted_columns in Hc.
    repeat (apply not_elem_of_cons in Hc as [? Hc]).
    lookup_inserts. reflexivity.
Qed.

Lemma id_not_inserted : "id" ∉ inserted_columns.
Proof.
  unfold inserted_columns.
  repeat (apply not_elem_of_cons; split; [discriminate |]).
  apply not_elem_of_nil.
Qed.

Section ProjectLaws.
Context `{CryptoLib}.
Variable env : gmap string string.

(** What [create_project] does with a password that is a string, and
    with none. *)
Lemma create_project_runs (req : request) (g : rng)
    (generated : gmap string jsval) (table : list (gmap string jsval)) :
  truthy (master_key env) = true ->
  (truthy (prop (req_body req) "db_password") = false
   \/ exists x, prop (req_body req) "db_password" = JStr x) ->
  exists stored g',
    create_project env req g generated table
    = (let r :=
         assign
           [prop (req_body req) "project_id"; prop (req_body req) "project_name";
            prop (req_body req) "db_host";
            js_or (prop (req_body req) "db_port") (JNum 5432);
            prop (req_body req) "db_name"; prop (req_body req) "db_user"; stored;
            js_or (prop (req_body req) "table_prefix") (JStr "analytics_")]
           generated insert_columns in
       (Json 201 (Some r), (table ++ [r])%list, g',
        [ReloadProject (prop (req_body req) "project_id")]))
    /\ stored <> JUndefined
    /\ if truthy (prop (req_body req) "db_password")
       then exists envelope,
              stored = JStr envelope
              /\ encrypt env (prop (req_body req) "db_password") g
                 = (Return envelope, g')
              /\ decrypt env (JStr envelope)
                 = Return (prop (req_body req) "db_password")
              /\ JStr envelope <> prop (req_body req) "db_password"
       else stored = JNull /\ g' = g.
Proof.
  intros Hk Hpw. unfold create_project.
  destruct (truthy (prop (req_body req) "db_password")) eqn:Ht.
  - destruct Hpw as [Hf | [x Hx]]; [discriminate |]. rewrite Hx in *.
    destruct (decrypt_encrypt_envelope env x g Hk) as (e & He & Hd).
    rewrite He. cbn [fmap result_fmap].
    exists (JStr e), (randomBytes 16 g).2. split; [reflexivity |].
    split; [discriminate |].
    exists e. repeat split; try assumption.
    intros [= ->].
    pose proof (envelope_longer env x x g _ Hk He). lia.
  - exists JNull, g. split; [reflexivity |]. split; [discriminate | now split].
Qed.

(** Under a configured key [decrypt] returns on every string and on every
    falsy value; what has no colon, and what is falsy, comes back as it
    is. *)
Lemma decrypt_returns (text : jsval) :
  truthy (master_key env) = true ->
  (truthy text = false \/ exists s, text = JStr s) ->
  exists v, decrypt env text = Return v
            /\ (truthy text = false -> v = text)
            /\ (forall s, text = JStr s -> includes ":" s = false -> v = text).
Proof.
  intros Hk Ht. unfold decrypt. rewrite Hk. cbn [negb].
  destruct (truthy text) eqn:E; cbn [negb].
  - destruct Ht as [Hf | [s ->]]; [discriminate |].
    destruct (includes ":" s) eqn:Hi; cbn [negb].
    + eexists. split; [reflexivity |]. split; [discriminate |].
      intros s' [= <-] Hi'. congruence.
    + exists (JStr s). now repeat split.
  - exists text. now repeat split.
Qed.

(** Whatever password it ends up with, [init_config] takes the other
    fields of the connection from the row. *)
Lemma init_config_fields (project : gmap string jsval) (cfg : db_config) :
  init_config env project = Return cfg ->
  host cfg = prop project "db_host" /\ port cfg = prop project "db_port"
  /\ database cfg = prop project "db_name" /\ user cfg = prop project "db_user".
Proof.
  unfold init_config.
  destruct (if truthy (prop project "db_password_encrypted")
            then decrypt env (prop project "db_password_encrypted")
            else Return JUndefined) as [v | e]; [| discriminate].
  cbn. intros [= <-]. now repeat split.
Qed.

(** The configuration initialised from a row that stores the envelope of
    a non-empty password [x]. *)
Lemma init_config_of_envelope (project : gmap string jsval)
    (x envelope : string) (g g' : rng) :
  truthy (master_key env) = true -> x <> "" ->
  encrypt env (JStr x) g = (Return envelope, g') ->
  prop project "db_password_encrypted" = JStr envelope ->
  init_config env project
  = Return {| host := prop project "db_host"; port := prop project "db_port";
              database := prop project "db_name"; user := prop project "db_user";
              password := JStr x |}.
Proof.
  intros Hk Hne He Hs.
  destruct (stored_envelope_configs env project x envelope g g' Hk Hne He Hs)
    as (_ & _ & Hp & _).
  destruct (init_config env project) as [cfg | e] eqn:Hcfg; [| discriminate Hp].
  destruct (init_config_fields project cfg Hcfg) as (Hh & Hpo & Hdb & Hu).
  cbn [fmap result_fmap] in Hp. injection Hp as Hp.
  destruct cfg as [h po db u pw]. cbn [host port database user password] in *.
  now rewrite Hh, Hpo, Hdb, Hu, Hp.
Qed.

End ProjectLaws.

(** X15.  [POST /projects], for an admitted request whose [db_password] is
    a string or is absent.  One row is appended and returned with status
    201, and [reloadProject] is called with the [project_id] of the body.
    The row never stores the password itself: it stores an envelope that
    decrypts to it, or [NULL] (drawing no entropy) when the password is
    absent or empty.  [db_port] is 5432 and [table_prefix] is
    ['analytics_'] when the body's value is absent or falsy, [0] and [""]
    included; the other five columns hold the body's values, and the
    remaining columns what the database generates. *)
Theorem create_project_row `{CryptoLib} (env : gmap string string)
    (req : request) (g : rng) (generated : gmap string jsval)
    (table : list (gmap string jsval)) :
  requireAdminToken env req = Next ->
  (truthy (prop (req_body req) "db_password") = false
   \/ exists x, prop (req_body req) "db_password" = JStr x) ->
  exists r stored g',
    POST_project env req g generated table
    = (Json 201 (Some r), (table ++ [r])%list, g',
       [ReloadProject (prop (req_body req) "project_id")])
    /\ r !! "db_password_encrypted" = Some stored
    /\ (if truthy (prop (req_body req) "db_password")
        then exists envelope,
               stored = JStr envelope
               /\ decrypt env (JStr envelope)
                  = Return (prop (req_body req) "db_password")
               /\ JStr envelope <> prop (req_body req) "db_password"
        else stored = JNull /\ g' = g)
    /\ r !! "db_port" = Some (js_or (prop (req_body req) "db_port") (JNum 5432))
    /\ r !! "table_prefix"
       = Some (js_or (prop (req_body req) "table_prefix") (JStr "analytics_"))
    /\ (forall c, c ∈ ["project_id"; "project_name"; "db_host"; "db_name"; "db_user"] ->
        r !! c = Some (param [prop (req_body req) c] 1))
    /\ (forall c, c ∉ inserted_columns -> r !! c = generated !! c).
Proof.
  intros Hadm Hpw. unfold POST_project. rewrite Hadm.
  pose proof (admitted_configures_master_key env req Hadm) as Hk.
  destruct (create_project_runs env req g generated table Hk Hpw)
    as (stored & g' & Hc & Hs & Hst).
  rewrite Hc. cbv zeta.
  destruct (assign_insert_columns (req_body req) generated stored Hs)
    as (H1 & H2 & H3 & H4 & H5).
  eexists _, stored, g'. split; [reflexivity |].
  split; [exact H1 |]. split.
  { destruct (truthy (prop (req_body req) "db_password")); [| exact Hst].
    destruct Hst as (e & ? & _ & ? & ?). now exists e. }
  now repeat split.
Qed.

Lemma create_project_row_witness :
  exists r stored g',
    POST_project sample_env create_request sample_rng generated_columns
      sample_table
    = (Json 201 (Some r), (sample_table ++ [r])%list, g',
       [ReloadProject (prop (req_body create_request) "project_id")])
    /\ r !! "db_password_encrypted" = Some stored
    /\ (if truthy (prop (req_body create_request) "db_password")
        then exists envelope,
               stored = JStr envelope
               /\ decrypt sample_env (JStr envelope)
                  = Return (prop (req_body create_request) "db_password")
               /\ JStr envelope <> prop (req_body create_request) "db_password"
        else stored = JNull /\ g' = sample_rng)
    /\ r !! "db_port"
       = Some (js_or (prop (req_body create_request) "db_port") (JNum 5432))
    /\ r !! "table_prefix"
       = Some (js_or (prop (req_body create_request) "table_prefix")
                 (JStr "analytics_"))
    /\ (forall c, c ∈ ["project_id"; "project_name"; "db_host"; "db_name"; "db_user"] ->
        r !! c = Some (param [prop (req_body create_request) c] 1))
    /\ (forall c, c ∉ inserted_columns -> r !! c = generated_columns !! c).
Proof.
  apply (create_project_row sample_env create_request sample_rng
           generated_columns sample_table).
  - reflexivity.
  - right. exists "pg-password". reflexivity.
Defined.

Lemma select_by_id_app (id : jsval) (t1 t2 : list (gmap string jsval)) :
  select_by_id id (t1 ++ t2) = (select_by_id id t1 ++ select_by_id id t2)%list.
Proof. unfold select_by_id. apply filter_app. Qed.

Lemma select_by_id_one (id : jsval) (r : gmap string jsval) :
  select_by_id id [r]
  = if sql_eq (prop r "id") (param [id] 1) then [r] else [].
Proof.
  unfold select_by_id. rewrite filter_cons, filter_nil.
  destruct (sql_eq (prop r "id") (param [id] 1)) eqn:E.
  - now rewrite decide_True.
  - now rewrite decide_False by congruence.
Qed.

(** X16.  A project created with a non-empty password can be initialised
    with it.  When the [id] the database gave the new row is the one an
    admitted [POST /projects/:id/init] asks for, and no older row has it,
    the initialisation is called with the password of the creation, in
    the clear, with host, database and user as created, and with port
    5432 when the creation gave none. *)
Theorem create_then_init `{CryptoLib} (env : gmap string string)
    (create init : request) (g : rng) (generated : gmap string jsval)
    (table : list (gmap string jsval)) (x : string) :
  requireAdminToken env create = Next ->
  requireAdminToken env init = Next ->
  prop (req_body create) "db_password" = JStr x -> x <> "" ->
  sql_eq (prop generated "id") (param [prop (req_params init) "id"] 1) = true ->
  select_by_id (prop (req_params init) "id") table = [] ->
  POST_project_init env init (POST_project env create g generated table).1.1.2
  = InitializeProjectDatabase
      {| host := param [prop (req_body create) "db_host"] 1;
         port := js_or (prop (req_body create) "db_port") (JNum 5432);
         database := param [prop (req_body create) "db_name"] 1;
         user := param [prop (req_body create) "db_user"] 1;
         password := JStr x |}.
Proof.
  intros Hc Hi Hx Hne Hid Hfresh.
  pose proof (admitted_configures_master_key env create Hc) as Hk.
  unfold POST_project. rewrite Hc.
  destruct (create_project_runs env create g generated table Hk
              ltac:(right; now exists x)) as (stored & g' & Hrun & Hs & Hst).
  rewrite Hrun. cbv zeta. cbn [fst snd].
  rewrite Hx, (truthy_not_empty x Hne) in Hst.
  destruct Hst as (e & -> & He & Hd & Hex).
  destruct (assign_insert_columns (req_body create) generated (JStr e) Hs)
    as (H1 & H2 & H3 & H4 & H5).
  set (r := assign _ generated insert_columns) in *. clearbody r.
  assert (Hrid : prop r "id" = prop generated "id")
    by (unfold prop; now rewrite (H5 "id" id_not_inserted)).
  assert (Hre : prop r "db_password_encrypted" = JStr e)
    by (unfold prop; now rewrite H1).
  unfold POST_project_init. rewrite Hi.
  rewrite select_by_id_app, Hfresh, select_by_id_one, Hrid, Hid. cbn [app].
  rewrite (init_config_of_envelope env r x e g g' Hk Hne He Hre).
  cbn [mbind result_bind try_catch]. unfold prop.
  rewrite H2, (H4 "db_host"), (H4 "db_name"), (H4 "db_user")
    by (repeat constructor).
  reflexivity.
Qed.

Lemma create_then_init_witness :
  POST_project_init sample_env new_project_request
    (POST_project sample_env create_request sample_rng generated_columns
       sample_table).1.1.2
  = InitializeProjectDatabase
      {| host := param [prop (req_body create_request) "db_host"] 1;
         port := js_or (prop (req_body create_request) "db_port") (JNum 5432);
         database := param [prop (req_body create_request) "db_name"] 1;
         user := param [prop (req_body create_request) "db_user"] 1;
         password := JStr "pg-password" |}.
Proof.
  apply (create_then_init sample_env create_request new_project_request
           sample_rng generated_columns sample_table "pg-password");
    [reflexivity | reflexivity | reflexivity | discriminate
    | vm_compute; reflexivity | vm_compute; reflexivity].
Defined.

(** ** Deleting a project *)

Lemma filter_not_matching (id : jsval) (table : list (gmap string jsval)) :
  select_by_id id table = [] ->
  filter (fun r => sql_eq (prop r "id") (param [id] 1) = false) table = table.
Proof.
  unfold select_by_id. induction table as [| r table IH]; [reflexivity |].
  rewrite !filter_cons.
  destruct (sql_eq (prop r "id") (param [id] 1)) eqn:E.
  - rewrite decide_True by reflexivity. discriminate.
  - rewrite decide_False by congruence. rewrite decide_True by reflexivity.
    intros Hs. now rewrite IH.
Qed.

Lemma select_after_delete (id : jsval) (table : list (gmap string jsval)) :
  select_by_id id (run_delete id table).1 = [].
Proof.
  unfold select_by_id, run_delete. cbn [fst].
  induction table as [| r table IH]; [reflexivity |].
  rewrite filter_cons.
  destruct (sql_eq (prop r "id") (param [id] 1)) eqn:E.
  - rewrite decide_False by congruence. exact IH.
  - rewrite decide_True by reflexivity. rewrite filter_cons.
    rewrite decide_False by congruence. exact IH.
Qed.

(** X17.  [DELETE /projects/:id], for an admitted request.  The table
    loses exactly the rows whose [id] matches and keeps the others in
    order.  When no row matches the answer is 404, the table is
    unchanged and no pool is closed; otherwise the answer is 200 and
    [closePool] is called once, with the [project_id] of the first row
    deleted.  Afterwards the connection test, the initialisation and the
    health check of the same [id] answer 404. *)
Theorem delete_project_removes `{CryptoLib} (env : gmap string string)
    (req : request) (table : list (gmap string jsval)) :
  requireAdminToken env req = Next ->
  let id := prop (req_params req) "id" in
  exists out table' effects,
    DELETE_project env req table = (out, table', effects)
    /\ table' = filter (fun r => sql_eq (prop r "id") (param [id] 1) = false) table
    /\ match select_by_id id table with
       | [] => out = Json 404 None /\ table' = table /\ effects = []
       | r :: _ =>
           out = Json 200 None
           /\ effects = [ClosePool (default JNull (r !! "project_id"))]
       end
    /\ POST_project_test env req table' = Json 404 None
    /\ POST_project_init env req table' = Json 404 None
    /\ GET_project_health env req table' = Json 404 None.
Proof.
  intros Hadm id.
  unfold DELETE_project, delete_project, POST_project_test, POST_project_init,
    GET_project_health.
  rewrite Hadm. fold id.
  pose proof (select_after_delete id table) as Hsel.
  unfold run_delete in *. cbn [fst] in Hsel. fold (select_by_id id table).
  destruct (select_by_id id table) as [| r rest] eqn:Es; cbn [map].
  - do 3 eexists. split; [reflexivity |]. split; [reflexivity |].
    split; [now rewrite (filter_not_matching id table Es) |].
    now rewrite Hsel.
  - do 3 eexists. split; [reflexivity |]. split; [reflexivity |].
    split.
    { split; [reflexivity |]. unfold prop. now rewrite lookup_insert_eq. }
    now rewrite Hsel.
Qed.

Lemma delete_project_removes_witness :
  let id := prop (req_params sample_request) "id" in
  exists out table' effects,
    DELETE_project sample_env sample_request sample_table = (out, table', effects)
    /\ table'
       = filter (fun r => sql_eq (prop r "id") (param [id] 1) = false) sample_table
    /\ match select_by_id id sample_table with
       | [] => out = Json 404 None /\ table' = sample_table /\ effects = []
       | r :: _ =>
           out = Json 200 None
           /\ effects = [ClosePool (default JNull (r !! "project_id"))]
       end
    /\ POST_project_test sample_env sample_request table' = Json 404 None
    /\ POST_project_init sample_env sample_request table' = Json 404 None
    /\ GET_project_health sample_env sample_request table' = Json 404 None.
Proof.
  apply (delete_project_removes sample_env sample_request sample_table).
  reflexivity.
Defined.

(** X18.  Deleting what was just created restores the table.  When the
    [id] given to the new row is the one an admitted
    [DELETE /projects/:id] asks for, and no older row has it, the delete
    answers 200, the table is the one before the creation, and the pool
    closed is that of the [project_id] the creation was given. *)
Theorem create_then_delete `{CryptoLib} (env : gmap string string)
    (create delete : request) (g : rng) (generated : gmap string jsval)
    (table : list (gmap string jsval)) :
  requireAdminToken env create = Next ->
  requireAdminToken env delete = Next ->
  (truthy (prop (req_body create) "db_password") = false
   \/ exists x, prop (req_body create) "db_password" = JStr x) ->
  sql_eq (prop generated "id") (param [prop (req_params delete) "id"] 1) = true ->
  select_by_id (prop (req_params delete) "id") table = [] ->
  DELETE_project env delete (POST_project env create g generated table).1.1.2
  = (Json 200 None, table,
     [ClosePool (param [prop (req_body create) "project_id"] 1)]).
Proof.
  intros Hc Hd Hpw Hid Hfresh.
  pose proof (admitted_configures_master_key env create Hc) as Hk.
  unfold POST_project. rewrite Hc.
  destruct (create_project_runs env create g generated table Hk Hpw)
    as (stored & g' & Hrun & Hs & _).
  rewrite Hrun. cbv zeta. cbn [fst snd].
  destruct (assign_insert_columns (req_body create) generated stored Hs)
    as (_ & _ & _ & H4 & H5).
  set (r := assign _ generated insert_columns) in *. clearbody r.
  assert (Hrid : prop r "id" = prop generated "id")
    by (unfold prop; now rewrite (H5 "id" id_not_inserted)).
  unfold DELETE_project, delete_project, run_delete. rewrite Hd.
  rewrite !filter_app, (filter_not_matching _ table Hfresh).
  fold (select_by_id (prop (req_params delete) "id") table). rewrite Hfresh.
  rewrite !filter_cons, !filter_nil, Hrid, Hid.
  rewrite (decide_True (P := true = true)) by reflexivity.
  rewrite (decide_False (P := true = false)) by congruence.
  cbn [app map]. rewrite app_nil_r.
  unfold prop at 1. rewrite lookup_insert_eq. cbn [default].
  rewrite (H4 "project_id") by (repeat constructor). reflexivity.
Qed.

Lemma create_then_delete_witness :
  DELETE_project sample_env new_project_request
    (POST_project sample_env create_request sample_rng generated_columns
       sample_table).1.1.2
  = (Json 200 None, sample_table,
     [ClosePool (param [prop (req_body create_request) "project_id"] 1)]).
Proof.
  apply (create_then_delete sample_env create_request new_project_request
           sample_rng generated_columns sample_table);
    [reflexivity | reflexivity | right; exists "pg-password"; reflexivity
    | vm_compute; reflexivity | vm_compute; reflexivity].
Defined.

(** ** Updating a project, once more *)

Lemma assign_other (params : list jsval) (cols : list (string * nat))
    (r : gmap string jsval) (c : string) :
  c ∉ cols.*1 -> assign params r cols !! c = r !! c.
Proof.
  unfold assign. revert r. induction cols as [| [k n] cols IH]; intros r Hc.
  - reflexivity.
  - cbn [foldl fst snd]. rewrite fmap_cons in Hc.
    apply not_elem_of_cons in Hc as [Hk Hc]. cbn [fst] in Hk.
    rewrite (IH _ Hc). now rewrite lookup_insert_ne.
Qed.

(** An update that does not write the [id] column returns, and selects
    afterwards, the rows it matched, updated; it changes no [id], and
    nothing at all when it matches no row. *)
Lemma run_update_select (q : update_statement) (params : list jsval)
    (table : list (gmap string jsval)) (id : jsval) :
  "id" ∉ (set_clause q).*1 ->
  param params (where_id q) = param [id] 1 ->
  select_by_id id (run_update q params table).1
  = map (fun r => assign params r (set_clause q)) (select_by_id id table)
  /\ (run_update q params table).2
     = map (fun r => assign params r (set_clause q)) (select_by_id id table)
  /\ (select_by_id id table = [] -> (run_update q params table).1 = table)
  /\ map (fun r => r !! "id") (run_update q params table).1
     = map (fun r => r !! "id") table.
Proof.
  intros Hid Hw. unfold run_update, select_by_id, matches. cbn [fst snd].
  rewrite Hw. split; [| split; [reflexivity | split]].
  - assert (Hm : forall r,
              sql_eq (prop (if sql_eq (prop r "id") (param [id] 1)
                            then assign params r (set_clause q) else r) "id")
                (param [id] 1)
              = sql_eq (prop r "id") (param [id] 1)).
    { intros r. destruct (sql_eq (prop r "id") (param [id] 1)) eqn:E; [| exact E].
      unfold prop. rewrite assign_other by exact Hid. exact E. }
    induction table as [| r table IH]; [reflexivity |].
    cbn [map]. rewrite !filter_cons, Hm.
    destruct (decide (sql_eq (prop r "id") (param [id] 1) = true)) as [E | E].
    + cbn [map]. rewrite E. now rewrite IH.
    + exact IH.
  - induction table as [| r table IH]; [reflexivity |].
    cbn [map]. rewrite filter_cons.
    destruct (sql_eq (prop r "id") (param [id] 1)) eqn:E.
    + rewrite decide_True by reflexivity. discriminate.
    + rewrite decide_False by congruence. intros Hs. now rewrite IH.
  - induction table as [| r table IH]; [reflexivity |].
    cbn [map]. rewrite IH. f_equal.
    destruct (sql_eq (prop r "id") (param [id] 1)); [| reflexivity].
    now apply assign_other.
Qed.

Lemma update_with_password_id : "id" ∉ (set_clause update_with_password).*1.
Proof.
  cbn. repeat (apply not_elem_of_cons; split; [discriminate |]).
  apply not_elem_of_nil.
Qed.

Lemma update_without_password_id : "id" ∉ (set_clause update_without_password).*1.
Proof.
  cbn. repeat (apply not_elem_of_cons; split; [discriminate |]).
  apply not_elem_of_nil.
Qed.

Section UpdateLaws.
Context `{CryptoLib}.
Variable env : gmap string string.

(** [update_project] passes an error on, or runs one statement that does
    not write the [id] column and whose [WHERE] reads the [id] of the
    request. *)
Lemma update_project_ran (req : request) (g : rng)
    (table : list (gmap string jsval)) :
  (exists e g', update_project env req g table = (NextError e, table, g'))
  \/ (exists q params g',
        ("id" ∉ (set_clause q).*1)
        /\ param params (where_id q) = param [prop (req_params req) "id"] 1
        /\ update_project env req g table
           = (match (run_update q params table).2 with
              | r :: _ => Json 200 (Some r)
              | [] => Json 404 None
              end, (run_update q params table).1, g')).
Proof.
  unfold update_project.
  destruct (if truthy (prop (req_body req) "db_password")
            then let '(r, g') := encrypt env (prop (req_body req) "db_password") g in
                 (JStr <$> r, g')
            else (Return JNull, g)) as [[v | e] g'] eqn:E.
  - right. destruct (truthy v) eqn:Hv.
    + exists update_with_password,
        [prop (req_body req) "project_name"; prop (req_body req) "db_host";
         prop (req_body req) "db_port"; prop (req_body req) "db_name";
         prop (req_body req) "db_user"; v;
         prop (req_body req) "table_prefix"; prop (req_body req) "is_active";
         prop (req_params req) "id"], g'.
      split; [apply update_with_password_id |]. split; [reflexivity |].
      destruct (run_update _ _ table) as [t' [| r rows]]; reflexivity.
    + exists update_without_password,
        [prop (req_body req) "project_name"; prop (req_body req) "db_host";
         prop (req_body req) "db_port"; prop (req_body req) "db_name";
         prop (req_body req) "db_user";
         prop (req_body req) "table_prefix"; prop (req_body req) "is_active";
         prop (req_params req) "id"], g'.
      split; [apply update_without_password_id |]. split; [reflexivity |].
      destruct (run_update _ _ table) as [t' [| r rows]]; reflexivity.
  - left. now exists e, g'.
Qed.

(** After an update with a non-empty string password, the rows of the
    [id] are the rows it had, updated with the envelope of the password. *)
Lemma update_project_selects (req : request) (g : rng)
    (table : list (gmap string jsval)) (x : string) :
  truthy (master_key env) = true ->
  prop (req_body req) "db_password" = JStr x -> x <> "" ->
  exists envelope g',
    encrypt env (JStr x) g = (Return envelope, g')
    /\ select_by_id (prop (req_params req) "id")
         (update_project env req g table).1.2
       = map (fun r =>
                assign
                  [prop (req_body req) "project_name"; prop (req_body req) "db_host";
                   prop (req_body req) "db_port"; prop (req_body req) "db_name";
                   prop (req_body req) "db_user"; JStr envelope;
                   prop (req_body req) "table_prefix";
                   prop (req_body req) "is_active"; prop (req_params req) "id"]
                  r (set_clause update_with_password))
           (select_by_id (prop (req_params req) "id") table).
Proof.
  intros Hk Hx Hne.
  destruct (decrypt_encrypt_envelope env x g Hk) as (e & He & _).
  pose proof (envelope_longer env x e g _ Hk He) as Hlen.
  assert (Hte : truthy (JStr e) = true)
    by (destruct e; [cbn in Hlen; lia | reflexivity]).
  exists e, (randomBytes 16 g).2. split; [exact He |].
  destruct (run_update_select update_with_password
              [prop (req_body req) "project_name"; prop (req_body req) "db_host";
               prop (req_body req) "db_port"; prop (req_body req) "db_name";
               prop (req_body req) "db_user"; JStr e;
               prop (req_body req) "table_prefix"; prop (req_body req) "is_active";
               prop (req_params req) "id"] table
              (prop (req_params req) "id") update_with_password_id eq_refl)
    as (<- & _).
  f_equal. unfold update_project.
  rewrite Hx, (truthy_not_empty x Hne), He.
  cbn [fmap result_fmap]. rewrite Hte.
  destruct (run_update _ _ table) as [t' [| r rows]]; reflexivity.
Qed.

(** The configuration initialised from a row so updated. *)
Lemma init_config_after_update (body : gmap string jsval) (id : jsval)
    (r : gmap string jsval) (x envelope : string) (g g' : rng) :
  truthy (master_key env) = true -> x <> "" ->
  encrypt env (JStr x) g = (Return envelope, g') ->
  init_config env
    (assign
       [prop body "project_name"; prop body "db_host"; prop body "db_port";
        prop body "db_name"; prop body "db_user"; JStr envelope;
        prop body "table_prefix"; prop body "is_active"; id]
       r (set_clause update_with_password))
  = Return {| host := param [prop body "db_host"] 1;
              port := param [prop body "db_port"] 1;
              database := param [prop body "db_name"] 1;
              user := param [prop body "db_user"] 1;
              password := JStr x |}.
Proof.
  intros Hk Hne He.
  destruct (assign_with_password body id envelope r) as (Hcols & Hpw & _).
  set (r' := assign _ r (set_clause update_with_password)) in *. clearbody r'.
  assert (Hre : prop r' "db_password_encrypted" = JStr envelope)
    by (unfold prop; now rewrite Hpw).
  rewrite (init_config_of_envelope env r' x envelope g g' Hk Hne He Hre).
  unfold prop.
  rewrite (Hcols "db_host"), (Hcols "db_port"), (Hcols "db_name"),
    (Hcols "db_user") by (repeat constructor).
  reflexivity.
Qed.

(** After an update without password, the rows of the [id] are the rows
    it had, updated; the first of them is the row returned. *)
Lemma update_project_selects_without (req : request) (g : rng)
    (table : list (gmap string jsval)) :
  truthy (prop (req_body req) "db_password") = false ->
  let updated :=
    map (fun r =>
           assign
             [prop (req_body req) "project_name"; prop (req_body req) "db_host";
              prop (req_body req) "db_port"; prop (req_body req) "db_name";
              prop (req_body req) "db_user"; prop (req_body req) "table_prefix";
              prop (req_body req) "is_active"; prop (req_params req) "id"]
             r (set_clause update_without_password))
      (select_by_id (prop (req_params req) "id") table) in
  select_by_id (prop (req_params req) "id") (update_project env req g table).1.2
  = updated
  /\ (update_project env req g table).1.1
     = match updated with
       | r :: _ => Json 200 (Some r)
       | [] => Json 404 None
       end
  /\ (update_project env req g table).2 = g.
Proof.
  intros Hpw updated.
  destruct (run_update_select update_without_password
              [prop (req_body req) "project_name"; prop (req_body req) "db_host";
               prop (req_body req) "db_port"; prop (req_body req) "db_name";
               prop (req_body req) "db_user"; prop (req_body req) "table_prefix";
               prop (req_body req) "is_active"; prop (req_params req) "id"] table
              (prop (req_params req) "id") update_without_password_id eq_refl)
    as (Hs & Hr & _).
  fold updated in Hs, Hr. clearbody updated.
  unfold update_project. rewrite Hpw. cbn [truthy].
  destruct (run_update _ _ table) as [t' rows]. cbn [fst snd] in Hs, Hr.
  subst rows. destruct updated; now repeat split.
Qed.

End UpdateLaws.

(** X19.  [PUT /projects/:id] never adds or removes a row and never
    changes an [id], whatever the request.  When no row has the [id] of
    the request the table is left exactly as it was, and the answer is
    404, unless the request was denied or [encrypt] threw. *)
Theorem update_project_keeps_rows `{CryptoLib} (env : gmap string string)
    (req : request) (g : rng) (table : list (gmap string jsval)) :
  let after := PUT_project env req g table in
  map (fun r => r !! "id") after.1.2 = map (fun r => r !! "id") table
  /\ (select_by_id (prop (req_params req) "id") table = [] ->
      after.1.2 = table
      /\ (after.1.1 = Json 404 None
          \/ (exists e, after.1.1 = NextError e)
          \/ (exists status code, after.1.1 = Denied status code))).
Proof.
  intros after. unfold after, PUT_project.
  destruct (requireAdminToken env req) as [| status code].
  - destruct (update_project_ran env req g table)
      as [(e & g' & ->) | (q & params & g' & Hid & Hw & ->)]; cbn [fst snd].
    + split; [reflexivity |]. intros _. split; [reflexivity |].
      right; left. now exists e.
    + destruct (run_update_select q params table _ Hid Hw) as (_ & Hr & Hn & Hids).
      split; [exact Hids |]. intros Hs. split; [now apply Hn |].
      left. rewrite Hr, Hs. reflexivity.
  - cbn [fst snd]. split; [reflexivity |]. intros _. split; [reflexivity |].
    right; right. now exists status, code.
Qed.

(** X20.  After an admitted [PUT /projects/:id] with a non-empty string
    password on the [id] of an existing row, an admitted
    [POST /projects/:id/init] of the same [id] initialises with that
    password, in the clear, and with the host, port, database and user of
    the update; a field the update left out is [NULL]. *)
Theorem update_then_init `{CryptoLib} (env : gmap string string)
    (update init : request) (g : rng) (table rest : list (gmap string jsval))
    (r : gmap string jsval) (x : string) :
  requireAdminToken env update = Next ->
  requireAdminToken env init = Next ->
  prop (req_params init) "id" = prop (req_params update) "id" ->
  prop (req_body update) "db_password" = JStr x -> x <> "" ->
  select_by_id (prop (req_params update) "id") table = r :: rest ->
  POST_project_init env init (PUT_project env update g table).1.2
  = InitializeProjectDatabase
      {| host := param [prop (req_body update) "db_host"] 1;
         port := param [prop (req_body update) "db_port"] 1;
         database := param [prop (req_body update) "db_name"] 1;
         user := param [prop (req_body update) "db_user"] 1;
         password := JStr x |}.
Proof.
  intros Hu Hi Hid Hx Hne Hsel.
  pose proof (admitted_configures_master_key env update Hu) as Hk.
  unfold PUT_project, POST_project_init. rewrite Hu, Hi, Hid.
  destruct (update_project_selects env update g table x Hk Hx Hne)
    as (e & g' & He & ->).
  rewrite Hsel. cbn [map].
  rewrite (init_config_after_update env (req_body update) _ r x e g g' Hk Hne He).
  reflexivity.
Qed.

Lemma update_then_init_witness :
  POST_project_init sample_env sample_request
    (PUT_project sample_env (password_update_request (JStr "n3w")) sample_rng
       sample_table).1.2
  = InitializeProjectDatabase
      {| host := param [prop (req_body (password_update_request (JStr "n3w")))
                          "db_host"] 1;
         port := param [prop (req_body (password_update_request (JStr "n3w")))
                          "db_port"] 1;
         database := param [prop (req_body (password_update_request (JStr "n3w")))
                              "db_name"] 1;
         user := param [prop (req_body (password_update_request (JStr "n3w")))
                          "db_user"] 1;
         password := JStr "n3w" |}.
Proof.
  apply (update_then_init sample_env (password_update_request (JStr "n3w"))
           sample_request sample_rng sample_table [] sample_tenant "n3w");
    [reflexivity | reflexivity | reflexivity | reflexivity | discriminate
    | vm_compute; reflexivity].
Defined.

(** X21.  A client that sends the stored [db_password_encrypted] back as
    [db_password] has it encrypted once more.  Before such an update the
    initialisation connects with the password [x]; after it, it connects
    with the envelope of [x], which is not [x]. *)
Theorem resubmitted_envelope_is_encrypted_again `{CryptoLib}
    (env : gmap string string) (update init : request) (g0 g0' g : rng)
    (table rest : list (gmap string jsval)) (r : gmap string jsval)
    (x envelope : string) :
  requireAdminToken env update = Next ->
  requireAdminToken env init = Next ->
  prop (req_params init) "id" = prop (req_params update) "id" ->
  x <> "" ->
  encrypt env (JStr x) g0 = (Return envelope, g0') ->
  select_by_id (prop (req_params update) "id") table = r :: rest ->
  prop r "db_password_encrypted" = JStr envelope ->
  prop (req_body update) "db_password" = JStr envelope ->
  (exists cfg, POST_project_init env init table = InitializeProjectDatabase cfg
               /\ password cfg = JStr x)
  /\ (exists cfg,
        POST_project_init env init (PUT_project env update g table).1.2
        = InitializeProjectDatabase cfg
        /\ password cfg = JStr envelope)
  /\ JStr envelope <> JStr x.
Proof.
  intros Hu Hi Hid Hne He Hsel Hst Hpw.
  pose proof (admitted_configures_master_key env update Hu) as Hk.
  pose proof (envelope_longer env x envelope g0 g0' Hk He) as Hlen.
  assert (Hee : envelope <> "") by (intros ->; cbn in Hlen; lia).
  split; [| split].
  - unfold POST_project_init. rewrite Hi, Hid, Hsel.
    rewrite (init_config_of_envelope env r x envelope g0 g0' Hk Hne He Hst).
    eexists. split; reflexivity.
  - unfold PUT_project, POST_project_init. rewrite Hu, Hi, Hid.
    destruct (update_project_selects env update g table envelope Hk Hpw Hee)
      as (e & g' & He' & ->).
    rewrite Hsel. cbn [map].
    rewrite (init_config_after_update env (req_body update) _ r envelope e g g'
               Hk Hee He').
    eexists. split; reflexivity.
  - intros [= ->]. lia.
Qed.

Lemma resubmitted_envelope_is_encrypted_again_witness :
  (exists cfg, POST_project_init sample_env sample_request sample_table
               = InitializeProjectDatabase cfg
               /\ password cfg = JStr "pg-password")
  /\ (exists cfg,
        POST_project_init sample_env sample_request
          (PUT_project sample_env (password_update_request (JStr sample_envelope))
             sample_rng sample_table).1.2
        = InitializeProjectDatabase cfg
        /\ password cfg = JStr sample_envelope)
  /\ JStr sample_envelope <> JStr "pg-password".
Proof.
  apply (resubmitted_envelope_is_encrypted_again sample_env
           (password_update_request (JStr sample_envelope)) sample_request
           sample_rng (randomBytes 16 sample_rng).2 sample_rng
           sample_table [] sample_tenant "pg-password" sample_envelope);
    [reflexivity | reflexivity | reflexivity | discriminate
    | vm_compute; reflexivity | vm_compute; reflexivity
    | reflexivity | reflexivity].
Defined.

(** X22.  An update that carries no password keeps the project usable.
    After an admitted [PUT /projects/:id] without [db_password] on a row
    that stores the envelope of a password [x], the answer is 200 with
    the updated row, which still stores that envelope, no entropy is
    drawn, and [POST /projects/:id/init] of the same [id] initialises
    with [x] and with the host, port, database and user of the update. *)
Theorem update_without_password_keeps_it `{CryptoLib} (env : gmap string string)
    (update init : request) (g0 g0' g : rng)
    (table rest : list (gmap string jsval)) (r : gmap string jsval)
    (x envelope : string) :
  requireAdminToken env update = Next ->
  requireAdminToken env init = Next ->
  prop (req_params init) "id" = prop (req_params update) "id" ->
  truthy (prop (req_body update) "db_password") = false ->
  select_by_id (prop (req_params update) "id") table = r :: rest ->
  x <> "" ->
  encrypt env (JStr x) g0 = (Return envelope, g0') ->
  r !! "db_password_encrypted" = Some (JStr envelope) ->
  (exists r',
     (PUT_project env update g table).1.1 = Json 200 (Some r')
     /\ r' !! "db_password_encrypted" = Some (JStr envelope))
  /\ (PUT_project env update g table).2 = g
  /\ POST_project_init env init (PUT_project env update g table).1.2
     = InitializeProjectDatabase
         {| host := param [prop (req_body update) "db_host"] 1;
            port := param [prop (req_body update) "db_port"] 1;
            database := param [prop (req_body update) "db_name"] 1;
            user := param [prop (req_body update) "db_user"] 1;
            password := JStr x |}.
Proof.
  intros Hu Hi Hid Hpw Hsel Hne He Hst.
  pose proof (admitted_configures_master_key env update Hu) as Hk.
  unfold PUT_project, POST_project_init. rewrite Hu, Hi, Hid.
  destruct (update_project_selects_without env update g table Hpw)
    as (-> & -> & ->).
  rewrite Hsel. cbn [map].
  destruct (assign_without_password (req_body update)
              (prop (req_params update) "id") r) as (Hcols & Hkeep & _).
  set (r' := assign _ r (set_clause update_without_password)) in *. clearbody r'.
  rewrite Hst in Hkeep.
  assert (Hre : prop r' "db_password_encrypted" = JStr envelope)
    by (unfold prop; now rewrite Hkeep).
  split; [now exists r' |]. split; [reflexivity |].
  rewrite (init_config_of_envelope env r' x envelope g0 g0' Hk Hne He Hre).
  cbn [mbind result_bind try_catch]. unfold prop.
  rewrite (Hcols "db_host"), (Hcols "db_port"), (Hcols "db_name"),
    (Hcols "db_user") by (repeat constructor).
  reflexivity.
Qed.

Lemma update_without_password_keeps_it_witness :
  (exists r',
     (PUT_project sample_env sample_request sample_rng sample_table).1.1
     = Json 200 (Some r')
     /\ r' !! "db_password_encrypted" = Some (JStr sample_envelope))
  /\ (PUT_project sample_env sample_request sample_rng sample_table).2 = sample_rng
  /\ POST_project_init sample_env sample_request
       (PUT_project sample_env sample_request sample_rng sample_table).1.2
     = InitializeProjectDatabase
         {| host := param [prop (req_body sample_request) "db_host"] 1;
            port := param [prop (req_body sample_request) "db_port"] 1;
            database := param [prop (req_body sample_request) "db_name"] 1;
            user := param [prop (req_body sample_request) "db_user"] 1;
            password := JStr "pg-password" |}.
Proof.
  apply (update_without_password_keeps_it sample_env sample_request sample_request
           sample_rng (randomBytes 16 sample_rng).2 sample_rng sample_table []
           sample_tenant "pg-password" sample_envelope);
    [reflexivity | reflexivity | reflexivity | reflexivity
    | vm_compute; reflexivity | discriminate | vm_compute; reflexivity
    | reflexivity].
Defined.

(** X23.  A [db_password] that is truthy but not a string (a number or
    [true] in the JSON body) makes [encrypt] throw a [TypeError]: both
    [POST /projects] and [PUT /projects/:id] pass it to [next], write
    nothing and reload nothing, though the 16 bytes of the IV have been
    drawn. *)
Theorem non_string_password_is_an_error `{CryptoLib} (env : gmap string string)
    (req : request) (g : rng) (generated : gmap string jsval)
    (table : list (gmap string jsval)) :
  requireAdminToken env req = Next ->
  truthy (prop (req_body req) "db_password") = true ->
  (forall s, prop (req_body req) "db_password" <> JStr s) ->
  exists msg,
    POST_project env req g generated table
    = (NextError (TypeError msg), table, (randomBytes 16 g).2, [])
    /\ PUT_project env req g table
       = (NextError (TypeError msg), table, (randomBytes 16 g).2)
    /\ PUT_project_effects env req g table = [].
Proof.
  intros Hadm Ht Hns.
  pose proof (admitted_configures_master_key env req Hadm) as Hk.
  unfold POST_project, PUT_project, PUT_project_effects, update_project_effects,
    create_project, update_project.
  rewrite Hadm, Ht. unfold encrypt. rewrite Hk. cbn [negb].
  destruct (randomBytes 16 g) as [iv g'] eqn:Er. cbn [snd].
  destruct (prop (req_body req) "db_password") as [| | b | z | s] eqn:Ep;
    try (eexists; repeat split; reflexivity).
  now contradiction (Hns s).
Qed.

Lemma non_string_password_is_an_error_witness :
  exists msg,
    POST_project sample_env (password_update_request (JNum 12345)) sample_rng
      generated_columns sample_table
    = (NextError (TypeError msg), sample_table, (randomBytes 16 sample_rng).2, [])
    /\ PUT_project sample_env (password_update_request (JNum 12345)) sample_rng
         sample_table
       = (NextError (TypeError msg), sample_table, (randomBytes 16 sample_rng).2)
    /\ PUT_project_effects sample_env (password_update_request (JNum 12345))
         sample_rng sample_table
       = [].
Proof.
  apply (non_string_password_is_an_error sample_env
           (password_update_request (JNum 12345)) sample_rng generated_columns
           sample_table);
    [reflexivity | reflexivity | intros s E; vm_compute in E; discriminate E].
Defined.

(** ** Initialisation against the connection test *)

(** X24.  As long as a row stores no envelope (its [db_password_encrypted]
    is absent or empty, or is a text without a colon, as written before
    passwords were encrypted), the initialisation builds the very
    configuration the connection test and the health check build: the
    three routes differ only on stored texts that hold a colon. *)
Theorem init_agrees_with_test_without_envelope `{CryptoLib}
    (env : gmap string string) (project : gmap string jsval) :
  truthy (master_key env) = true ->
  (truthy (prop project "db_password_encrypted") = false
   \/ exists s, prop project "db_password_encrypted" = JStr s
                /\ includes ":" s = false) ->
  init_config env project = Return (test_config env project)
  /\ health_config env project = test_config env project.
Proof.
  intros Hk Hs. split; [| reflexivity].
  unfold init_config, test_config.
  destruct (truthy (prop project "db_password_encrypted")) eqn:Et.
  - destruct Hs as [Hf | (s & Hs & Hi)]; [discriminate |].
    destruct (decrypt_returns env (prop project "db_password_encrypted") Hk
                ltac:(right; now exists s)) as (v & -> & _ & Hv).
    rewrite (Hv s Hs Hi). reflexivity.
  - cbn [mbind result_bind]. unfold system_fallback. rewrite Et. cbn [truthy negb].
    destruct (strict_eq (prop project "project_id") (JStr "analytics-system"));
      cbn [andb]; [reflexivity |].
    unfold connection, js_or. rewrite Et. reflexivity.
Qed.

Lemma init_agrees_with_test_without_envelope_witness :
  init_config sample_env legacy_tenant = Return (test_config sample_env legacy_tenant)
  /\ health_config sample_env legacy_tenant = test_config sample_env legacy_tenant.
Proof.
  apply (init_agrees_with_test_without_envelope sample_env legacy_tenant);
    [reflexivity | right; exists "hunter2"; split; reflexivity].
Defined.

(** X25.  For an admitted request on a table whose
    [db_password_encrypted] values are strings or absent, the
    initialisation route never answers 500 on its own account: it answers
    404 or reaches [initializeProjectDatabase].  [decrypt] cannot throw
    there, since passing [requireAdminToken] means a key is configured. *)
Theorem init_route_never_fails `{CryptoLib} (env : gmap string string)
    (req : request) (table : list (gmap string jsval)) :
  requireAdminToken env req = Next ->
  (forall r, r ∈ table ->
     truthy (prop r "db_password_encrypted") = false
     \/ exists s, prop r "db_password_encrypted" = JStr s) ->
  POST_project_init env req table = Json 404 None
  \/ exists cfg, POST_project_init env req table = InitializeProjectDatabase cfg.
Proof.
  intros Hadm Htext.
  pose proof (admitted_configures_master_key env req Hadm) as Hk.
  unfold POST_project_init. rewrite Hadm.
  destruct (select_by_id (prop (req_params req) "id") table) as [| r rest] eqn:Es;
    [now left | right].
  assert (Hr : r ∈ table).
  { assert (Hin : r ∈ select_by_id (prop (req_params req) "id") table)
      by (rewrite Es; constructor).
    unfold select_by_id in Hin. now apply list_elem_of_filter in Hin as [_ Hin]. }
  unfold init_config.
  destruct (truthy (prop r "db_password_encrypted")) eqn:Et.
  - destruct (decrypt_returns env (prop r "db_password_encrypted") Hk (Htext r Hr))
      as (v & -> & _).
    eexists. reflexivity.
  - eexists. reflexivity.
Qed.

Lemma init_route_never_fails_witness :
  POST_project_init sample_env sample_request sample_table = Json 404 None
  \/ exists cfg, POST_project_init sample_env sample_request sample_table
                 = InitializeProjectDatabase cfg.
Proof.
  apply (init_route_never_fails sample_env sample_request sample_table).
  - reflexivity.
  - intros r Hr. unfold sample_table in Hr.
    apply elem_of_cons in Hr as [-> | Hr]; [right; eexists; reflexivity |].
    apply elem_of_cons in Hr as [-> | Hr]; [right; eexists; reflexivity |].
    now apply elem_of_nil in Hr.
Defined.

(** X26.  The passthrough of plain passwords stops at a colon.  When a
    tenant other than the system tenant stores a plain text that holds a
    colon, and the text before the first colon does not decode to the 16
    bytes of an IV, [decrypt] returns [null] for it: the connection test
    connects with the text as stored, while the initialisation connects
    with no password at all. *)
Theorem plaintext_with_colon_is_dropped `{CryptoLib} (env : gmap string string)
    (project : gmap string jsval) (h rest : string) :
  truthy (master_key env) = true ->
  prop project "db_password_encrypted" = JStr (h ++ ":" ++ rest) ->
  includes ":" h = false ->
  length (Hex.decode h) <> 16 ->
  prop project "project_id" <> JStr "analytics-system" ->
  decrypt env (JStr (h ++ ":" ++ rest)) = Return JNull
  /\ password (test_config env project) = JStr (h ++ ":" ++ rest)
  /\ password <$> init_config env project = Return JUndefined.
Proof.
  intros Hk Hs Hh Hiv Hsys.
  assert (Ht : truthy (JStr (h ++ ":" ++ rest)) = true).
  { apply (includes_truthy ":"). rewrite includes_app. cbn.
    now rewrite orb_true_r. }
  assert (Hf : forall v, system_fallback v project = false).
  { intros v. unfold system_fallback, strict_eq.
    rewrite bool_decide_eq_false_2 by exact Hsys. apply andb_false_r. }
  assert (Hd : decrypt env (JStr (h ++ ":" ++ rest)) = Return JNull).
  { rewrite (decrypt_envelope env h rest Hk Hh).
    destruct (decipher_rejects (derive_key (master_key env)) (Hex.decode h) rest
                (derive_key_length (master_key env)) ltac:(now left)) as [e ->].
    reflexivity. }
  split; [exact Hd |]. split.
  - unfold test_config. rewrite Hf, Hs. unfold connection, js_or. cbn [password].
    now rewrite Ht.
  - unfold init_config. rewrite Hs, Ht, Hd.
    cbn [mbind result_bind fmap result_fmap]. rewrite Hf.
    reflexivity.
Qed.

Lemma plaintext_with_colon_is_dropped_witness :
  decrypt sample_env (JStr ("pa" ++ ":" ++ "ss")) = Return JNull
  /\ password (test_config sample_env colon_tenant) = JStr ("pa" ++ ":" ++ "ss")
  /\ password <$> init_config sample_env colon_tenant = Return JUndefined.
Proof.
  apply (plaintext_with_colon_is_dropped sample_env colon_tenant "pa" "ss");
    [reflexivity | reflexivity | reflexivity | vm_compute; discriminate
    | vm_compute; discriminate].
Defined.
